(** * Ghostly: a verification development for [ghostly/ghostly.py]

    [Ghostly] is a thin wrapper around a Selenium webdriver.  Its logic is
    the polling element lookup [_get_element], the two-phase [xpath_wait],
    and a handful of one-line actions and assertions.

    The browser, the wall clock and the random generator are outside the
    program.  They are modelled as an environment answering typed requests
    ([envE]); every request and its answer is appended to a trace, so that
    the statements below can speak about what the program asked, in which
    order, and what it was told.  The environment is arbitrary: the
    theorems hold for every way of answering, and ask at most that the
    clock moves on ([clock_progress]) or reaches the deadline
    ([clock_reaches]).

    Exceptions.  Of the driver's exceptions only [NoSuchElementException]
    (with its subclasses, such as the one for an invalid selector) is
    modelled: it is the one the program handles.  Python's own
    [UnboundLocalError], [AttributeError], [ValueError], [IOError],
    [OverflowError] and [IndexError] are raised where the program can
    raise them.

    The interpreter.  The program runs under Python 2 and under Python 3,
    and does not behave the same: [string.letters] exists in Python 2
    only, and [time.sleep] rejects a negative duration with an [IOError]
    in Python 2 and a [ValueError] in Python 3.  The interpreter is a
    parameter ([Python]), and so is the text [str] gives a float
    ([float_str]), which is not interpreted here.

    Time.  [milli_now()], which is [int(time.time() * 1000)], is an int of
    milliseconds: the request [TimeTime] answers it, and [_get_element]
    computes with it in exact integer arithmetic.  [xpath_wait] reads
    [time.time()] itself, a float of seconds: the request [Clock] answers
    it, and the deadline [start + timeout] and the tests against it are
    computed in IEEE 754 binary64 ([SpecFloat]).  A duration handed to
    [time.sleep] is kept in whole milliseconds: [sleep=0.25] is [250].

    Loops.  The three [while] loops wait for the clock, so they take a
    fuel argument here; the theorems show that under such a clock some
    fuel is enough, and that more fuel changes nothing.

    The constructor, which launches and maximises the browser, is not part
    of this development. *)

From Stdlib Require Import ZArith List String Ascii Bool Lia DecimalString.
From Stdlib Require Import Floats.SpecFloat.
Import ListNotations.

Local Open Scope list_scope.
Local Open Scope string_scope.

(** ** The Python builtins the program relies on *)

(** The interpreter that runs the program. *)
Inductive Python :=
| Python2
| Python3.

(** A number as the caller may pass it: an [int] or a [float]. *)
Inductive Number :=
| Int (z : Z)
| Float (f : spec_float).

Module Py.

(** [s.startswith(p)] *)
Definition startswith (p s : string) : bool := String.prefix p s.

(** [s.replace(old, new)] for a non-empty [old]: scan from the left, and at
    each position where [old] occurs emit [new] and skip [old]. *)
Fixpoint replace_from (old new : string) (skip : nat) (s : string) : string :=
  match s with
  | EmptyString => EmptyString
  | String c s' =>
      match skip with
      | S k => replace_from old new k s'
      | O =>
          if String.prefix old s
          then new ++ replace_from old new (String.length old - 1) s'
          else String c (replace_from old new 0 s')
      end
  end.

(** [s.replace('', new)] puts [new] before every character and at the end. *)
Fixpoint intersperse (new s : string) : string :=
  match s with
  | EmptyString => new
  | String c s' => new ++ String c (intersperse new s')
  end.

Definition replace (old new s : string) : string :=
  match old with
  | EmptyString => intersperse new s
  | _ => replace_from old new 0 s
  end.

Definition lower_ascii (c : ascii) : ascii :=
  let n := nat_of_ascii c in
  if (65 <=? n)%nat && (n <=? 90)%nat then ascii_of_nat (n + 32) else c.

(** [s.lower()] on ASCII text *)
Fixpoint lower (s : string) : string :=
  match s with
  | EmptyString => EmptyString
  | String c s' => String (lower_ascii c) (lower s')
  end.

(** [sub in s] *)
Fixpoint contains (sub s : string) : bool :=
  match s with
  | EmptyString => String.prefix sub EmptyString
  | String _ s' => String.prefix sub s || contains sub s'
  end.

(** [sep.join(pieces)] *)
Fixpoint join (sep : string) (pieces : list string) : string :=
  match pieces with
  | [] => EmptyString
  | piece :: rest =>
      match rest with
      | [] => piece
      | _ :: _ => piece ++ sep ++ join sep rest
      end
  end.

(** [s[k:]] *)
Fixpoint drop (k : nat) (s : string) : string :=
  match k, s with
  | S k', String _ s' => drop k' s'
  | _, _ => s
  end.

(** [str(n)] for a non-negative int *)
Definition str_nat (n : nat) : string := NilEmpty.string_of_uint (Nat.to_uint n).

(** [str(z)] for an int *)
Definition str_int (z : Z) : string := NilZero.string_of_int (Z.to_int z).

(** [x + y] on floats: binary64, round to nearest, ties to even. *)
Definition float_add (x y : spec_float) : spec_float := SFadd 53 1024 x y.

(** [x < y] on floats; a NaN compares false. *)
Definition float_lt (x y : spec_float) : bool := SFltb x y.

(** [float(z)] for an int, as [float + int] converts it: the nearest
    float, ties to even; [None] stands for the [OverflowError] of an int
    beyond the range of floats. *)
Definition float_of_int (z : Z) : option spec_float :=
  match binary_normalize 53 1024 z 0 false with
  | S754_infinity _ => None
  | f => Some f
  end.

(** The float a number stands for in [float + number]. *)
Definition to_float (x : Number) : option spec_float :=
  match x with
  | Int z => float_of_int z
  | Float f => Some f
  end.

(** [str(x)] for a number; [float_str] is the interpreter's text of a
    float. *)
Definition str_number (float_str : spec_float -> string) (x : Number) : string :=
  match x with
  | Int z => str_int z
  | Float f => float_str f
  end.

(** [str(x)] where [x] is [None] or a string, as [format] prints it *)
Definition str_opt (x : option string) : string :=
  match x with
  | None => "None"
  | Some s => s
  end.

(** [string.letters + string.digits] (Python 2, C locale) *)
Definition letters : string := "abcdefghijklmnopqrstuvwxyzABCDEFGHIJKLMNOPQRSTUVWXYZ".
Definition digits : string := "0123456789".

Definition is_alnum (c : ascii) : bool :=
  let n := nat_of_ascii c in
  ((48 <=? n) && (n <=? 57) || (65 <=? n) && (n <=? 90) || (97 <=? n) && (n <=? 122))%nat.

Definition is_space (c : ascii) : bool :=
  let n := nat_of_ascii c in
  ((n =? 32) || (9 <=? n) && (n <=? 13))%nat.

Fixpoint lstrip (s : string) : string :=
  match s with
  | String c s' => if is_space c then lstrip s' else s
  | EmptyString => EmptyString
  end.

Fixpoint rstrip (s : string) : string :=
  match s with
  | EmptyString => EmptyString
  | String c s' =>
      match rstrip s' with
      | EmptyString => if is_space c then EmptyString else String c EmptyString
      | r => String c r
      end
  end.

Fixpoint digits_value (acc : Z) (s : string) : option Z :=
  match s with
  | EmptyString => Some acc
  | String c s' =>
      let n := nat_of_ascii c in
      if ((48 <=? n) && (n <=? 57))%nat
      then digits_value (10 * acc + Z.of_nat (n - 48)) s'
      else None
  end.

(** [int(s)] for a string: surrounding blanks, an optional sign, decimal
    digits; [None] stands for the [ValueError]. *)
Definition int_of_str (s : string) : option Z :=
  match rstrip (lstrip s) with
  | EmptyString => None
  | String "-" EmptyString => None
  | String "+" EmptyString => None
  | String "-" ds => option_map Z.opp (digits_value 0 ds)
  | String "+" ds => digits_value 0 ds
  | ds => digits_value 0 ds
  end.

End Py.

(** ** The environment: webdriver, clock, random generator *)

(** A [WebElement] is an opaque handle. *)
Definition Element := nat.

(** The [find_elements_by_*] family. *)
Inductive By :=
| ById | ByClassName | ByTagName | ByName | ByCssSelector | ByLinkText.

(** What a lookup is rooted at: [self.driver] or an element. *)
Inductive Parent :=
| Driver
| Within (e : Element).

(** A lookup answers, or raises [NoSuchElementException] (with its
    subclasses). *)
Inductive Reply (A : Type) :=
| Answer (a : A)
| NoSuchElement (msg : string).
Arguments Answer {A} a.
Arguments NoSuchElement {A} msg.

(** The requests the program makes, indexed by the type of their answer. *)
Inductive envE : Type -> Type :=
| TimeTime : envE Z                       (* int(time.time() * 1000) *)
| Clock : envE spec_float                 (* time.time() *)
| TimeSleep (ms : Z) : envE unit          (* time.sleep, of a duration >= 0 *)
| RandomChoice (n : nat) : envE nat       (* the index random.choice picks among n *)
| ImplicitlyWait (s : Z) : envE unit
| FindElements (by_ : By) (parent : Parent) (value : string) : envE (Reply (list Element))
| FindElementByXpath (xpath : string) : envE (Reply Element)
| TagName (e : Element) : envE string
| GetAttribute (e : Element) (name : string) : envE (option string)
| Text (e : Element) : envE string
| IsDisplayed (e : Element) : envE bool
| Click (e : Element) : envE unit
| SendKeys (e : Element) (keys : string) : envE unit
| Submit (e : Element) : envE unit
| ActionMoveClick (e : Element) : envE unit  (* ActionChains: move_to_element, click, perform *)
| Title : envE string
| CurrentUrl : envE string
| Forward : envE unit
| Back : envE unit
| Get (url : string) : envE unit
| SwitchToFrame (selector : string) : envE unit
| Quit : envE unit.

(** One entry of the trace: a request and the answer it got. *)
Inductive Event :=
| Ev {A : Type} (op : envE A) (r : A).

(** Python exceptions: a class and a message. *)
Inductive ExnClass :=
| NoSuchElementException
| GhostlyTimeoutError
| GhostlyTestFailed
| AttributeError
| UnboundLocalError
| ValueError
| IOError
| OverflowError
| IndexError.

Record Exn := mkExn { exn_class : ExnClass; exn_msg : string }.

(** What the interpreter itself raises. *)

(** [time.sleep] of a negative duration. *)
Definition negative_sleep (py : Python) : Exn :=
  match py with
  | Python2 => mkExn IOError "[Errno 22] Invalid argument"
  | Python3 => mkExn ValueError "sleep length must be non-negative"
  end.

(** [float + int] for an int beyond the range of floats. *)
Definition int_too_large (py : Python) : Exn :=
  match py with
  | Python2 => mkExn OverflowError "long int too large to convert to float"
  | Python3 => mkExn OverflowError "int too large to convert to float"
  end.

(** [string.letters] where the module has no such attribute. *)
Definition no_letters : Exn :=
  mkExn AttributeError "module 'string' has no attribute 'letters'".

(** [x == s] where [x] is [None] or a string *)
Definition opt_str_eqb (x : option string) (s : string) : bool :=
  match x with
  | Some a => String.eqb a s
  | None => false
  end.

(** ** Observations on traces *)

Definition ev_time (e : Event) : option Z :=
  match e with
  | Ev op r =>
      match op in envE A return A -> option Z with
      | TimeTime => fun t => Some t
      | _ => fun _ => None
      end r
  end.

Definition ev_clock (e : Event) : option spec_float :=
  match e with
  | Ev op r =>
      match op in envE A return A -> option spec_float with
      | Clock => fun t => Some t
      | _ => fun _ => None
      end r
  end.

Definition ev_sleep (e : Event) : option Z :=
  match e with
  | Ev (TimeSleep ms) _ => Some ms
  | _ => None
  end.

Definition is_sleep (e : Event) : bool :=
  match ev_sleep e with Some _ => true | None => false end.

Definition ev_keys (e : Event) : option (Element * string) :=
  match e with
  | Ev (SendKeys el keys) _ => Some (el, keys)
  | _ => None
  end.

Definition ev_find (e : Event) : option (By * Parent * string * Reply (list Element)) :=
  match e with
  | Ev op r =>
      match op in envE A return A -> option (By * Parent * string * Reply (list Element)) with
      | FindElements b p v => fun r => Some (b, p, v, r)
      | _ => fun _ => None
      end r
  end.

Definition is_displayed_query (e : Event) : bool :=
  match e with
  | Ev (IsDisplayed _) _ => true
  | _ => false
  end.

(** ** The program *)

Section Ghostly.

(** The environment's state and how it answers a request. *)
Variable B : Type.
Variable handle : forall A : Type, envE A -> B -> A * B.

(** The interpreter, and the text it gives a float. *)
Variable py : Python.
Variable float_str : spec_float -> string.

Record World := mkWorld { env : B; trace : list Event }.

(** Running a piece of the program: it returns, raises, or (for the loops,
    which are bounded by a fuel argument) is cut short. *)
Inductive Outcome (A : Type) :=
| Return (a : A) (w : World)
| Raise (e : Exn) (w : World)
| OutOfFuel.
Arguments Return {A} a w.
Arguments Raise {A} e w.
Arguments OutOfFuel {A}.

Definition M (A : Type) : Type := World -> Outcome A.

Definition ret {A} (a : A) : M A := fun w => Return a w.

Definition bind {A C} (m : M A) (k : A -> M C) : M C :=
  fun w =>
    match m w with
    | Return a w' => k a w'
    | Raise e w' => Raise e w'
    | OutOfFuel => OutOfFuel
    end.

Definition raise {A} (c : ExnClass) (msg : string) : M A :=
  fun w => Raise (mkExn c msg) w.

Definition throw {A} (x : Exn) : M A := fun w => Raise x w.

Definition out_of_fuel {A} : M A := fun _ => OutOfFuel.

Definition class_eqb (a b : ExnClass) : bool :=
  match a, b with
  | NoSuchElementException, NoSuchElementException
  | GhostlyTimeoutError, GhostlyTimeoutError
  | GhostlyTestFailed, GhostlyTestFailed
  | AttributeError, AttributeError
  | UnboundLocalError, UnboundLocalError
  | ValueError, ValueError
  | IOError, IOError
  | OverflowError, OverflowError
  | IndexError, IndexError => true
  | _, _ => false
  end.

(** [try: m except c: h] *)
Definition try_except {A} (m : M A) (c : ExnClass) (h : M A) : M A :=
  fun w =>
    match m w with
    | Raise e w' => if class_eqb (exn_class e) c then h w' else Raise e w'
    | o => o
    end.

(** One request to the environment, recorded with its answer. *)
Definition call {A} (op : envE A) : M A :=
  fun w =>
    let (r, b) := handle A op (env w) in
    Return r {| env := b; trace := (trace w ++ [Ev op r])%list |}.

Notation "x <- m ;; k" := (bind m (fun x => k))
  (at level 61, m at next level, right associativity).
Notation "m ;; k" := (bind m (fun _ => k))
  (at level 61, right associativity).

(** A lookup that raises, as the Selenium call does. *)
Definition reply {A} (r : Reply A) : M A :=
  match r with
  | Answer a => ret a
  | NoSuchElement msg => raise NoSuchElementException msg
  end.

Definition find_elements (by_ : By) (parent : Parent) (value : string) : M (list Element) :=
  r <- call (FindElements by_ parent value) ;; reply r.

Definition find_element_by_xpath (xpath : string) : M Element :=
  r <- call (FindElementByXpath xpath) ;; reply r.

(** Reading a local variable that may not have been assigned yet. *)
Definition read_local {A} (name : string) (v : option A) : M A :=
  match v with
  | Some a => ret a
  | None =>
      raise UnboundLocalError
        ("local variable '" ++ name ++ "' referenced before assignment")
  end.

(** A [WebElement] defines neither [__nonzero__] nor [__len__]: it is true. *)
Definition truthy (e : Element) : bool := true.

Definition nonempty {A} (l : list A) : bool :=
  match l with
  | [] => false
  | _ :: _ => true
  end.

(** [int(time.time() * 1000)] *)
Definition milli_now : M Z := call TimeTime.

(** *** [_get_element] *)

(** [if not parent: parent = self.driver].  The test is made at each turn
    of the loop and gives the same scope each time. *)
Definition scope (parent : option Element) : Parent :=
  match parent with
  | None => Driver
  | Some e => if truthy e then Within e else Driver
  end.

Definition funcs : list By :=
  [ByTagName; ByName; ById; ByCssSelector; ByLinkText].

(** The [for f in funcs] loop; [elements] is the local variable, [None]
    while it is unbound. *)
Fixpoint try_funcs (fs : list By) (parent : Parent) (selector : string)
    (elements : option (list Element)) : M (option (list Element)) :=
  match fs with
  | [] => ret elements
  | f :: fs' =>
      step <- try_except
                (l <- find_elements f parent selector ;;
                 ret (Some l, nonempty l))
                NoSuchElementException
                (ret (elements, false)) ;;
      let (elements', stop) := step : option (list Element) * bool in
      if stop then ret elements' else try_funcs fs' parent selector elements'
  end.

(** The [for element in elements] loop: the first element that is not a
    hidden form input, [None] when the loop runs to its end. *)
Fixpoint first_shown (elements : list Element) : M (option Element) :=
  match elements with
  | [] => ret None
  | element :: rest =>
      tag <- call (TagName element) ;;
      if String.eqb (Py.lower tag) "input"
      then
        ty <- call (GetAttribute element "type") ;;
        if opt_str_eqb ty "hidden" then first_shown rest
        else ret (Some element)
      else ret (Some element)
  end.

(** The body of the [while] loop: the outer [try].  It yields the new value
    of [elements] and the element to return, if any. *)
Definition attempt (selector : string) (parent : Parent)
    (elements : option (list Element))
  : M (option (list Element) * option Element) :=
  try_except
    (elements' <-
       (if Py.startswith "#" selector then
          l <- find_elements ById parent (Py.replace "#" "" selector) ;;
          ret (Some l)
        else if Py.startswith "." selector then
          l <- find_elements ByClassName parent (Py.replace "." "" selector) ;;
          ret (Some l)
        else try_funcs funcs parent selector elements) ;;
     l <- read_local "elements" elements' ;;
     if nonempty l
     then found <- first_shown l ;; ret (elements', found)
     else ret (elements', None))
    NoSuchElementException
    (ret (elements, None)).

(** [while milli_now() < start + wait: ...], then the final [raise]. *)
Fixpoint poll (fuel : nat) (selector : string) (parent : Parent)
    (deadline : Z) (elements : option (list Element)) : M Element :=
  match fuel with
  | O => out_of_fuel
  | S fuel' =>
      now <- milli_now ;;
      if (now <? deadline)%Z then
        r <- attempt selector parent elements ;;
        match r with
        | (_, Some element) => ret element
        | (elements', None) => poll fuel' selector parent deadline elements'
        end
      else
        raise NoSuchElementException
          ("Could not find element matching " ++ selector)
  end.

Definition _get_element (fuel : nat) (selector : string)
    (parent : option Element) (wait : Z) : M Element :=
  let wait := (wait * 1000)%Z in
  start <- milli_now ;;
  call (ImplicitlyWait 0) ;;
  poll fuel selector (scope parent) (start + wait)%Z None.

(** The default [wait=10]. *)
Definition default_wait : Z := 10.

(** *** The seven commands *)

Definition get (url : string) : M unit := call (Get url).

Definition end_ : M unit := call Quit.

Definition click (fuel : nat) (selector : string) : M unit :=
  element <- _get_element fuel selector None default_wait ;;
  call (Click element).

(** The argument of [wait]: a number (held in milliseconds) or a string. *)
Inductive Seconds :=
| Num (ms : Z)
| Str (s : string).

(** [time.sleep(secs)]: a negative duration is refused. *)
Definition time_sleep (ms : Z) : M unit :=
  if (ms <? 0)%Z then throw (negative_sleep py) else call (TimeSleep ms).

Definition wait (seconds : Seconds) : M unit :=
  match seconds with
  | Str s =>
      match Py.int_of_str s with
      | Some n => time_sleep (n * 1000)
      | None =>
          raise ValueError ("invalid literal for int() with base 10: '" ++ s ++ "'")
      end
  | Num ms => time_sleep ms
  end.

Definition xpath (xp : string) : M Element := find_element_by_xpath xp.

Definition xpath_click (xp : string) (wait_after : option Seconds)
    (move_to : bool) : M unit :=
  element <- xpath xp ;;
  (if move_to then call (ActionMoveClick element) else call (Click element)) ;;
  match wait_after with
  | Some s => wait s
  | None => ret tt
  end.

(** [start + timeout], where [start] is the float read from the clock. *)
Definition float_plus (start : spec_float) (timeout : Number) : M spec_float :=
  match Py.to_float timeout with
  | Some t => ret (Py.float_add start t)
  | None => throw (int_too_large py)
  end.

(** The first [while ... else] of [xpath_wait]: poll until the element can
    be selected. *)
Fixpoint wait_exists (fuel : nat) (xp : string) (timeout : Number)
    (stop : spec_float) (sleep : Z) (attempts : nat) : M (Element * nat) :=
  match fuel with
  | O => out_of_fuel
  | S fuel' =>
      now <- call Clock ;;
      if Py.float_lt now stop then
        let attempts := S attempts in
        r <- try_except
               (element <- xpath xp ;; ret (Some element))
               NoSuchElementException
               (wait (Num sleep) ;; ret None) ;;
        match r with
        | Some element => ret (element, attempts)
        | None => wait_exists fuel' xp timeout stop sleep attempts
        end
      else
        raise GhostlyTimeoutError
          ("Could not select xpath '" ++ xp ++ "' within "
             ++ Py.str_number float_str timeout ++ " seconds - attempted "
             ++ Py.str_nat attempts ++ " times.")
  end.

(** The second [while ... else]: poll until the element is displayed. *)
Fixpoint wait_visible (fuel : nat) (xp : string) (element : Element)
    (timeout : Number) (stop : spec_float) (sleep : Z) (attempts : nat)
  : M Element :=
  match fuel with
  | O => out_of_fuel
  | S fuel' =>
      now <- call Clock ;;
      if Py.float_lt now stop then
        let attempts := S attempts in
        shown <- call (IsDisplayed element) ;;
        if shown : bool then ret element
        else
          wait (Num sleep) ;;
          wait_visible fuel' xp element timeout stop sleep attempts
      else
        raise GhostlyTimeoutError
          ("Element selected via xpath '" ++ xp
             ++ "' but is not yet visible within "
             ++ Py.str_number float_str timeout ++ " seconds - attempted "
             ++ Py.str_nat attempts ++ " times.")
  end.

Definition xpath_wait (fuel : nat) (xp : string) (visible : bool)
    (timeout : Number) (sleep : Z) : M Element :=
  start <- call Clock ;;
  stop <- float_plus start timeout ;;
  found <- wait_exists fuel xp timeout stop sleep 0 ;;
  let (element, attempts) := found : Element * nat in
  if negb visible then ret element
  else wait_visible fuel xp element timeout stop sleep attempts.

(** An argument the caller may leave out, and its default. *)
Definition or_default {A} (default : A) (given : option A) : A :=
  match given with
  | Some a => a
  | None => default
  end.

(** The call as the signature has it,
    [xpath_wait(xpath, visible=True, timeout=5, sleep=0.25)]. *)
Definition xpath_wait_call (fuel : nat) (xp : string) (visible : option bool)
    (timeout : option Number) (sleep : option Z) : M Element :=
  xpath_wait fuel xp (or_default true visible) (or_default (Int 5) timeout)
    (or_default 250%Z sleep).

(** [random.choice(seq)] *)
Definition random_choice (seq : string) : M ascii :=
  i <- call (RandomChoice (String.length seq)) ;;
  match String.get (i mod String.length seq) seq with
  | Some c => ret c
  | None => raise IndexError "list index out of range"
  end.

(** [string.letters]: the attribute is there in Python 2 only. *)
Definition string_letters : M string :=
  match py with
  | Python2 => ret Py.letters
  | Python3 => throw no_letters
  end.

(** [''.join(random.choice(string.letters + string.digits) for _ in range(n))]:
    the argument of [random.choice] is evaluated at each turn. *)
Fixpoint random_string (n : nat) : M string :=
  match n with
  | O => ret EmptyString
  | S n' =>
      letters <- string_letters ;;
      c <- random_choice (letters ++ Py.digits) ;;
      s <- random_string n' ;;
      ret (String c s)
  end.

(** [for k, v in c.items()] *)
Fixpoint fill_items (fuel : nat) (r : string) (form : Element)
    (items : list (string * string)) : M unit :=
  match items with
  | [] => ret tt
  | (k, v) :: rest =>
      let v := Py.replace "<random>" r v in
      element <- _get_element fuel k (Some form) default_wait ;;
      call (SendKeys element v) ;;
      fill_items fuel r form rest
  end.

(** [for c in contents] *)
Fixpoint fill_contents (fuel : nat) (r : string) (form : Element)
    (contents : list (list (string * string))) : M unit :=
  match contents with
  | [] => ret tt
  | c :: rest =>
      fill_items fuel r form c ;;
      fill_contents fuel r form rest
  end.

Definition fill (fuel : nat) (selector : string)
    (contents : list (list (string * string))) : M Element :=
  r <- random_string 12 ;;
  form <- _get_element fuel selector None default_wait ;;
  fill_contents fuel r form contents ;;
  ret form.

Definition submit (fuel : nat) (selector : string)
    (contents : list (list (string * string))) : M unit :=
  form <- fill fuel selector contents ;;
  call (Submit form).

Definition switch_to (selector : string) : M unit :=
  call (SwitchToFrame selector).

(** [getattr(self.driver, name)] for the methods [navigate] may reach. *)
Definition getattr_driver (name : string) : M (M unit) :=
  if String.eqb name "forward" then ret (call Forward)
  else if String.eqb name "back" then ret (call Back)
  else raise AttributeError
         ("'WebDriver' object has no attribute '" ++ name ++ "'").

Definition navigate (navigation : string) : M unit :=
  if negb (existsb (String.eqb navigation) ["forward"; "back"])
  then raise AttributeError
         "An invalid option was given to the navigation command"
  else
    f <- getattr_driver navigation ;;
    f.

(** *** The five asserts *)

Definition assert_text (fuel : nat) (text selector : string) : M unit :=
  wait (Num 1000) ;;
  element <- _get_element fuel selector None default_wait ;;
  actual <- call (Text element) ;;
  if negb (Py.contains text actual) then
    shown <- call (Text element) ;;
    raise GhostlyTestFailed (text ++ " not in " ++ shown)
  else ret tt.

Definition assert_element (fuel : nat) (selector : string) : M unit :=
  wait (Num 1000) ;;
  element <- _get_element fuel selector None default_wait ;;
  if negb (truthy element) then
    raise GhostlyTestFailed ("no element matched " ++ selector)
  else ret tt.

Definition assert_value (fuel : nat) (selector value : string) : M unit :=
  wait (Num 1000) ;;
  element <- _get_element fuel selector None default_wait ;;
  actual <- call (GetAttribute element "value") ;;
  if negb (opt_str_eqb actual value) then
    shown <- call (GetAttribute element "value") ;;
    raise GhostlyTestFailed (Py.str_opt shown ++ " != " ++ value)
  else ret tt.

Definition assert_title (value : string) : M unit :=
  wait (Num 1000) ;;
  actual <- call Title ;;
  if negb (String.eqb actual value) then
    shown <- call Title ;;
    raise GhostlyTestFailed ("title is " ++ shown ++ " not " ++ value)
  else ret tt.

Definition assert_url (url : string) : M unit :=
  wait (Num 1000) ;;
  actual <- call CurrentUrl ;;
  if negb (String.eqb actual url) then
    shown <- call CurrentUrl ;;
    raise GhostlyTestFailed ("url is " ++ shown ++ " not " ++ url)
  else ret tt.

(** The default [selector='body'] of [assert_text]. *)
Definition default_selector : string := "body".

End Ghostly.

Arguments mkWorld {B} env trace.
Arguments env {B} w.
Arguments trace {B} w.
Arguments Return {B A} a w.
Arguments Raise {B A} e w.
Arguments OutOfFuel {B A}.
Arguments ret {B A} a w.
Arguments bind {B A C} m k w.
Arguments raise {B A} c msg w.
Arguments throw {B A} x w.
Arguments try_except {B A} m c h w.
Arguments call {B} handle {A} op w.
Arguments find_elements {B} handle by_ parent value w.
Arguments find_element_by_xpath {B} handle xpath w.
Arguments read_local {B A} name v w.
Arguments milli_now {B} handle w.
Arguments try_funcs {B} handle fs parent selector elements w.
Arguments first_shown {B} handle elements w.
Arguments attempt {B} handle selector parent elements w.
Arguments poll {B} handle fuel selector parent deadline elements w.
Arguments _get_element {B} handle fuel selector parent wait w.
Arguments get {B} handle url w.
Arguments end_ {B} handle w.
Arguments click {B} handle fuel selector w.
Arguments time_sleep {B} handle py ms w.
Arguments wait {B} handle py seconds w.
Arguments xpath {B} handle xp w.
Arguments xpath_click {B} handle py xp wait_after move_to w.
Arguments float_plus {B} py start timeout w.
Arguments wait_exists {B} handle py float_str fuel xp timeout stop sleep attempts w.
Arguments wait_visible {B} handle py float_str fuel xp element timeout stop sleep attempts w.
Arguments xpath_wait {B} handle py float_str fuel xp visible timeout sleep w.
Arguments or_default {A} default given.
Arguments xpath_wait_call {B} handle py float_str fuel xp visible timeout sleep w.
Arguments random_choice {B} handle seq w.
Arguments string_letters {B} py w.
Arguments random_string {B} handle py n w.
Arguments fill_items {B} handle fuel r form items w.
Arguments fill_contents {B} handle fuel r form contents w.
Arguments fill {B} handle py fuel selector contents w.
Arguments submit {B} handle py fuel selector contents w.
Arguments switch_to {B} handle selector w.
Arguments getattr_driver {B} handle name w.
Arguments navigate {B} handle navigation w.
Arguments assert_text {B} handle py fuel text selector w.
Arguments assert_element {B} handle py fuel selector w.
Arguments assert_value {B} handle py fuel selector value w.
Arguments assert_title {B} handle py value w.
Arguments assert_url {B} handle py url w.

(** ** A small browser to run the program against

    A static page whose nodes appear and become visible at given times, a
    clock that moves by a fixed step at each reading, and a linear
    congruential generator.  It stands in for Selenium in the examples.

    The clock counts ticks.  [TimeTime] reports them as milliseconds;
    [Clock] reports the float [ticks / 1024], a binary fraction of a second,
    so that the float is exact. *)

Module Toy.

Record Node := mkNode {
  tag : string;
  ident : string;
  name : string;
  classes : list string;
  type_ : option string;
  value : option string;
  text : string;
  path : string;           (* the xpath that selects the node *)
  present_from : Z;        (* the node is in the page from this time on *)
  shown_from : Z           (* and displayed from this time on *)
}.

Record Page := mkPage {
  nodes : list Node;
  step : Z;                (* what one clock reading costs, at least 1 *)
  lookups_raise : bool;    (* every find_elements_by_* raises *)
  title : string;
  url : string
}.

Record State := mkState { now : Z; seed : nat }.

Definition matches (by_ : By) (v : string) (n : Node) : bool :=
  match by_ with
  | ById => String.eqb (ident n) v
  | ByClassName => existsb (String.eqb v) (classes n)
  | ByTagName => String.eqb (tag n) v
  | ByName => String.eqb (name n) v
  | ByCssSelector => String.eqb (tag n ++ "#" ++ ident n) v
  | ByLinkText => String.eqb (tag n) "a" && String.eqb (text n) v
  end.

Fixpoint select (keep : Node -> bool) (i : nat) (ns : list Node) : list Element :=
  match ns with
  | [] => []
  | n :: ns' => if keep n then i :: select keep (S i) ns' else select keep (S i) ns'
  end.

Definition present (t : Z) (n : Node) : bool := (present_from n <=? t)%Z.

Definition node (p : Page) (e : Element) : option Node := nth_error (nodes p) e.

Definition attribute (n : Node) (a : string) : option string :=
  if String.eqb a "type" then type_ n
  else if String.eqb a "value" then value n
  else if String.eqb a "id" then Some (ident n)
  else if String.eqb a "name" then Some (name n)
  else None.

(** The float [ticks / 1024]: a mantissa of 53 bits and its exponent. *)
Definition seconds (ticks : Z) : spec_float :=
  match ticks with
  | Zpos p =>
      let d := Zpos (digits2_pos p) in
      if (d <=? 53)%Z
      then S754_finite false (Z.to_pos (Zpos p * 2 ^ (53 - d))) (d - 63)
      else S754_infinity false
  | _ => S754_zero false
  end.

(** The digits of [r / den] after the point, [r < den], to the last one
    that is not zero. *)
Fixpoint fraction (fuel : nat) (r den : Z) : string :=
  match fuel with
  | O => EmptyString
  | S fuel' =>
      if (r =? 0)%Z then EmptyString
      else (Py.str_int (10 * r / den) ++ fraction fuel' (10 * r mod den) den)%string
  end.

(** The text of a float: its decimal expansion, written in full.  Where
    the expansion has at most 15 significant digits and the float lies
    between [1e-4] and [1e16], this is what [str] gives in Python 2.7 and
    in Python 3; the floats of the examples are such. *)
Definition float_str (f : spec_float) : string :=
  match f with
  | S754_zero s => if s then "-0.0" else "0.0"
  | S754_infinity s => if s then "-inf" else "inf"
  | S754_nan => "nan"
  | S754_finite s m e =>
      let sign := if s then "-" else "" in
      if (0 <=? e)%Z then (sign ++ Py.str_int (Zpos m * 2 ^ e) ++ ".0")%string
      else
        let den := (2 ^ (- e))%Z in
        let digits := fraction (Z.to_nat (- e)) (Zpos m mod den) den in
        (sign ++ Py.str_int (Zpos m / den) ++ "."
           ++ match digits with EmptyString => "0" | _ => digits end)%string
  end.

Definition handle (p : Page) (A : Type) (op : envE A) (s : State) : A * State :=
  match op in envE A return A * State with
  | TimeTime => (now s, mkState (now s + Z.max 1 (step p)) (seed s))
  | Clock => (seconds (now s), mkState (now s + Z.max 1 (step p)) (seed s))
  | TimeSleep ms => (tt, mkState (now s + Z.max 0 ms) (seed s))
  | RandomChoice n => (seed s, mkState (now s) ((seed s * 7 + 3) mod 101))
  | ImplicitlyWait _ => (tt, s)
  | FindElements by_ _ v =>
      (if lookups_raise p then NoSuchElement "no such element"
       else Answer (select (fun n => present (now s) n && matches by_ v n) 0 (nodes p)), s)
  | FindElementByXpath xp =>
      (match select (fun n => present (now s) n && String.eqb (path n) xp) 0 (nodes p) with
       | e :: _ => Answer e
       | [] => NoSuchElement "Unable to locate element"
       end, s)
  | TagName e => (match node p e with Some n => tag n | None => "" end, s)
  | GetAttribute e a => (match node p e with Some n => attribute n a | None => None end, s)
  | Text e => (match node p e with Some n => text n | None => "" end, s)
  | IsDisplayed e => (match node p e with Some n => (shown_from n <=? now s)%Z | None => false end, s)
  | Click _ => (tt, s)
  | SendKeys _ _ => (tt, s)
  | Submit _ => (tt, s)
  | ActionMoveClick _ => (tt, s)
  | Title => (title p, s)
  | CurrentUrl => (url p, s)
  | Forward => (tt, s)
  | Back => (tt, s)
  | Get _ => (tt, s)
  | SwitchToFrame _ => (tt, s)
  | Quit => (tt, s)
  end.

(** How many more clock readings can stay below [deadline]. *)
Definition rank (deadline : Z) (s : State) : nat := Z.to_nat (deadline - now s).

Definition start : World State := mkWorld (mkState 0 1) [].

Definition plain (tg : string) (id_ : string) : Node :=
  mkNode tg id_ "" [] None None "" "" 0 0.

(** A search form: a hidden token, a text field, a link; the button shows
    up after one second and is displayed after two. *)
Definition form_page : Page :=
  mkPage
    [ mkNode "form" "search" "" [] None None "" "//form" 0 0;
      mkNode "INPUT" "csrf" "q" ["field"] (Some "hidden") (Some "t0k3n") "" "" 0 0;
      mkNode "input" "q" "q" ["field"] (Some "text") (Some "Hello World") "" "//input[2]" 0 0;
      mkNode "a" "home" "" [] None None "Home" "" 0 0;
      mkNode "button" "go" "" ["late"] None None "Go" "//button" 1000 2000 ]
    400 false "Search" "http://localhost/search".

(** A page whose only field is a hidden input. *)
Definition hidden_page : Page :=
  mkPage
    [ mkNode "input" "csrf" "csrf" ["field"] (Some "hidden") (Some "t0k3n") "" "//input" 0 0 ]
    400 false "Hidden" "http://localhost/hidden".

(** A page with an element whose id contains a [#]. *)
Definition hash_page : Page :=
  mkPage [ plain "div" "a#b"; plain "div" "ab" ] 400 false "Hash" "http://localhost/hash".

(** A driver whose every lookup raises. *)
Definition broken_page : Page :=
  mkPage [ plain "div" "main" ] 400 true "Broken" "http://localhost/broken".

End Toy.

(** ** Reading traces

    A run is judged by the trace it leaves.  The checks below are small
    automata over events; [steps] runs one. *)

Fixpoint steps {S : Type} (delta : S -> Event -> option S)
    (tr : list Event) (s : S) : option S :=
  match tr with
  | [] => Some s
  | e :: tr' =>
      match delta s e with
      | Some s' => steps delta tr' s'
      | None => None
      end
  end.

(** The requests of one resolution attempt: lookups and the two reads of
    the hidden-input test. *)
Definition is_lookup (e : Event) : bool :=
  match e with
  | Ev (FindElements _ _ _) _ => true
  | Ev (TagName _) _ => true
  | Ev (GetAttribute _ _) _ => true
  | _ => false
  end.

Definition is_clock (e : Event) : bool :=
  match ev_time e with Some _ => true | None => false end.

(** What the polling loop may ask: the time, and lookups. *)
Definition loop_event (e : Event) : bool := is_clock e || is_lookup e.

(** An answer that lets an element through the hidden-input test: a tag
    name other than [input], or a [type] other than [hidden]. *)
Definition passes (e : Event) : option Element :=
  match e with
  | Ev op r =>
      match op in envE A return A -> option Element with
      | TagName el => fun tg =>
          if String.eqb (Py.lower tg) "input" then None else Some el
      | GetAttribute el a => fun ty =>
          if String.eqb a "type" && negb (opt_str_eqb ty "hidden")
          then Some el else None
      | _ => fun _ => None
      end r
  end.

Definition no_pass (e : Event) : bool :=
  match passes e with Some _ => false | None => true end.

(** Deadline discipline.  The state says whether the latest clock reading
    was still before the deadline; any other request is admitted only then. *)
Definition deadline_step (deadline : Z) (open : bool) (e : Event) : option bool :=
  match ev_time e with
  | Some t => Some (t <? deadline)%Z
  | None => if open then Some true else None
  end.

Definition by_eqb (a b : By) : bool :=
  match a, b with
  | ById, ById | ByClassName, ByClassName | ByTagName, ByTagName
  | ByName, ByName | ByCssSelector, ByCssSelector | ByLinkText, ByLinkText => true
  | _, _ => false
  end.

Definition parent_eqb (a b : Parent) : bool :=
  match a, b with
  | Driver, Driver => true
  | Within x, Within y => Nat.eqb x y
  | _, _ => false
  end.

(** A lookup wins when it answers a non-empty list. *)
Definition won (r : Reply (list Element)) : bool :=
  match r with
  | Answer (_ :: _) => true
  | _ => false
  end.

(** The element a hidden-input read is about. *)
Definition ev_checked (e : Event) : option Element :=
  match e with
  | Ev (TagName el) _ => Some el
  | Ev (GetAttribute el _) _ => Some el
  | _ => None
  end.

Definition is_check (e : Event) : bool :=
  match ev_checked e with Some _ => true | None => false end.

(** Strategy discipline.  The state is the list of strategies the current
    attempt may still try, and the list last answered by a lookup.  A clock
    reading starts a new attempt with the whole [plan], and is admitted
    only when the previous attempt used its plan up; a lookup must use the
    next strategy, on [value], rooted at [parent]; a win closes the
    attempt; only elements of the list last answered are examined. *)
Definition chain_step (plan : list By) (value : string) (parent : Parent)
    (st : list By * list Element) (e : Event) : option (list By * list Element) :=
  let (fs, cands) := st in
  match ev_time e with
  | Some _ =>
      match fs with
      | [] => Some (plan, cands)
      | _ :: _ => None
      end
  | None =>
      match ev_find e with
      | Some (b, p, v, r) =>
          match fs with
          | f :: fs' =>
              if by_eqb b f && parent_eqb p parent && String.eqb v value
              then Some (if won r then [] else fs',
                         match r with Answer l => l | NoSuchElement _ => cands end)
              else None
          | [] => None
          end
      | None =>
          match ev_checked e with
          | Some el => if existsb (Nat.eqb el) cands then Some st else None
          | None => Some st
          end
      end
  end.

(** The strategies and the value the selector grammar prescribes. *)
Definition plan_of (selector : string) : list By :=
  if Py.startswith "#" selector then [ById]
  else if Py.startswith "." selector then [ByClassName]
  else [ByTagName; ByName; ById; ByCssSelector; ByLinkText].

Definition value_of (selector : string) : string :=
  if Py.startswith "#" selector then Py.replace "#" "" selector
  else if Py.startswith "." selector then Py.replace "." "" selector
  else selector.

(** The list held by the local variable [elements]; nothing while unbound. *)
Definition cand (elements : option (list Element)) : list Element :=
  match elements with
  | Some l => l
  | None => []
  end.

(** [scan l d found]: the reads [d] examine the elements of [l] in order;
    each one before [found] was reported an [input] of type [hidden];
    [found] is the first not so reported, if any. *)
Inductive scan : list Element -> list Event -> option Element -> Prop :=
| scan_end : scan [] [] None
| scan_hidden e tg rest d found :
    String.eqb (Py.lower tg) "input" = true ->
    scan rest d found ->
    scan (e :: rest)
      (Ev (TagName e) tg :: Ev (GetAttribute e "type") (Some "hidden") :: d) found
| scan_tag e tg rest :
    String.eqb (Py.lower tg) "input" = false ->
    scan (e :: rest) [Ev (TagName e) tg] (Some e)
| scan_type e tg ty rest :
    String.eqb (Py.lower tg) "input" = true ->
    opt_str_eqb ty "hidden" = false ->
    scan (e :: rest) [Ev (TagName e) tg; Ev (GetAttribute e "type") ty] (Some e).

(** The last clock reading of a trace. *)
Fixpoint last_time (tr : list Event) (t : option Z) : option Z :=
  match tr with
  | [] => t
  | e :: tr' =>
      match ev_time e with
      | Some t' => last_time tr' (Some t')
      | None => last_time tr' t
      end
  end.

Definition ev_choice (e : Event) : option (nat * nat) :=
  match e with
  | Ev op r =>
      match op in envE A return A -> option (nat * nat) with
      | RandomChoice n => fun i => Some (n, i)
      | _ => fun _ => None
      end r
  end.

Definition is_choice (e : Event) : bool :=
  match ev_choice e with Some _ => true | None => false end.

Definition is_xpath_query (e : Event) : bool :=
  match e with
  | Ev (FindElementByXpath _) _ => true
  | _ => false
  end.

(** The texts typed, in order. *)
Fixpoint keys_sent (tr : list Event) : list string :=
  match tr with
  | [] => []
  | e :: tr' =>
      match ev_keys e with
      | Some (_, k) => k :: keys_sent tr'
      | None => keys_sent tr'
      end
  end.

(** ** Specifying runs *)

Inductive Result (A : Type) :=
| Ok (a : A)
| Err (e : Exn).
Arguments Ok {A} a.
Arguments Err {A} e.

(** [ends cut m w Q]: from [w], either [m] comes to an end, and its result,
    the events it added and the world it ends in satisfy [Q]; or it is cut
    short for want of fuel, and then [cut] holds. *)
Definition ends {B A : Type} (cut : Prop) (m : World B -> Outcome B A)
    (w : World B) (Q : Result A -> list Event -> World B -> Prop) : Prop :=
  match m w with
  | Return a w' => exists d, trace w' = (trace w ++ d)%list /\ Q (Ok a) d w'
  | Raise e w' => exists d, trace w' = (trace w ++ d)%list /\ Q (Err e) d w'
  | OutOfFuel => cut
  end.

(** The clock moves on: [rank d] bounds how many more readings can stay
    below [d]; no request raises it, and a reading below [d] lowers it. *)
Definition clock_progress {B : Type} (handle : forall A : Type, envE A -> B -> A * B)
    (rank : Z -> B -> nat) : Prop :=
  (forall (A : Type) (op : envE A) d b,
      (rank d (snd (handle A op b)) <= rank d b)%nat) /\
  (forall d b, (fst (handle Z TimeTime b) < d)%Z ->
      (rank d (snd (handle Z TimeTime b)) < rank d b)%nat).

(** The float clock reaches [stop]: [rank] bounds how many more readings
    can stay below [stop]; no request raises it, and a reading below [stop]
    lowers it. *)
Definition clock_reaches {B : Type} (handle : forall A : Type, envE A -> B -> A * B)
    (rank : B -> nat) (stop : spec_float) : Prop :=
  (forall (A : Type) (op : envE A) b, (rank (snd (handle A op b)) <= rank b)%nat) /\
  (forall b, Py.float_lt (fst (handle spec_float Clock b)) stop = true ->
      (rank (snd (handle spec_float Clock b)) < rank b)%nat).

(** No request has raised any rank between [w] and [w']. *)
Definition later {B : Type} (rank : Z -> B -> nat) (w w' : World B) : Prop :=
  forall d, (rank d (env w') <= rank d (env w))%nat.

(** ** What the resolver may leave behind *)

(** The error of reading [elements] before any lookup assigned it. *)
Definition unbound_elements : Exn :=
  mkExn UnboundLocalError "local variable 'elements' referenced before assignment".

(** The error raised after the loop. *)
Definition not_found (sel : string) : Exn :=
  mkExn NoSuchElementException ("Could not find element matching " ++ sel).

(** What the polling loop leaves behind. *)
Definition polled (sel : string) (p : Parent) (deadline : Z)
    (els : option (list Element)) (r : Result Element) (d : list Event) : Prop :=
  forallb loop_event d = true /\
  (exists o, steps (deadline_step deadline) d false = Some o) /\
  (exists st,
      steps (chain_step (plan_of sel) (value_of sel) p) d ([], cand els) = Some st) /\
  (exists t, last_time d None = Some t
             /\ ((deadline <= t)%Z <-> r = Err (not_found sel))) /\
  match r with
  | Ok e =>
      exists pre last, d = (pre ++ [last])%list /\ passes last = Some e
                       /\ forallb no_pass pre = true
  | Err x =>
      forallb no_pass d = true /\ (x = not_found sel \/ x = unbound_elements)
  end.

(** The whole call: the start time is read once, the implicit wait is
    switched off, and the loop polls against [start + wait * 1000]. *)
Definition resolved (sel : string) (parent : option Element) (wait : Z)
    (r : Result Element) (d : list Event) : Prop :=
  exists start polls,
    d = Ev TimeTime start :: Ev (ImplicitlyWait 0) tt :: polls /\
    polled sel (scope parent) (start + wait * 1000) None r polls.

(** The selector takes one of the two prefixed branches. *)
Definition prefixed (sel : string) : bool :=
  Py.startswith "#" sel || Py.startswith "." sel.

(** *** The run of the polling loop, round by round *)

(** The strategy a selector commands first. *)
Definition first_by (sel : string) : By :=
  if Py.startswith "#" sel then ById
  else if Py.startswith "." sel then ByClassName
  else ByTagName.

(** One pass through the strategies [fs] on the value [v], rooted at [p]:
    each strategy is looked up in turn; the pass ends on the first answer
    that is not empty, or when the strategies are used up.  The two lists
    are what the local variable [elements] holds before and after: an
    answer assigns it, a lookup that raises leaves it as it was. *)
Inductive chain (p : Parent) (v : string)
  : list By -> option (list Element) -> list Event
    -> option (list Element) -> Prop :=
| chain_done els : chain p v [] els [] els
| chain_won f fs els l :
    nonempty l = true ->
    chain p v (f :: fs) els [Ev (FindElements f p v) (Answer l)] (Some l)
| chain_empty f fs els d els' :
    chain p v fs (Some []) d els' ->
    chain p v (f :: fs) els (Ev (FindElements f p v) (Answer []) :: d) els'
| chain_raised f fs els msg d els' :
    chain p v fs els d els' ->
    chain p v (f :: fs) els (Ev (FindElements f p v) (NoSuchElement msg) :: d) els'.

(** One turn of the loop body.  A selector with a prefix gets one lookup;
    when it raises, the turn is over and [elements] is as before; when it
    answers, the answer is scanned.  A selector without prefix gets the
    pass through the five strategies, and what [elements] holds after it is
    scanned; if it holds nothing yet, reading it raises.  The result is the
    new value of [elements] and the element found, if any. *)
Inductive attempted (sel : string) (p : Parent) (els : option (list Element))
  : list Event -> Result (option (list Element) * option Element) -> Prop :=
| attempted_raised msg :
    prefixed sel = true ->
    attempted sel p els
      [Ev (FindElements (first_by sel) p (value_of sel)) (NoSuchElement msg)]
      (Ok (els, None))
| attempted_answered l ds found :
    prefixed sel = true ->
    scan l ds found ->
    attempted sel p els
      (Ev (FindElements (first_by sel) p (value_of sel)) (Answer l) :: ds)
      (Ok (Some l, found))
| attempted_chain dl l ds found :
    prefixed sel = false ->
    chain p sel funcs els dl (Some l) ->
    scan l ds found ->
    attempted sel p els (dl ++ ds)%list (Ok (Some l, found))
| attempted_unbound dl :
    prefixed sel = false ->
    chain p sel funcs els dl None ->
    attempted sel p els dl (Err unbound_elements).

(** The loop: a reading that is not below the deadline ends it with the
    not-found error; a reading below the deadline is followed by one turn
    of the body, which returns the element it found, raises, or leaves the
    loop to go on. *)
Inductive polling (sel : string) (p : Parent) (deadline : Z)
  : option (list Element) -> list Event -> Result Element -> Prop :=
| polling_over els t :
    (deadline <= t)%Z ->
    polling sel p deadline els [Ev TimeTime t] (Err (not_found sel))
| polling_found els t da els' e :
    (t < deadline)%Z ->
    attempted sel p els da (Ok (els', Some e)) ->
    polling sel p deadline els (Ev TimeTime t :: da) (Ok e)
| polling_raised els t da x :
    (t < deadline)%Z ->
    attempted sel p els da (Err x) ->
    polling sel p deadline els (Ev TimeTime t :: da) (Err x)
| polling_again els t da els' d r :
    (t < deadline)%Z ->
    attempted sel p els da (Ok (els', None)) ->
    polling sel p deadline els' d r ->
    polling sel p deadline els (Ev TimeTime t :: da ++ d)%list r.

(** *** Claim C1: time *)

(** One attempt at the resolution, seen from outside: it starts with the
    lookup the selector commands first, rooted at the scope, and asks
    nothing but lookups and the reads of the hidden-input test. *)
Definition one_attempt (sel : string) (p : Parent) (da : list Event) : Prop :=
  exists r rest,
    da = Ev (FindElements (first_by sel) p (value_of sel)) r :: rest /\
    forallb is_lookup rest = true.

(** What an attempt found: [e], when its last answer lets [e] through the
    hidden-input test and no answer before did; nothing, when no answer
    lets an element through. *)
Definition yields (da : list Event) (found : option Element) : Prop :=
  match found with
  | Some e =>
      exists pre last, da = (pre ++ [last])%list /\ passes last = Some e
                       /\ forallb no_pass pre = true
  | None => forallb no_pass da = true
  end.

(** The rounds of the loop against [deadline].  A reading that is not
    below the deadline is the last event, and the result is the not-found
    error naming the selector.  A reading below the deadline is followed by
    one attempt, at once; if the attempt yields an element the loop returns
    it and asks nothing more; if not, the next round follows at once. *)
Inductive rounds (sel : string) (p : Parent) (deadline : Z)
  : list Event -> Result Element -> Prop :=
| rounds_over t :
    (deadline <= t)%Z ->
    rounds sel p deadline [Ev TimeTime t] (Err (not_found sel))
| rounds_found t da e :
    (t < deadline)%Z ->
    one_attempt sel p da ->
    yields da (Some e) ->
    rounds sel p deadline (Ev TimeTime t :: da) (Ok e)
| rounds_unbound t da :
    (t < deadline)%Z ->
    one_attempt sel p da ->
    yields da None ->
    rounds sel p deadline (Ev TimeTime t :: da) (Err unbound_elements)
| rounds_again t da d r :
    (t < deadline)%Z ->
    one_attempt sel p da ->
    yields da None ->
    rounds sel p deadline d r ->
    rounds sel p deadline (Ev TimeTime t :: da ++ d)%list r.

(** What [_get_element] promises about time (claim C1): the start time is
    read once and fixes the deadline [start + wait * 1000]; the implicit
    wait is switched off; then come the rounds of the loop, in which
    nothing sleeps. *)
Definition within_deadline (sel : string) (parent : option Element) (wait : Z)
    (r : Result Element) (d : list Event) : Prop :=
  exists start polls,
    d = Ev TimeTime start :: Ev (ImplicitlyWait 0) tt :: polls /\
    rounds sel (scope parent) (start + wait * 1000) polls r /\
    forallb (fun e => negb (is_sleep e)) polls = true.

(** *** Claim C2: the order of the strategies *)

(** The lookups of one attempt that follows [plan]: the strategies are
    tried in the order of the plan, on [v], rooted at [p]; the first answer
    that is not empty is the last lookup; without such an answer every
    strategy of the plan is tried. *)
Inductive tried (p : Parent) (v : string) : list By -> list Event -> Prop :=
| tried_out : tried p v [] []
| tried_won f fs l :
    nonempty l = true ->
    tried p v (f :: fs) [Ev (FindElements f p v) (Answer l)]
| tried_next f fs r d :
    won r = false ->
    tried p v fs d ->
    tried p v (f :: fs) (Ev (FindElements f p v) r :: d).

(** The rounds of the loop, as far as lookups go: each clock reading but
    the one that ends the loop with the not-found error is followed by the
    lookups of one attempt that follows [plan], and then by reads on
    elements only. *)
Inductive planned (sel : string) (plan : list By) (v : string) (p : Parent)
  : list Event -> Result Element -> Prop :=
| planned_over t : planned sel plan v p [Ev TimeTime t] (Err (not_found sel))
| planned_last t dl dc r :
    tried p v plan dl ->
    forallb is_check dc = true ->
    r <> Err (not_found sel) ->
    planned sel plan v p (Ev TimeTime t :: dl ++ dc)%list r
| planned_again t dl dc d r :
    tried p v plan dl ->
    forallb is_check dc = true ->
    planned sel plan v p d r ->
    planned sel plan v p (Ev TimeTime t :: dl ++ dc ++ d)%list r.

(** What [_get_element] promises about lookups (claim C2).  For a selector
    starting with neither [#] nor [.], every attempt tries tag name, name,
    id, CSS selector, link text in this order on the selector itself, stops
    at the first non-empty answer, and otherwise goes through all five.
    For a selector starting with [#] or [.], every attempt makes one
    lookup, by id or by class name. *)
Definition follows_plan (sel : string) (parent : option Element)
    (r : Result Element) (d : list Event) : Prop :=
  exists start polls,
    d = Ev TimeTime start :: Ev (ImplicitlyWait 0) tt :: polls /\
    (Py.startswith "#" sel = false -> Py.startswith "." sel = false ->
     planned sel [ByTagName; ByName; ById; ByCssSelector; ByLinkText] sel
       (scope parent) polls r) /\
    (Py.startswith "#" sel = true ->
     planned sel [ById] (Py.replace "#" "" sel) (scope parent) polls r) /\
    (Py.startswith "#" sel = false -> Py.startswith "." sel = true ->
     planned sel [ByClassName] (Py.replace "." "" sel) (scope parent) polls r).

(** *** Claim C3: hidden inputs *)

(** What [_get_element] does with the elements it is answered (claim C3):
    after the start reading and the implicit wait come the turns of the
    loop as [polling] has them.  In each turn the list the lookups leave in
    [elements], the answer of the winning lookup when there is one, is
    scanned in the provider's order ([scan]): the elements passed over were
    each reported an [input] of type [hidden], and the first one not so
    reported is returned, at once; when all are hidden inputs the turn
    yields nothing and the loop goes on. *)
Definition sifts_hidden (sel : string) (parent : option Element) (wait : Z)
    (r : Result Element) (d : list Event) : Prop :=
  exists start polls,
    d = Ev TimeTime start :: Ev (ImplicitlyWait 0) tt :: polls /\
    polling sel (scope parent) (start + wait * 1000) None polls r.

(** In state [b] the environment reports [e] as an [input] of type [hidden]. *)
Definition hidden_input {B : Type} (handle : forall A : Type, envE A -> B -> A * B)
    (b : B) (e : Element) : Prop :=
  String.eqb (Py.lower (fst (handle string (TagName e) b))) "input" = true /\
  fst (handle (option string) (GetAttribute e "type") b) = Some "hidden".

Definition all_hidden {B : Type} (handle : forall A : Type, envE A -> B -> A * B)
    (l : list Element) : Prop :=
  forall e, In e l -> forall b, hidden_input handle b e.

(** Under [parent], all that matches [sel] are hidden inputs: each lookup
    the selector commands answers, in every state, and the elements it
    answers are reported as hidden inputs, in every state. *)
Definition only_hidden {B : Type} (handle : forall A : Type, envE A -> B -> A * B)
    (parent : Parent) (sel : string) : Prop :=
  forall b by_,
    In by_ (plan_of sel) ->
    exists l,
      fst (handle (Reply (list Element)) (FindElements by_ parent (value_of sel)) b)
      = Answer l /\
      all_hidden handle l.

(** The call fails with the not-found error, after a clock reading at or
    past the deadline. *)
Definition fails_after_deadline (sel : string) (wait : Z)
    (r : Result Element) (d : list Event) : Prop :=
  r = Err (not_found sel) /\
  exists start polls t,
    d = Ev TimeTime start :: Ev (ImplicitlyWait 0) tt :: polls /\
    last_time polls None = Some t /\ (start + wait * 1000 <= t)%Z.

(** *** What the asserts leave behind

    Each trace starts with the one-second sleep.  The asserts on an element
    then resolve it ([resolved], with the default wait of 10 seconds) and
    pass the resolver's error on; otherwise they read the actual value,
    compare, and on a mismatch read it again for the message. *)

Definition text_asserted (text sel : string) (r : Result unit) (d : list Event) : Prop :=
  exists dres rr tail,
    d = (Ev (TimeSleep 1000) tt :: dres ++ tail)%list /\
    resolved sel None default_wait rr dres /\
    match rr with
    | Err x => tail = [] /\ r = Err x
    | Ok e =>
        (exists actual,
            Py.contains text actual = true /\
            tail = [Ev (Text e) actual] /\ r = Ok tt) \/
        (exists actual shown,
            Py.contains text actual = false /\
            tail = [Ev (Text e) actual; Ev (Text e) shown] /\
            r = Err (mkExn GhostlyTestFailed (text ++ " not in " ++ shown)))
    end.

Definition element_asserted (sel : string) (r : Result unit) (d : list Event) : Prop :=
  exists dres rr,
    d = Ev (TimeSleep 1000) tt :: dres /\
    resolved sel None default_wait rr dres /\
    match rr with
    | Err x => r = Err x
    | Ok _ => r = Ok tt
    end.

Definition value_asserted (sel value : string) (r : Result unit) (d : list Event) : Prop :=
  exists dres rr tail,
    d = (Ev (TimeSleep 1000) tt :: dres ++ tail)%list /\
    resolved sel None default_wait rr dres /\
    match rr with
    | Err x => tail = [] /\ r = Err x
    | Ok e =>
        (tail = [Ev (GetAttribute e "value") (Some value)] /\ r = Ok tt) \/
        (exists actual shown,
            actual <> Some value /\
            tail = [Ev (GetAttribute e "value") actual;
                    Ev (GetAttribute e "value") shown] /\
            r = Err (mkExn GhostlyTestFailed (Py.str_opt shown ++ " != " ++ value)))
    end.

Definition title_asserted (value : string) (r : Result unit) (d : list Event) : Prop :=
  (d = [Ev (TimeSleep 1000) tt; Ev Title value] /\ r = Ok tt) \/
  (exists actual shown,
      actual <> value /\
      d = [Ev (TimeSleep 1000) tt; Ev Title actual; Ev Title shown] /\
      r = Err (mkExn GhostlyTestFailed ("title is " ++ shown ++ " not " ++ value))).

Definition url_asserted (url : string) (r : Result unit) (d : list Event) : Prop :=
  (d = [Ev (TimeSleep 1000) tt; Ev CurrentUrl url] /\ r = Ok tt) \/
  (exists actual shown,
      actual <> url /\
      d = [Ev (TimeSleep 1000) tt; Ev CurrentUrl actual; Ev CurrentUrl shown] /\
      r = Err (mkExn GhostlyTestFailed ("url is " ++ shown ++ " not " ++ url))).

(** Fuel that lets a resolution started from [b] with [wait] come to an end. *)
Definition enough {B : Type} (handle : forall A : Type, envE A -> B -> A * B)
    (rank : Z -> B -> nat) (wait : Z) (b : B) : nat :=
  S (rank (fst (handle Z TimeTime b) + wait * 1000)%Z b).

(** *** What [xpath_wait] leaves behind *)

(** The two timeout errors. *)
Definition not_selected (float_str : spec_float -> string) (xp : string)
    (timeout : Number) (attempts : nat) : Exn :=
  mkExn GhostlyTimeoutError
    ("Could not select xpath '" ++ xp ++ "' within "
       ++ Py.str_number float_str timeout ++ " seconds - attempted "
       ++ Py.str_nat attempts ++ " times.").

Definition not_visible (float_str : spec_float -> string) (xp : string)
    (timeout : Number) (attempts : nat) : Exn :=
  mkExn GhostlyTimeoutError
    ("Element selected via xpath '" ++ xp
       ++ "' but is not yet visible within "
       ++ Py.str_number float_str timeout ++ " seconds - attempted "
       ++ Py.str_nat attempts ++ " times.").

(** How a phase ends: it reached what it was waiting for, the deadline
    expired, or [time.sleep] refused the interval. *)
Inductive PhaseEnd :=
| Reached (e : Element)
| Expired
| Refused.

(** Phase 1 against the deadline [stop]: rounds of a clock reading below
    [stop], a selection that raises and a sleep of [sleep]; then either a
    reading that is not below [stop], or a reading below it and a selection
    that answers.  With a negative [sleep] the first selection that raises
    is the end: [time.sleep] refuses.  The number counts the selections. *)
Inductive exist_phase (xp : string) (stop : spec_float) (sleep : Z)
  : list Event -> nat -> PhaseEnd -> Prop :=
| exist_timeout t :
    Py.float_lt t stop = false ->
    exist_phase xp stop sleep [Ev Clock t] 0 Expired
| exist_found t e :
    Py.float_lt t stop = true ->
    exist_phase xp stop sleep
      [Ev Clock t; Ev (FindElementByXpath xp) (Answer e)] 1 (Reached e)
| exist_refused t msg :
    Py.float_lt t stop = true ->
    (sleep < 0)%Z ->
    exist_phase xp stop sleep
      [Ev Clock t; Ev (FindElementByXpath xp) (NoSuchElement msg)] 1 Refused
| exist_retry t msg d n r :
    Py.float_lt t stop = true ->
    (0 <= sleep)%Z ->
    exist_phase xp stop sleep d n r ->
    exist_phase xp stop sleep
      (Ev Clock t :: Ev (FindElementByXpath xp) (NoSuchElement msg)
         :: Ev (TimeSleep sleep) tt :: d)
      (S n) r.

(** Phase 2 against the same deadline: rounds of a reading below [stop], a
    visibility check that says no and a sleep of [sleep]; then a reading
    that is not below [stop], or a reading below it and a check that says
    yes. *)
Inductive visible_phase (e : Element) (stop : spec_float) (sleep : Z)
  : list Event -> nat -> PhaseEnd -> Prop :=
| visible_timeout t :
    Py.float_lt t stop = false ->
    visible_phase e stop sleep [Ev Clock t] 0 Expired
| visible_shown t :
    Py.float_lt t stop = true ->
    visible_phase e stop sleep [Ev Clock t; Ev (IsDisplayed e) true] 1 (Reached e)
| visible_refused t :
    Py.float_lt t stop = true ->
    (sleep < 0)%Z ->
    visible_phase e stop sleep [Ev Clock t; Ev (IsDisplayed e) false] 1 Refused
| visible_retry t d n r :
    Py.float_lt t stop = true ->
    (0 <= sleep)%Z ->
    visible_phase e stop sleep d n r ->
    visible_phase e stop sleep
      (Ev Clock t :: Ev (IsDisplayed e) false :: Ev (TimeSleep sleep) tt :: d)
      (S n) r.

(** The whole call: one reading fixes [stop = start + timeout] for both
    phases; phase 2 is there only when visibility is asked for. *)
Definition xpath_waited (py : Python) (float_str : spec_float -> string)
    (xp : string) (visible : bool) (timeout : Number) (sleep : Z)
    (r : Result Element) (d : list Event) : Prop :=
  exists start,
    match Py.to_float timeout with
    | None => d = [Ev Clock start] /\ r = Err (int_too_large py)
    | Some t =>
        let stop := Py.float_add start t in
        exists d1 n1 end1,
          exist_phase xp stop sleep d1 n1 end1 /\
          match end1 with
          | Expired =>
              d = Ev Clock start :: d1 /\
              r = Err (not_selected float_str xp timeout n1)
          | Refused => d = Ev Clock start :: d1 /\ r = Err (negative_sleep py)
          | Reached e =>
              if visible then
                exists d2 n2 end2,
                  visible_phase e stop sleep d2 n2 end2 /\
                  d = (Ev Clock start :: d1 ++ d2)%list /\
                  r = match end2 with
                      | Reached _ => Ok e
                      | Expired => Err (not_visible float_str xp timeout (n1 + n2))
                      | Refused => Err (negative_sleep py)
                      end
              else d = Ev Clock start :: d1 /\ r = Ok e
          end
    end.

(** The selections and visibility checks of a trace. *)
Definition is_query (e : Event) : bool :=
  is_xpath_query e || is_displayed_query e.

(** A selection that answered. *)
Definition is_selected (e : Event) : bool :=
  match e with
  | Ev op r =>
      match op in envE A return A -> bool with
      | FindElementByXpath _ => fun r =>
          match r with Answer _ => true | NoSuchElement _ => false end
      | _ => fun _ => false
      end r
  end.

(** A selection that raised, or a visibility check that said no. *)
Definition failed_query (e : Event) : bool :=
  match e with
  | Ev op r =>
      match op in envE A return A -> bool with
      | FindElementByXpath _ => fun r =>
          match r with Answer _ => false | NoSuchElement _ => true end
      | IsDisplayed _ => fun shown => negb shown
      | _ => fun _ => false
      end r
  end.

(** How a call of [xpath_wait] may fail.  Once the deadline has expired:
    with a [GhostlyTimeoutError] in one of two wordings, which carry the
    xpath, the timeout that was given, and the number of selections and
    checks made; the first wording is used when no selection answered, the
    second when one did.  Before that: with the error of [time.sleep], when
    the interval is negative, right after the first selection or check that
    failed; or with the [OverflowError] of [start + timeout], when the
    timeout is an int beyond the range of floats, right after the first
    reading. *)
Definition xpath_failed (py : Python) (float_str : spec_float -> string)
    (xp : string) (timeout : Number) (sleep : Z)
    (r : Result Element) (d : list Event) : Prop :=
  forall x, r = Err x ->
    (x = not_selected float_str xp timeout (List.length (filter is_query d)) /\
     filter is_selected d = [])
    \/
    (x = not_visible float_str xp timeout (List.length (filter is_query d)) /\
     filter is_selected d <> [])
    \/
    (x = negative_sleep py /\ (sleep < 0)%Z /\
     exists pre last, d = (pre ++ [last])%list /\ failed_query last = true /\
                      forallb (fun e => negb (failed_query e)) pre = true)
    \/
    (x = int_too_large py /\ Py.to_float timeout = None /\
     exists start, d = [Ev Clock start]).

(** The discipline of the sleeps: the state says whether the last event
    was a selection that raised or a check that said no.  Such an event
    must be followed by a sleep of [sleep], at once, and a sleep is admitted
    nowhere else. *)
Definition sleep_step (sleep : Z) (owed : bool) (e : Event) : option bool :=
  match ev_sleep e with
  | Some ms => if owed && (ms =? sleep)%Z then Some false else None
  | None => if owed then None else Some (failed_query e)
  end.

(** What [xpath_wait] does between attempts.  With an interval that is not
    negative: one sleep of the interval right after each selection or check
    that failed, and none elsewhere, so none before the first attempt and
    none after the attempt that succeeds.  With a negative interval: no
    sleep at all, and the first selection or check that fails ends the call
    with the error of [time.sleep]. *)
Definition sleeps_between (py : Python) (sleep : Z)
    (r : Result Element) (d : list Event) : Prop :=
  ((0 <= sleep)%Z -> steps (sleep_step sleep) d false = Some false) /\
  ((sleep < 0)%Z ->
     forallb (fun e => negb (is_sleep e)) d = true /\
     (forallb (fun e => negb (failed_query e)) d = true \/
      r = Err (negative_sleep py) /\
      exists pre last, d = (pre ++ [last])%list /\ failed_query last = true /\
                       forallb (fun e => negb (failed_query e)) pre = true)).

(** *** What [fill] leaves behind *)

(** [string.letters + string.digits], where [string.letters] exists *)
Definition alphabet : string := Py.letters ++ Py.digits.

(** The character [random.choice] returns when the generator picks [i]. *)
Definition picked (i : nat) : ascii :=
  match String.get (i mod String.length alphabet) alphabet with
  | Some c => c
  | None => "0"%char
  end.

Fixpoint token_of (picks : list nat) : string :=
  match picks with
  | [] => EmptyString
  | i :: rest => String (picked i) (token_of rest)
  end.

Definition draws (picks : list nat) : list Event :=
  map (fun i => Ev (RandomChoice (String.length alphabet)) i) picks.

(** The text typed for the value [v], as the program computes it. *)
Definition replaced (token v out : string) : Prop :=
  out = Py.replace "<random>" token v.

(** The text typed for the value [v], as the specification words it: the
    token stands where the placeholder stood.  That is, [v] is cut at its
    placeholders into pieces that hold none, and [out] is made of the same
    pieces with the token between them. *)
Definition substituted (token v out : string) : Prop :=
  exists pieces,
    Forall (fun piece => Py.contains "<random>" piece = false) pieces /\
    v = Py.join "<random>" pieces /\
    out = Py.join token pieces.

(** Filling the fields of [form], in order: each selector is resolved
    within the form, with the default wait, and the element found is sent a
    text that [typed] relates to the value; the first resolution that fails
    ends the call. *)
Inductive fields (typed : string -> string -> Prop) (form : Element)
  : list (string * string) -> list Event -> Result unit -> Prop :=
| fields_done : fields typed form [] [] (Ok tt)
| fields_fail k v rest dres x :
    resolved k (Some form) default_wait (Err x) dres ->
    fields typed form ((k, v) :: rest) dres (Err x)
| fields_next k v out rest dres e d r :
    resolved k (Some form) default_wait (Ok e) dres ->
    typed v out ->
    fields typed form rest d r ->
    fields typed form ((k, v) :: rest)
      (dres ++ Ev (SendKeys e out) tt :: d)%list r.

(** The whole call, where [string.letters] exists: twelve draws make the
    token, the form is resolved, the fields are filled. *)
Definition filled_with (typed : string -> string -> string -> Prop)
    (sel : string) (contents : list (list (string * string)))
    (r : Result Element) (d : list Event) : Prop :=
  exists picks dform rform dfields,
    List.length picks = 12%nat /\
    d = (draws picks ++ dform ++ dfields)%list /\
    resolved sel None default_wait rform dform /\
    match rform with
    | Err x => dfields = [] /\ r = Err x
    | Ok form =>
        exists rf,
          fields (typed (token_of picks)) form (List.concat contents) dfields rf /\
          r = match rf with Ok _ => Ok form | Err x => Err x end
    end.

Definition filled := filled_with substituted.

(** What is typed: one token of twelve alphanumeric characters, drawn once
    at the start of the call, stands for [<random>] in every text sent; the
    texts go out in the order of the fields, all of them when the call
    returns. *)
Definition one_token (contents : list (list (string * string)))
    (r : Result Element) (d : list Event) : Prop :=
  exists picks rest n,
    d = (draws picks ++ rest)%list /\
    forallb (fun e => negb (is_choice e)) rest = true /\
    String.length (token_of picks) = 12%nat /\
    forallb Py.is_alnum (list_ascii_of_string (token_of picks)) = true /\
    Forall2 (fun kv out => substituted (token_of picks) (snd kv) out)
      (firstn n (List.concat contents)) (keys_sent rest) /\
    (forall form, r = Ok form -> n = List.length (List.concat contents)).

(** *** Further observations, for the commands *)

Definition is_implicit_wait (e : Event) : bool :=
  match e with
  | Ev (ImplicitlyWait _) _ => true
  | _ => false
  end.

(** All the resolver ever asks: the time, the implicit wait, lookups and
    the reads of the hidden-input test. *)
Definition resolver_event (e : Event) : bool :=
  loop_event e || is_implicit_wait e.

Definition is_click (e : Event) : bool :=
  match e with
  | Ev (Click _) _ => true
  | Ev (ActionMoveClick _) _ => true
  | _ => false
  end.

Definition is_submit (e : Event) : bool :=
  match e with
  | Ev (Submit _) _ => true
  | _ => false
  end.

(** A lookup that raised. *)
Definition raised_find (e : Event) : bool :=
  match ev_find e with
  | Some (_, _, _, NoSuchElement _) => true
  | _ => false
  end.

(** A lookup, if [e] is one, is by id and its value holds no [#]. *)
Definition by_hashless_id (e : Event) : bool :=
  match ev_find e with
  | Some (b, _, v, _) => by_eqb b ById && negb (Py.contains "#" v)
  | None => true
  end.

(** [click]: the element is resolved, then clicked once; when the
    resolution fails its error comes through and nothing is clicked. *)
Definition clicked (sel : string) (r : Result unit) (d : list Event) : Prop :=
  exists dres rr,
    resolved sel None default_wait rr dres /\
    match rr with
    | Ok e => d = (dres ++ [Ev (Click e) tt])%list /\ r = Ok tt
    | Err x => d = dres /\ r = Err x
    end.

(** [submit].  Where [string.letters] exists the form is filled, then
    submitted once; when filling fails its error comes through and nothing
    is submitted.  Where it does not, the call raises before anything is
    asked. *)
Definition submitted (py : Python) (sel : string)
    (contents : list (list (string * string)))
    (r : Result unit) (d : list Event) : Prop :=
  match py with
  | Python3 => d = [] /\ r = Err no_letters
  | Python2 =>
      exists dfill rfill,
        filled sel contents rfill dfill /\
        match rfill with
        | Ok form => d = (dfill ++ [Ev (Submit form) tt])%list /\ r = Ok tt
        | Err x =>
            d = dfill /\ r = Err x /\
            forallb (fun e => negb (is_submit e)) d = true
        end
  end.

(** [xpath_click] with a numeric wait or none: one selection; when it
    raises, the driver's exception comes through and nothing else is asked;
    otherwise one click, through the action chain or on the element, and
    then the sleep if a wait is given.  A negative wait is refused by
    [time.sleep]: the click is made, nothing sleeps, and the error of
    [time.sleep] comes through. *)
Definition xpath_clicked (py : Python) (xp : string) (wait_after : option Z)
    (move_to : bool) (r : Result unit) (d : list Event) : Prop :=
  (exists msg,
      d = [Ev (FindElementByXpath xp) (NoSuchElement msg)] /\
      r = Err (mkExn NoSuchElementException msg)) \/
  (exists e,
      let click :=
        if move_to then Ev (ActionMoveClick e) tt else Ev (Click e) tt in
      match wait_after with
      | None =>
          d = [Ev (FindElementByXpath xp) (Answer e); click] /\ r = Ok tt
      | Some ms =>
          if (ms <? 0)%Z
          then d = [Ev (FindElementByXpath xp) (Answer e); click] /\
               r = Err (negative_sleep py)
          else d = [Ev (FindElementByXpath xp) (Answer e); click;
                    Ev (TimeSleep ms) tt] /\
               r = Ok tt
      end).

(** The values are typed as they stand; where [string.letters] does not
    exist nothing is typed at all, the call raising before any request. *)
Definition typed_plain (py : Python) (contents : list (list (string * string)))
    (r : Result Element) (d : list Event) : Prop :=
  match py with
  | Python3 => d = [] /\ r = Err no_letters
  | Python2 =>
      exists n,
        keys_sent d = map snd (firstn n (List.concat contents)) /\
        (forall form, r = Ok form -> n = List.length (List.concat contents))
  end.

(** When [UnboundLocalError] is what the resolver raised: the selector has
    no prefix, the loop read the clock once, and every lookup raised. *)
Definition unbound_in_first_attempt (sel : string)
    (r : Result Element) (d : list Event) : Prop :=
  r = Err unbound_elements ->
  prefixed sel = false /\
  exists start t da,
    d = Ev TimeTime start :: Ev (ImplicitlyWait 0) tt :: Ev TimeTime t :: da /\
    forallb raised_find da = true.

(** A read of the page's text, title or address. *)
Definition is_read (e : Event) : bool :=
  match e with
  | Ev (Text _) _ => true
  | Ev Title _ => true
  | Ev CurrentUrl _ => true
  | _ => false
  end.

(** All an assert ever asks: what the resolver asks, the sleep, and
    reads. *)
Definition observer_event (e : Event) : bool :=
  resolver_event e || is_sleep e || is_read e.

(** Every lookup rooted at [parent] raises, in every state. *)
Definition lookups_raise {B : Type} (handle : forall A : Type, envE A -> B -> A * B)
    (parent : Parent) : Prop :=
  forall b by_ v,
  exists msg,
    fst (handle (Reply (list Element)) (FindElements by_ parent v) b)
    = NoSuchElement msg.

(** A run that comes to an end. *)
Definition runs {B A : Type} (m : World B -> Outcome B A) (w : World B)
    (Q : Result A -> list Event -> World B -> Prop) : Prop :=
  ends False m w Q.

(** A run whose fuel is a parameter settles: from some fuel on it comes to
    an end, always the same. *)
Definition settles {B A : Type} (m : nat -> World B -> Outcome B A) (w : World B)
    (Q : Result A -> list Event -> World B -> Prop) : Prop :=
  exists fuel0,
    (forall fuel, (fuel0 <= fuel)%nat -> m fuel w = m fuel0 w) /\
    ends False (m fuel0) w Q.

(** ** Rules for [ends] *)

Section Rules.

Context {B : Type}.
Variable handle : forall A : Type, envE A -> B -> A * B.

Lemma ends_ret (cut : Prop) (A : Type) (a : A) (w : World B) Q :
  Q (Ok a) [] w -> ends cut (ret a) w Q.
Proof.
  intros H. unfold ends, ret. exists []. rewrite app_nil_r. auto.
Qed.

Lemma ends_raise (cut : Prop) (A : Type) c msg (w : World B)
    (Q : Result A -> list Event -> World B -> Prop) :
  Q (Err (mkExn c msg)) [] w -> ends cut (raise c msg) w Q.
Proof.
  intros H. unfold ends, raise. exists []. rewrite app_nil_r. auto.
Qed.

Lemma ends_throw (cut : Prop) (A : Type) x (w : World B)
    (Q : Result A -> list Event -> World B -> Prop) :
  Q (Err x) [] w -> ends cut (throw x) w Q.
Proof.
  intros H. unfold ends, throw. exists []. rewrite app_nil_r. auto.
Qed.

Lemma ends_call (cut : Prop) (A : Type) (op : envE A) (w : World B) Q :
  (forall r b, handle A op (env w) = (r, b) ->
     Q (Ok r) [Ev op r] (mkWorld b (trace w ++ [Ev op r])%list)) ->
  ends cut (call handle op) w Q.
Proof.
  intros H. unfold ends, call.
  destruct (handle A op (env w)) as [r b] eqn:E.
  exists [Ev op r]. split; [reflexivity | auto].
Qed.

Lemma ends_bind (cut : Prop) (A C : Type) (m : World B -> Outcome B A)
    (k : A -> World B -> Outcome B C) (w : World B) Q :
  ends cut m w
    (fun r d1 w1 =>
       match r with
       | Ok a => ends cut (k a) w1 (fun r2 d2 w2 => Q r2 (d1 ++ d2)%list w2)
       | Err e => Q (Err e) d1 w1
       end) ->
  ends cut (bind m k) w Q.
Proof.
  unfold ends at 1. unfold ends at 2. unfold bind.
  destruct (m w) as [a w1 | e w1 |]; auto.
  intros [d1 [E1 H]]. unfold ends in H.
  destruct (k a w1) as [c w2 | e w2 |]; auto.
  - destruct H as [d2 [E2 H]]. exists (d1 ++ d2)%list.
    rewrite E2, E1, app_assoc. auto.
  - destruct H as [d2 [E2 H]]. exists (d1 ++ d2)%list.
    rewrite E2, E1, app_assoc. auto.
Qed.

Lemma ends_try (cut : Prop) (A : Type) (m h : World B -> Outcome B A)
    (c : ExnClass) (w : World B) Q :
  ends cut m w
    (fun r d1 w1 =>
       match r with
       | Ok a => Q (Ok a) d1 w1
       | Err e =>
           if class_eqb (exn_class e) c
           then ends cut h w1 (fun r2 d2 w2 => Q r2 (d1 ++ d2)%list w2)
           else Q (Err e) d1 w1
       end) ->
  ends cut (try_except m c h) w Q.
Proof.
  unfold ends at 1. unfold ends at 2. unfold try_except.
  destruct (m w) as [a w1 | e w1 |]; auto.
  intros [d1 [E1 H]].
  destruct (class_eqb (exn_class e) c).
  - unfold ends in H.
    destruct (h w1) as [a w2 | e2 w2 |]; auto;
      destruct H as [d2 [E2 H]]; exists (d1 ++ d2)%list;
      rewrite E2, E1, app_assoc; auto.
  - exists d1. auto.
Qed.

Lemma ends_weaken (cut cut' : Prop) (A : Type) (m : World B -> Outcome B A)
    (w : World B) (Q Q' : Result A -> list Event -> World B -> Prop) :
  ends cut m w Q ->
  (cut -> cut') ->
  (forall r d w', trace w' = (trace w ++ d)%list -> Q r d w' -> Q' r d w') ->
  ends cut' m w Q'.
Proof.
  unfold ends. destruct (m w) as [a w1 | e w1 |]; auto.
  - intros [d [E H]] _ HQ. exists d. auto.
  - intros [d [E H]] _ HQ. exists d. auto.
Qed.

End Rules.

(** ** Facts about traces *)

Lemma steps_app (S : Type) (delta : S -> Event -> option S) a b s :
  steps delta (a ++ b)%list s =
  match steps delta a s with
  | Some s' => steps delta b s'
  | None => None
  end.
Proof.
  revert s. induction a as [| e a IH]; intros s; simpl; auto.
  destruct (delta s e); auto.
Qed.

Lemma last_time_app a b t :
  last_time (a ++ b)%list t = last_time b (last_time a t).
Proof.
  revert t. induction a as [| e a IH]; intros t; simpl; auto.
  destruct (ev_time e); auto.
Qed.

Lemma last_time_some d (t : option Z) t' :
  last_time d None = Some t' -> last_time d t = Some t'.
Proof.
  revert t. induction d as [| e d IH]; intros t; simpl.
  - discriminate.
  - destruct (ev_time e); auto.
Qed.

Lemma lookup_quiet e :
  is_lookup e = true -> ev_time e = None /\ is_sleep e = false.
Proof.
  destruct e as [A op r]. destruct op; simpl; try discriminate; auto.
Qed.

Lemma check_lookup e : is_check e = true -> is_lookup e = true.
Proof.
  destruct e as [A op r]. destruct op; simpl; try discriminate; auto.
Qed.

Lemma lookups_last_time d t :
  forallb is_lookup d = true -> last_time d t = t.
Proof.
  induction d as [| e d IH]; simpl; auto.
  intros H. apply andb_true_iff in H. destruct H as [He Hd].
  destruct (lookup_quiet e He) as [-> _]. auto.
Qed.

Lemma lookups_deadline deadline d :
  forallb is_lookup d = true ->
  steps (deadline_step deadline) d true = Some true.
Proof.
  induction d as [| e d IH]; simpl; auto.
  intros H. apply andb_true_iff in H. destruct H as [He Hd].
  unfold deadline_step at 1. destruct (lookup_quiet e He) as [-> _]. auto.
Qed.

Lemma lookups_no_sleep d :
  forallb is_lookup d = true ->
  forallb (fun e => negb (is_sleep e)) d = true.
Proof.
  induction d as [| e d IH]; simpl; auto.
  intros H. apply andb_true_iff in H. destruct H as [He Hd].
  destruct (lookup_quiet e He) as [_ ->]. simpl. auto.
Qed.

Lemma lookups_loop d :
  forallb is_lookup d = true -> forallb loop_event d = true.
Proof.
  induction d as [| e d IH]; simpl; auto.
  intros H. apply andb_true_iff in H. destruct H as [He Hd].
  unfold loop_event at 1. rewrite He, orb_true_r. simpl. auto.
Qed.

Lemma loop_event_quiet e :
  loop_event e = true ->
  is_sleep e = false /\ is_choice e = false /\ ev_keys e = None.
Proof.
  destruct e as [A op r]. destruct op; simpl; try discriminate; auto.
Qed.

Lemma loop_no_sleep d :
  forallb loop_event d = true ->
  forallb (fun e => negb (is_sleep e)) d = true.
Proof.
  induction d as [| e d IH]; simpl; auto.
  intros H. apply andb_true_iff in H. destruct H as [He Hd].
  destruct (loop_event_quiet e He) as [-> _]. simpl. auto.
Qed.

Lemma by_eqb_refl b : by_eqb b b = true.
Proof. destruct b; reflexivity. Qed.

Lemma parent_eqb_refl p : parent_eqb p p = true.
Proof. destruct p; simpl; auto using Nat.eqb_refl. Qed.

Lemma opt_str_eqb_true x s : opt_str_eqb x s = true -> x = Some s.
Proof.
  destruct x as [a |]; simpl; try discriminate.
  intros H. apply String.eqb_eq in H. congruence.
Qed.

Lemma existsb_In e l : In e l -> existsb (Nat.eqb e) l = true.
Proof.
  intros H. apply existsb_exists. exists e. split; auto. apply Nat.eqb_refl.
Qed.

Lemma chain_find plan v p f fs c r :
  chain_step plan v p (f :: fs, c) (Ev (FindElements f p v) r)
  = Some (if won r then [] else fs,
          match r with Answer l => l | NoSuchElement _ => c end).
Proof.
  unfold chain_step. cbn [ev_time ev_find].
  rewrite by_eqb_refl, parent_eqb_refl, String.eqb_refl. reflexivity.
Qed.

Lemma chain_find_last plan v p f c r :
  chain_step plan v p ([f], c) (Ev (FindElements f p v) r)
  = Some ([], match r with Answer l => l | NoSuchElement _ => c end).
Proof.
  rewrite chain_find. destruct (won r); reflexivity.
Qed.

Lemma deadline_relax deadline d s :
  steps (deadline_step deadline) d false = Some s ->
  exists s', steps (deadline_step deadline) d true = Some s'.
Proof.
  destruct d as [| e d]; simpl.
  - eauto.
  - unfold deadline_step at 1 3. destruct (ev_time e); eauto. discriminate.
Qed.

(** *** What a scan leaves in the trace *)

Lemma scan_lookups l d found : scan l d found -> forallb is_lookup d = true.
Proof.
  induction 1; simpl; auto.
Qed.

Lemma scan_from l d found e : scan l d found -> found = Some e -> In e l.
Proof.
  induction 1; intros E; try discriminate.
  - right. auto.
  - left. congruence.
  - left. congruence.
Qed.

Lemma scan_pass l d found :
  scan l d found ->
  match found with
  | Some e =>
      exists pre last, d = (pre ++ [last])%list /\ passes last = Some e
                       /\ forallb no_pass pre = true
  | None => forallb no_pass d = true
  end.
Proof.
  induction 1.
  - reflexivity.
  - assert (Hh : forallb no_pass
                   [Ev (TagName e) tg; Ev (GetAttribute e "type") (Some "hidden")] = true).
    { simpl. unfold no_pass. simpl. rewrite H. reflexivity. }
    destruct found as [x |].
    + destruct IHscan as [pre [last [-> [Hp Hn]]]].
      exists (Ev (TagName e) tg :: Ev (GetAttribute e "type") (Some "hidden") :: pre), last.
      split; [reflexivity |]. split; auto.
      change (forallb no_pass
                ([Ev (TagName e) tg; Ev (GetAttribute e "type") (Some "hidden")] ++ pre)%list = true).
      rewrite forallb_app, Hh. auto.
    + change (forallb no_pass
                ([Ev (TagName e) tg; Ev (GetAttribute e "type") (Some "hidden")] ++ d)%list = true).
      rewrite forallb_app, Hh. auto.
  - exists [], (Ev (TagName e) tg). simpl. rewrite H. auto.
  - exists [Ev (TagName e) tg], (Ev (GetAttribute e "type") ty).
    simpl. rewrite H0. unfold no_pass. simpl. rewrite H. auto.
Qed.

Lemma scan_chain plan value parent l d found :
  scan l d found ->
  forall fs c, incl l c ->
  steps (chain_step plan value parent) d (fs, c) = Some (fs, c).
Proof.
  induction 1; intros fs c Hc; auto;
    assert (He : existsb (Nat.eqb e) c = true)
      by (apply existsb_In, Hc; left; reflexivity).
  - simpl. rewrite He. simpl. rewrite He.
    apply IHscan. intros x Hx. apply Hc. right. auto.
  - simpl. rewrite He. reflexivity.
  - simpl. rewrite He. simpl. rewrite He. reflexivity.
Qed.

(** ** The resolver *)

Section Resolver.

Context {B : Type}.
Variable handle : forall A : Type, envE A -> B -> A * B.
Variable rank : Z -> B -> nat.

Let progress : Prop := clock_progress handle rank.

Lemma later_refl (w : World B) : later rank w w.
Proof. intros d. lia. Qed.

Lemma later_trans (w1 w2 w3 : World B) :
  later rank w1 w2 -> later rank w2 w3 -> later rank w1 w3.
Proof. intros H1 H2 d. specialize (H1 d). specialize (H2 d). lia. Qed.

Lemma later_call (A : Type) (op : envE A) (w : World B) r b tr :
  progress -> handle A op (env w) = (r, b) -> later rank w (mkWorld b tr).
Proof.
  intros [Hmono _] E d. simpl.
  specialize (Hmono A op d (env w)). rewrite E in Hmono. exact Hmono.
Qed.

Lemma first_shown_ends (cut : Prop) l : forall w,
  ends cut (first_shown handle l) w
    (fun r d w' =>
       (progress -> later rank w w') /\
       exists found, r = Ok found /\ scan l d found).
Proof.
  induction l as [| e rest IH]; intros w; cbn [first_shown].
  - apply ends_ret. split; [intros _; apply later_refl |].
    exists None. split; [reflexivity | constructor].
  - apply ends_bind, ends_call. intros tg b E.
    destruct (String.eqb (Py.lower tg) "input") eqn:Etag.
    + apply ends_bind, ends_call. intros ty b2 E2.
      destruct (opt_str_eqb ty "hidden") eqn:Ety.
      * eapply ends_weaken; [apply IH | exact (fun H => H) |].
        intros r d w' _ [Hl [found [-> Hs]]]. split.
        -- intros Hp. eapply later_trans; [eapply later_call; eauto |].
           eapply later_trans; [| apply Hl; auto].
           eapply (later_call _ _ (mkWorld b _)); eauto.
        -- exists found. split; auto.
           apply opt_str_eqb_true in Ety. subst ty.
           apply scan_hidden; auto.
      * apply ends_ret. split.
        -- intros Hp. eapply later_trans; [eapply later_call; eauto |].
           eapply (later_call _ _ (mkWorld b _)); eauto.
        -- exists (Some e). split; auto. apply scan_type; auto.
    + apply ends_ret. split.
      * intros Hp. eapply later_call; eauto.
      * exists (Some e). split; auto. apply scan_tag; auto.
Qed.

Lemma try_funcs_ends (cut : Prop) plan sel p fs : forall els w,
  ends cut (try_funcs handle fs p sel els) w
    (fun r d w' =>
       (progress -> later rank w w') /\
       forallb is_lookup d = true /\
       forallb no_pass d = true /\
       exists els', r = Ok els' /\
         steps (chain_step plan sel p) d (fs, cand els) = Some ([], cand els')).
Proof.
  induction fs as [| f fs' IH]; intros els w; cbn [try_funcs].
  - apply ends_ret. split; [intros _; apply later_refl |].
    repeat split; auto. exists els. auto.
  - apply ends_bind, ends_try. unfold find_elements.
    apply ends_bind, ends_bind, ends_call. intros r b E.
    assert (Hstep : forall c,
      chain_step plan sel p (f :: fs', c) (Ev (FindElements f p sel) r)
      = Some (if won r then [] else fs',
              match r with Answer l => l | NoSuchElement _ => c end)).
    { intros c. simpl. rewrite by_eqb_refl, parent_eqb_refl, String.eqb_refl.
      reflexivity. }
    destruct r as [l | msg]; cbn [reply].
    + apply ends_ret, ends_ret. cbv beta iota.
      destruct l as [| x l]; cbn [nonempty].
      * eapply ends_weaken; [apply (IH (Some [])) | exact (fun H => H) |].
        intros r d w' _ [Hl [Hk [Hn [els' [-> Hs]]]]].
        split; [| split; [| split]].
        -- intros Hp. eapply later_trans; [eapply later_call; eauto | auto].
        -- simpl. auto.
        -- simpl. auto.
        -- exists els'. split; auto.
           cbn [app steps]. rewrite Hstep. exact Hs.
      * apply ends_ret.
        split; [| split; [| split]].
        -- intros Hp. eapply later_call; eauto.
        -- reflexivity.
        -- reflexivity.
        -- exists (Some (x :: l)). split; auto.
           cbn [app steps]. rewrite Hstep. reflexivity.
    + apply ends_raise. cbv beta iota. cbn [exn_class class_eqb].
      apply ends_ret. cbv beta iota.
      eapply ends_weaken; [apply (IH els) | exact (fun H => H) |].
      intros r d w' _ [Hl [Hk [Hn [els' [-> Hs]]]]].
      split; [| split; [| split]].
      * intros Hp. eapply later_trans; [eapply later_call; eauto | auto].
      * simpl. auto.
      * simpl. auto.
      * exists els'. split; auto.
        cbn [app steps]. rewrite Hstep. exact Hs.
Qed.

(** The end of the [try] body: [if elements:] and the scan. *)
Lemma scan_tail_ends (cut : Prop) (els' : option (list Element)) w :
  ends cut
    (bind (read_local "elements" els')
       (fun l =>
          if nonempty l
          then bind (first_shown handle l) (fun found => ret (els', found))
          else ret (els', None)))
    w
    (fun r d w' =>
       (progress -> later rank w w') /\
       forallb is_lookup d = true /\
       (forall plan v p fs,
           steps (chain_step plan v p) d (fs, cand els') = Some (fs, cand els')) /\
       match r with
       | Ok (e2, found) =>
           e2 = els' /\
           match found with
           | Some e =>
               exists pre last, d = (pre ++ [last])%list /\ passes last = Some e
                                /\ forallb no_pass pre = true
           | None => forallb no_pass d = true
           end
       | Err x => x = unbound_elements /\ d = []
       end).
Proof.
  apply ends_bind. destruct els' as [l |]; cbn [read_local].
  - apply ends_ret. cbv beta iota. destruct l as [| x l]; cbn [nonempty].
    + apply ends_ret. split; [intros _; apply later_refl |].
      repeat split; auto.
    + apply ends_bind.
      eapply ends_weaken; [apply first_shown_ends | exact (fun H => H) |].
      intros r d w' _ [Hl [found [-> Hs]]]. cbv beta iota.
      apply ends_ret. rewrite !app_nil_r. cbn [app].
      split; [auto |]. split; [eapply scan_lookups; eauto |].
      split.
      * intros plan v p fs. eapply scan_chain; eauto. apply incl_refl.
      * split; auto. apply (scan_pass _ _ _ Hs).
  - apply ends_raise. split; [intros _; apply later_refl |].
    repeat split; auto.
Qed.

Lemma attempt_ends (cut : Prop) sel p els w :
  ends cut (attempt handle sel p els) w
    (fun r d w' =>
       (progress -> later rank w w') /\
       forallb is_lookup d = true /\
       (exists c,
           steps (chain_step (plan_of sel) (value_of sel) p) d
             (plan_of sel, cand els) = Some ([], c)
           /\ forall els' found, r = Ok (els', found) -> c = cand els') /\
       match r with
       | Ok (_, Some e) =>
           exists pre last, d = (pre ++ [last])%list /\ passes last = Some e
                            /\ forallb no_pass pre = true
       | Ok (_, None) => forallb no_pass d = true
       | Err x => x = unbound_elements /\ forallb no_pass d = true
       end).
Proof.
  unfold attempt, plan_of, value_of.
  apply ends_try, ends_bind.
  destruct (Py.startswith "#" sel) eqn:Hhash;
    [| destruct (Py.startswith "." sel) eqn:Hdot].
  - (* #id *)
    unfold find_elements. apply ends_bind, ends_bind, ends_call. intros r b E.
    destruct r as [l | msg]; cbn [reply].
    + apply ends_ret, ends_ret. cbv beta iota.
      eapply ends_weaken; [apply scan_tail_ends | exact (fun H => H) |].
      intros r d w' _ [Hl [Hk [Hc Hr]]]. cbn [app].
      assert (Hch : steps (chain_step [ById] (Py.replace "#" "" sel) p)
                (Ev (FindElements ById p (Py.replace "#" "" sel)) (Answer l) :: d)
                ([ById], cand els) = Some ([], l)).
      { cbn [steps]. rewrite chain_find_last.
        apply (Hc [ById] (Py.replace "#" "" sel) p []). }
      destruct r as [[e2 found] | x].
      * destruct Hr as [-> Hr].
        assert (Hrest :
          (progress -> later rank w w') /\
          forallb is_lookup
            (Ev (FindElements ById p (Py.replace "#" "" sel)) (Answer l) :: d) = true /\
          (exists c,
              steps (chain_step [ById] (Py.replace "#" "" sel) p)
                (Ev (FindElements ById p (Py.replace "#" "" sel)) (Answer l) :: d)
                ([ById], cand els) = Some ([], c)
              /\ forall els' found0,
                  @Ok (option (list Element) * option Element) (Some l, found)
                  = Ok (els', found0) -> c = cand els')).
        { split; [| split].
          - intros Hp. eapply later_trans; [eapply later_call; eauto | auto].
          - simpl. auto.
          - exists l. split; auto. intros els' f0 Heq. inversion Heq. reflexivity. }
        destruct Hrest as [H1 [H2 H3]].
        split; [exact H1 |]. split; [exact H2 |]. split; [exact H3 |].
        destruct found as [e |].
        -- destruct Hr as [pre [last [-> [Hp Hn]]]].
           exists (Ev (FindElements ById p (Py.replace "#" "" sel)) (Answer l) :: pre), last.
           split; [reflexivity |]. split; auto.
        -- simpl. auto.
      * destruct Hr as [-> ->]. cbn [exn_class unbound_elements class_eqb].
        split; [intros Hp; eapply later_trans; [eapply later_call; eauto | auto] |].
        split; [reflexivity |]. split; [| split; reflexivity].
        exists l. split; [exact Hch | intros ? ? Heq; discriminate Heq].
    + apply ends_raise. cbv beta iota. cbn [exn_class class_eqb].
      apply ends_ret. rewrite app_nil_r.
      split; [intros Hp; eapply later_call; eauto |].
      split; [reflexivity |]. split; [| reflexivity].
      exists (cand els). split.
      * cbn [app steps]. rewrite chain_find_last. reflexivity.
      * intros els' f0 Heq. inversion Heq. reflexivity.
  - (* .class *)
    unfold find_elements. apply ends_bind, ends_bind, ends_call. intros r b E.
    destruct r as [l | msg]; cbn [reply].
    + apply ends_ret, ends_ret. cbv beta iota.
      eapply ends_weaken; [apply scan_tail_ends | exact (fun H => H) |].
      intros r d w' _ [Hl [Hk [Hc Hr]]]. cbn [app].
      assert (Hch : steps (chain_step [ByClassName] (Py.replace "." "" sel) p)
                (Ev (FindElements ByClassName p (Py.replace "." "" sel)) (Answer l) :: d)
                ([ByClassName], cand els) = Some ([], l)).
      { cbn [steps]. rewrite chain_find_last.
        apply (Hc [ByClassName] (Py.replace "." "" sel) p []). }
      destruct r as [[e2 found] | x].
      * destruct Hr as [-> Hr].
        split; [intros Hp; eapply later_trans; [eapply later_call; eauto | auto] |].
        split; [simpl; auto |].
        split; [exists l; split; [exact Hch | intros ? ? Heq; inversion Heq; reflexivity] |].
        destruct found as [e |].
        -- destruct Hr as [pre [last [-> [Hp Hn]]]].
           exists (Ev (FindElements ByClassName p (Py.replace "." "" sel)) (Answer l) :: pre), last.
           split; [reflexivity |]. split; auto.
        -- simpl. auto.
      * destruct Hr as [-> ->]. cbn [exn_class unbound_elements class_eqb].
        split; [intros Hp; eapply later_trans; [eapply later_call; eauto | auto] |].
        split; [reflexivity |]. split; [| split; reflexivity].
        exists l. split; [exact Hch | intros ? ? Heq; discriminate Heq].
    + apply ends_raise. cbv beta iota. cbn [exn_class class_eqb].
      apply ends_ret. rewrite app_nil_r.
      split; [intros Hp; eapply later_call; eauto |].
      split; [reflexivity |]. split; [| reflexivity].
      exists (cand els). split.
      * cbn [app steps]. rewrite chain_find_last. reflexivity.
      * intros els' f0 Heq. inversion Heq. reflexivity.
  - (* the fallback chain *)
    eapply ends_weaken; [apply (try_funcs_ends cut funcs sel p funcs els) | exact (fun H => H) |].
    intros r d w1 _ [Hl [Hk [Hn [els' [-> Hs]]]]]. cbv beta iota.
    eapply ends_weaken; [apply scan_tail_ends | exact (fun H => H) |].
    intros r d2 w' _ [Hl2 [Hk2 [Hc Hr]]].
    assert (Hch : steps (chain_step funcs sel p) (d ++ d2)%list (funcs, cand els)
                  = Some ([], cand els')).
    { rewrite steps_app, Hs. apply Hc. }
    destruct r as [[e2 found] | x].
    + destruct Hr as [-> Hr].
      split; [intros Hp; eapply later_trans; eauto |].
      split; [rewrite forallb_app, Hk, Hk2; reflexivity |].
      split; [exists (cand els'); split;
              [exact Hch | intros ? ? Heq; inversion Heq; reflexivity] |].
      destruct found as [e |].
      * destruct Hr as [pre [last [-> [Hp Hn2]]]].
        exists (d ++ pre)%list, last. rewrite app_assoc.
        split; [reflexivity |]. split; auto.
        rewrite forallb_app, Hn, Hn2. reflexivity.
      * rewrite forallb_app, Hn, Hr. reflexivity.
    + destruct Hr as [-> ->]. cbn [exn_class unbound_elements class_eqb].
      split; [intros Hp; eapply later_trans; eauto |].
      split; [rewrite forallb_app, Hk; reflexivity |].
      split; [exists (cand els'); split;
              [exact Hch | intros ? ? Heq; discriminate Heq] |].
      split; [reflexivity |]. rewrite forallb_app, Hn. reflexivity.
Qed.

Lemma poll_ends sel p deadline fuel : forall els w,
  ends (progress -> (fuel <= rank deadline (env w))%nat)
    (poll handle fuel sel p deadline els) w
    (fun r d w' => (progress -> later rank w w') /\ polled sel p deadline els r d).
Proof.
  induction fuel as [| fuel IH]; intros els w; cbn [poll].
  - unfold ends, out_of_fuel. intros _. lia.
  - apply ends_bind. unfold milli_now. apply ends_call. intros t b E.
    cbv beta iota.
    assert (Hclock : ev_time (Ev TimeTime t) = Some t) by reflexivity.
    destruct (t <? deadline)%Z eqn:Ht.
    + apply ends_bind.
      eapply ends_weaken; [apply attempt_ends | exact (fun H => H) |].
      intros r d w1 _ [Hl [Hk [[c [Hc Hcc]] Hr]]].
      assert (Hd : steps (deadline_step deadline) (Ev TimeTime t :: d) false
                   = Some true).
      { cbn [steps]. unfold deadline_step at 1. rewrite Hclock, Ht.
        apply lookups_deadline. exact Hk. }
      assert (Hlt : last_time (Ev TimeTime t :: d) None = Some t).
      { cbn [last_time]. rewrite Hclock. apply lookups_last_time. exact Hk. }
      assert (Hch : steps (chain_step (plan_of sel) (value_of sel) p)
                      (Ev TimeTime t :: d) ([], cand els) = Some ([], c)).
      { cbn [steps]. unfold chain_step at 1. rewrite Hclock. exact Hc. }
      assert (Hns : forallb loop_event (Ev TimeTime t :: d) = true).
      { cbn [forallb]. rewrite (lookups_loop d Hk). reflexivity. }
      assert (Hw1 : progress -> later rank w w1).
      { intros Hp. eapply later_trans; [eapply later_call; eauto | auto]. }
      destruct r as [[els' found] | x]; cbv beta iota.
      * destruct found as [e |].
        -- apply ends_ret. rewrite app_nil_r. cbn [app].
           split; [exact Hw1 |]. unfold polled.
           split; [exact Hns |]. split; [eauto |]. split; [eauto |].
           split.
           ++ exists t. split; [exact Hlt |].
              apply Z.ltb_lt in Ht. split; [lia | discriminate].
           ++ destruct Hr as [pre [last [-> [Hp Hn]]]].
              exists (Ev TimeTime t :: pre), last.
              split; [reflexivity |]. split; auto.
        -- eapply ends_weaken; [apply (IH els') | |].
           ++ intros Hcut Hp. specialize (Hcut Hp).
              pose proof (proj2 Hp deadline (env w)) as Hstrict.
              rewrite E in Hstrict. cbn [fst snd] in Hstrict.
              apply Z.ltb_lt in Ht. specialize (Hstrict Ht).
              pose proof (Hl Hp deadline) as H2. cbn [env] in H2. lia.
           ++ intros r d2 w2 _ [Hl2 Hq]. cbn [app].
              split; [intros Hp; eapply later_trans; eauto |].
              destruct Hq as [Q1 [[o Q2] [[st Q3] [[t2 [Q4 Q5]] Q6]]]].
              rewrite (Hcc els' None eq_refl) in Hch.
              change (Ev TimeTime t :: d ++ d2)%list
                with ((Ev TimeTime t :: d) ++ d2)%list.
              unfold polled. split; [| split; [| split; [| split]]].
              ** rewrite forallb_app, Hns, Q1. reflexivity.
              ** rewrite steps_app, Hd. eapply deadline_relax; eauto.
              ** rewrite steps_app, Hch. eauto.
              ** exists t2. rewrite last_time_app, Hlt.
                 split; [apply last_time_some; exact Q4 | exact Q5].
              ** assert (Hnp : forallb no_pass (Ev TimeTime t :: d) = true).
                 { cbn [forallb]. rewrite Hr. reflexivity. }
                 destruct r as [e | x].
                 --- destruct Q6 as [pre [last [-> [Hp Hn]]]].
                     exists ((Ev TimeTime t :: d) ++ pre)%list, last.
                     rewrite app_assoc. split; [reflexivity |]. split; auto.
                     rewrite forallb_app, Hnp, Hn. reflexivity.
                 --- destruct Q6 as [Hn Hx]. split; auto.
                     rewrite forallb_app, Hnp, Hn. reflexivity.
      * destruct Hr as [-> Hn]. cbn [app].
        split; [exact Hw1 |]. unfold polled.
        split; [exact Hns |]. split; [eauto |]. split; [eauto |].
        split.
        -- exists t. split; [exact Hlt |].
           apply Z.ltb_lt in Ht. split; [lia | discriminate].
        -- split; [| right; reflexivity].
           cbn [forallb]. rewrite Hn. reflexivity.
    + apply ends_raise. rewrite app_nil_r.
      split; [intros Hp; eapply later_call; eauto |].
      unfold polled. cbn [steps last_time forallb].
      unfold deadline_step, chain_step. rewrite Hclock.
      split; [reflexivity |]. split; [eauto |]. split; [eauto |].
      split.
      * exists t. split; auto. apply Z.ltb_ge in Ht. split; auto.
      * split; [reflexivity | left; reflexivity].
Qed.

Lemma get_element_ends fuel sel parent wait w :
  ends (progress ->
        (fuel <= rank (fst (handle Z TimeTime (env w)) + wait * 1000) (env w))%nat)
    (_get_element handle fuel sel parent wait) w
    (fun r d w' => (progress -> later rank w w') /\ resolved sel parent wait r d).
Proof.
  unfold _get_element. apply ends_bind. unfold milli_now.
  apply ends_call. intros start b E. cbv beta iota.
  apply ends_bind, ends_call. intros [] b2 E2. cbv beta iota.
  eapply ends_weaken; [apply poll_ends | |].
  - intros Hcut Hp. specialize (Hcut Hp). rewrite E. cbn [fst env] in *.
    pose proof (proj1 Hp _ TimeTime (start + wait * 1000)%Z (env w)) as H1.
    pose proof (proj1 Hp _ (ImplicitlyWait 0) (start + wait * 1000)%Z b) as H2.
    rewrite E in H1. rewrite E2 in H2. cbn [snd] in *. lia.
  - intros r d w' _ [Hl Hq]. cbn [app]. split.
    + intros Hp. eapply later_trans; [eapply later_call; eauto |].
      eapply later_trans; [| apply Hl; exact Hp].
      eapply (later_call _ _ (mkWorld b _)); eauto.
    + exists start, d. split; [reflexivity | exact Hq].
Qed.

(** With progress, fuel beyond the rank of the deadline is enough. *)
Lemma get_element_runs sel parent wait w :
  progress ->
  forall fuel,
    (S (rank (fst (handle Z TimeTime (env w)) + wait * 1000) (env w)) <= fuel)%nat ->
    runs (_get_element handle fuel sel parent wait) w
      (fun r d w' => later rank w w' /\ resolved sel parent wait r d).
Proof.
  intros Hp fuel Hf. unfold runs.
  eapply ends_weaken; [apply get_element_ends | |].
  - intros Hcut. specialize (Hcut Hp). lia.
  - intros r d w' _ [Hl Hq]. split; auto.
Qed.

End Resolver.

(** ** The example browser keeps time *)

Lemma toy_progress (p : Toy.Page) : clock_progress (Toy.handle p) Toy.rank.
Proof.
  split.
  - intros A op d b. destruct op; unfold Toy.rank; simpl; lia.
  - intros d b. unfold Toy.rank. simpl. lia.
Qed.

(** ** The run of the resolver, round by round *)

(** Two facts about one run hold together. *)
Lemma ends_and (B A : Type) (cut : Prop) (m : World B -> Outcome B A) w
    (Q1 Q2 : Result A -> list Event -> World B -> Prop) :
  ends cut m w Q1 -> ends True m w Q2 ->
  ends cut m w (fun r d w' => Q1 r d w' /\ Q2 r d w').
Proof.
  unfold ends. destruct (m w) as [a w1 | e w1 |]; auto.
  - intros [d1 [E1 H1]] [d2 [E2 H2]]. exists d1. split; auto. split; auto.
    rewrite E1 in E2. apply app_inv_head in E2. subst d2. exact H2.
  - intros [d1 [E1 H1]] [d2 [E2 H2]]. exists d1. split; auto. split; auto.
    rewrite E1 in E2. apply app_inv_head in E2. subst d2. exact H2.
Qed.

Section Filtering.

Context {B : Type}.
Variable handle : forall A : Type, envE A -> B -> A * B.

Lemma try_funcs_chain (cut : Prop) sel p fs : forall els w,
  ends cut (try_funcs handle fs p sel els) w
    (fun r d _ => exists els', r = Ok els' /\ chain p sel fs els d els').
Proof.
  induction fs as [| f fs' IH]; intros els w; cbn [try_funcs].
  - apply ends_ret. exists els. split; [reflexivity | constructor].
  - apply ends_bind, ends_try. unfold find_elements.
    apply ends_bind, ends_bind, ends_call. intros r b E.
    destruct r as [l | msg]; cbn [reply].
    + apply ends_ret, ends_ret. cbv beta iota.
      destruct l as [| x l]; cbn [nonempty].
      * eapply ends_weaken; [apply (IH (Some [])) | exact (fun H => H) |].
        intros r d w' _ [els' [-> Hc]]. exists els'. split; [reflexivity |].
        cbn [app]. apply chain_empty. exact Hc.
      * apply ends_ret. exists (Some (x :: l)). split; [reflexivity |].
        cbn [app]. apply chain_won. reflexivity.
    + apply ends_raise. cbv beta iota. cbn [exn_class class_eqb].
      apply ends_ret. cbv beta iota.
      eapply ends_weaken; [apply (IH els) | exact (fun H => H) |].
      intros r d w' _ [els' [-> Hc]]. exists els'. split; [reflexivity |].
      cbn [app]. apply chain_raised. exact Hc.
Qed.

(** The end of the [try] body: [if elements:] and the scan. *)
Lemma scan_tail_scans (cut : Prop) (els' : option (list Element)) w :
  ends cut
    (bind (read_local "elements" els')
       (fun l =>
          if nonempty l
          then bind (first_shown handle l) (fun found => ret (els', found))
          else ret (els', None)))
    w
    (fun r d _ =>
       match els' with
       | Some l => exists found, r = Ok (els', found) /\ scan l d found
       | None => r = Err unbound_elements /\ d = []
       end).
Proof.
  apply ends_bind. destruct els' as [l |]; cbn [read_local].
  - apply ends_ret. cbv beta iota. destruct l as [| x l]; cbn [nonempty].
    + apply ends_ret. exists None. split; [reflexivity | constructor].
    + apply ends_bind.
      eapply ends_weaken;
        [apply (first_shown_ends handle (fun _ _ => 0%nat)) | exact (fun H => H) |].
      intros r d w' _ [_ [found [-> Hs]]]. cbv beta iota.
      apply ends_ret. rewrite !app_nil_r. cbn [app].
      exists found. auto.
  - apply ends_raise. split; reflexivity.
Qed.

Lemma attempt_attempted (cut : Prop) sel p els w :
  ends cut (attempt handle sel p els) w (fun r d _ => attempted sel p els d r).
Proof.
  unfold attempt. apply ends_try, ends_bind.
  destruct (Py.startswith "#" sel) eqn:Hhash;
    [| destruct (Py.startswith "." sel) eqn:Hdot].
  - assert (Hp : prefixed sel = true) by (unfold prefixed; rewrite Hhash; reflexivity).
    assert (Hf : first_by sel = ById) by (unfold first_by; rewrite Hhash; reflexivity).
    assert (Hv : value_of sel = Py.replace "#" "" sel)
      by (unfold value_of; rewrite Hhash; reflexivity).
    unfold find_elements. apply ends_bind, ends_bind, ends_call. intros r b E.
    destruct r as [l | msg]; cbn [reply].
    + apply ends_ret, ends_ret. cbv beta iota.
      eapply ends_weaken; [apply scan_tail_scans | exact (fun H => H) |].
      intros r d w' _ [found [-> Hs]]. cbn [app]. cbv beta iota.
      rewrite <- Hf, <- Hv. apply attempted_answered; assumption.
    + apply ends_raise. cbv beta iota. cbn [exn_class class_eqb].
      apply ends_ret. rewrite app_nil_r.
      rewrite <- Hf, <- Hv. apply attempted_raised. exact Hp.
  - assert (Hp : prefixed sel = true)
      by (unfold prefixed; rewrite Hdot; apply orb_true_r).
    assert (Hf : first_by sel = ByClassName)
      by (unfold first_by; rewrite Hhash, Hdot; reflexivity).
    assert (Hv : value_of sel = Py.replace "." "" sel)
      by (unfold value_of; rewrite Hhash, Hdot; reflexivity).
    unfold find_elements. apply ends_bind, ends_bind, ends_call. intros r b E.
    destruct r as [l | msg]; cbn [reply].
    + apply ends_ret, ends_ret. cbv beta iota.
      eapply ends_weaken; [apply scan_tail_scans | exact (fun H => H) |].
      intros r d w' _ [found [-> Hs]]. cbn [app]. cbv beta iota.
      rewrite <- Hf, <- Hv. apply attempted_answered; assumption.
    + apply ends_raise. cbv beta iota. cbn [exn_class class_eqb].
      apply ends_ret. rewrite app_nil_r.
      rewrite <- Hf, <- Hv. apply attempted_raised. exact Hp.
  - assert (Hp : prefixed sel = false)
      by (unfold prefixed; rewrite Hhash, Hdot; reflexivity).
    eapply ends_weaken; [apply (try_funcs_chain cut sel p funcs els) | exact (fun H => H) |].
    intros r d w1 _ [els' [-> Hc]]. cbv beta iota.
    eapply ends_weaken; [apply scan_tail_scans | exact (fun H => H) |].
    intros r d2 w' _ Hr. destruct els' as [l |].
    + destruct Hr as [found [-> Hs]]. apply attempted_chain; assumption.
    + destruct Hr as [-> ->]. cbn [exn_class unbound_elements class_eqb].
      rewrite app_nil_r. apply attempted_unbound; assumption.
Qed.

Lemma poll_polling sel p deadline fuel : forall els w,
  ends True (poll handle fuel sel p deadline els) w
    (fun r d _ => polling sel p deadline els d r).
Proof.
  induction fuel as [| fuel IH]; intros els w; cbn [poll].
  - exact I.
  - apply ends_bind. unfold milli_now. apply ends_call. intros t b E.
    cbv beta iota. destruct (t <? deadline)%Z eqn:Ht.
    + apply Z.ltb_lt in Ht. apply ends_bind.
      eapply ends_weaken; [apply attempt_attempted | exact (fun H => H) |].
      intros r d w1 _ Ha. destruct r as [[els' found] | x]; cbv beta iota.
      * destruct found as [e |].
        -- apply ends_ret. rewrite app_nil_r. cbn [app].
           eapply polling_found; eauto.
        -- eapply ends_weaken; [apply (IH els') | exact (fun H => H) |].
           intros r d2 w2 _ Hq. cbn [app]. eapply polling_again; eauto.
      * cbn [app]. apply polling_raised; assumption.
    + apply Z.ltb_ge in Ht. apply ends_raise. rewrite app_nil_r.
      apply polling_over. exact Ht.
Qed.

Lemma get_element_polling fuel sel parent wait w :
  ends True (_get_element handle fuel sel parent wait) w
    (fun r d _ => sifts_hidden sel parent wait r d).
Proof.
  unfold _get_element. apply ends_bind. unfold milli_now.
  apply ends_call. intros start b E. cbv beta iota.
  apply ends_bind, ends_call. intros [] b2 E2. cbv beta iota.
  eapply ends_weaken; [apply poll_polling | exact (fun H => H) |].
  intros r d w' _ H. cbn [app]. exists start, d. split; [reflexivity | exact H].
Qed.

(** With progress, the run comes to an end, and it is one of [polling]. *)
Lemma get_element_sifts (rank : Z -> B -> nat) sel parent wait w :
  clock_progress handle rank ->
  forall fuel,
    (S (rank (fst (handle Z TimeTime (env w)) + wait * 1000)%Z (env w)) <= fuel)%nat ->
    runs (_get_element handle fuel sel parent wait) w
      (fun r d _ => sifts_hidden sel parent wait r d).
Proof.
  intros Hp fuel Hf. unfold runs.
  eapply ends_weaken;
    [apply ends_and;
     [apply (get_element_runs handle rank sel parent wait w Hp fuel Hf)
     | apply get_element_polling]
    | exact (fun H => H) |].
  intros r d w' _ [_ H]. exact H.
Qed.

(** *** A scope of hidden inputs *)

Lemma first_shown_hidden (cut : Prop) l :
  all_hidden handle l ->
  forall w, ends cut (first_shown handle l) w (fun r _ _ => r = Ok None).
Proof.
  induction l as [| e rest IH]; intros Hall w; cbn [first_shown].
  - apply ends_ret. reflexivity.
  - destruct (Hall e (or_introl eq_refl) (env w)) as [Htag _].
    apply ends_bind, ends_call. intros tg b E.
    rewrite E in Htag. cbn [fst] in Htag. rewrite Htag.
    apply ends_bind, ends_call. intros ty b2 E2.
    destruct (Hall e (or_introl eq_refl) b) as [_ Hty].
    cbn [env] in E2. rewrite E2 in Hty. cbn [fst] in Hty. subst ty.
    cbn [opt_str_eqb]. rewrite String.eqb_refl.
    eapply ends_weaken; [apply IH | exact (fun H => H) |].
    + intros x Hx. apply Hall. right. exact Hx.
    + intros r d w' _ Hr. exact Hr.
Qed.

(** Every strategy of [fs] answers hidden inputs only. *)
Let answers_hidden (p : Parent) (v : string) (fs : list By) : Prop :=
  forall b f, In f fs ->
    exists l,
      fst (handle (Reply (list Element)) (FindElements f p v) b) = Answer l /\
      all_hidden handle l.

Lemma try_funcs_hidden (cut : Prop) sel p fs :
  answers_hidden p sel fs ->
  forall els w,
    all_hidden handle (cand els) ->
    (fs <> [] \/ els <> None) ->
    ends cut (try_funcs handle fs p sel els) w
      (fun r _ _ => exists l, r = Ok (Some l) /\ all_hidden handle l).
Proof.
  induction fs as [| f fs' IH]; intros Hpage els w Hels Hne; cbn [try_funcs].
  - destruct Hne as [Hne | Hne]; [congruence |].
    destruct els as [l |]; [| congruence].
    apply ends_ret. exists l. auto.
  - apply ends_bind, ends_try. unfold find_elements.
    apply ends_bind, ends_bind, ends_call. intros r b E.
    destruct (Hpage (env w) f (or_introl eq_refl)) as [l [Hl Hh]].
    rewrite E in Hl. cbn [fst] in Hl. subst r. cbn [reply].
    apply ends_ret, ends_ret. cbv beta iota.
    destruct l as [| x l]; cbn [nonempty].
    + eapply ends_weaken; [apply (IH ltac:(intros b0 f0 Hf0; apply Hpage; right; exact Hf0)
                                     (Some [])) | exact (fun H => H) |].
      * intros e [].
      * right. discriminate.
      * intros r d w' _ Hr. exact Hr.
    + apply ends_ret. exists (x :: l). auto.
Qed.

Lemma attempt_hidden (cut : Prop) sel p els w :
  only_hidden handle p sel ->
  all_hidden handle (cand els) ->
  ends cut (attempt handle sel p els) w
    (fun r _ _ => exists l, r = Ok (Some l, None) /\ all_hidden handle l).
Proof.
  intros Hpage Hels. unfold attempt.
  apply ends_try, ends_bind.
  assert (Htail : forall l w1, all_hidden handle l ->
    ends cut
      (bind (read_local "elements" (Some l))
         (fun l0 =>
            if nonempty l0
            then bind (first_shown handle l0) (fun found => ret (Some l, found))
            else ret (Some l, None)))
      w1
      (fun r _ _ => exists l1, r = Ok (Some l1, None) /\ all_hidden handle l1)).
  { intros l w1 Hl. apply ends_bind. cbn [read_local]. apply ends_ret.
    cbv beta iota. destruct l as [| x tl]; cbn [nonempty].
    - apply ends_ret. exists []. auto.
    - apply ends_bind.
      eapply ends_weaken; [apply (first_shown_hidden cut (x :: tl) Hl) | exact (fun H => H) |].
      intros r d w' _ ->. cbv beta iota. apply ends_ret. exists (x :: tl). auto. }
  unfold only_hidden, plan_of, value_of in Hpage.
  destruct (Py.startswith "#" sel) eqn:Hhash;
    [| destruct (Py.startswith "." sel) eqn:Hdot].
  - unfold find_elements. apply ends_bind, ends_bind, ends_call. intros r b E.
    destruct (Hpage (env w) ById (or_introl eq_refl)) as [l [Hl Hh]].
    rewrite E in Hl. cbn [fst] in Hl. subst r. cbn [reply].
    apply ends_ret, ends_ret. cbv beta iota.
    eapply ends_weaken; [apply (Htail l _ Hh) | exact (fun H => H) |].
    intros r d w' _ [l1 [-> H1]]. eauto.
  - unfold find_elements. apply ends_bind, ends_bind, ends_call. intros r b E.
    destruct (Hpage (env w) ByClassName (or_introl eq_refl)) as [l [Hl Hh]].
    rewrite E in Hl. cbn [fst] in Hl. subst r. cbn [reply].
    apply ends_ret, ends_ret. cbv beta iota.
    eapply ends_weaken; [apply (Htail l _ Hh) | exact (fun H => H) |].
    intros r d w' _ [l1 [-> H1]]. eauto.
  - eapply ends_weaken;
      [apply (try_funcs_hidden cut sel p funcs Hpage els w Hels) | exact (fun H => H) |].
    + left. discriminate.
    + intros r d w1 _ [l [-> Hl]]. cbv beta iota.
      eapply ends_weaken; [apply (Htail l _ Hl) | exact (fun H => H) |].
      intros r d2 w' _ [l1 [-> H1]]. eauto.
Qed.

Lemma poll_hidden sel p deadline fuel :
  only_hidden handle p sel ->
  forall els w,
    all_hidden handle (cand els) ->
    ends True (poll handle fuel sel p deadline els) w
      (fun r _ _ => r = Err (not_found sel)).
Proof.
  intros Hpage.
  induction fuel as [| fuel IH]; intros els w Hels; cbn [poll].
  - exact I.
  - apply ends_bind. unfold milli_now. apply ends_call. intros t b E.
    cbv beta iota. destruct (t <? deadline)%Z.
    + apply ends_bind.
      eapply ends_weaken;
        [apply (attempt_hidden True sel p els _ Hpage Hels) | exact (fun H => H) |].
      intros r d w1 _ [l [-> Hl]]. cbv beta iota.
      eapply ends_weaken; [apply (IH (Some l) w1 Hl) | exact (fun H => H) |].
      intros r d2 w2 _ Hr. exact Hr.
    + apply ends_raise. reflexivity.
Qed.

Lemma get_element_hidden fuel sel parent wait w :
  only_hidden handle (scope parent) sel ->
  ends True (_get_element handle fuel sel parent wait) w
    (fun r _ _ => r = Err (not_found sel)).
Proof.
  intros Hpage. unfold _get_element. apply ends_bind. unfold milli_now.
  apply ends_call. intros start b E. cbv beta iota.
  apply ends_bind, ends_call. intros [] b2 E2. cbv beta iota.
  eapply ends_weaken; [apply (poll_hidden sel _ _ fuel Hpage None) | exact (fun H => H) |].
  - intros e [].
  - intros r d w' _ Hr. exact Hr.
Qed.

End Filtering.

(** *** What the rounds show *)

Lemma prefixed_plan sel :
  prefixed sel = true -> plan_of sel = [first_by sel].
Proof.
  unfold prefixed, plan_of, first_by.
  destruct (Py.startswith "#" sel); [reflexivity |].
  destruct (Py.startswith "." sel); [reflexivity | discriminate].
Qed.

Lemma unprefixed_plan sel :
  prefixed sel = false ->
  plan_of sel = funcs /\ value_of sel = sel /\ first_by sel = ByTagName.
Proof.
  unfold prefixed, plan_of, value_of, first_by.
  destruct (Py.startswith "#" sel); [discriminate |].
  destruct (Py.startswith "." sel); [discriminate | auto].
Qed.

Lemma chain_tried p v fs els d els' : chain p v fs els d els' -> tried p v fs d.
Proof.
  induction 1.
  - constructor.
  - apply tried_won. assumption.
  - apply tried_next; [reflexivity | assumption].
  - apply tried_next; [reflexivity | assumption].
Qed.

Lemma chain_quiet p v fs els d els' :
  chain p v fs els d els' ->
  forallb is_lookup d = true /\ forallb no_pass d = true.
Proof.
  induction 1; simpl; auto.
Qed.

Lemma chain_first p v f fs els d els' :
  chain p v (f :: fs) els d els' ->
  exists r rest, d = Ev (FindElements f p v) r :: rest.
Proof.
  intros H. inversion H; subst; eauto.
Qed.

Lemma scan_checks l d found : scan l d found -> forallb is_check d = true.
Proof.
  induction 1; simpl; auto.
Qed.

(** An attempt, seen from outside. *)
Lemma attempted_outside sel p els da r :
  attempted sel p els da r ->
  one_attempt sel p da /\
  match r with
  | Ok (_, found) => yields da found
  | Err x => x = unbound_elements /\ yields da None
  end.
Proof.
  intros H. destruct H as [msg Hp | l ds found Hp Hs | dl l ds found Hp Hc Hs | dl Hp Hc].
  - split; [exists (NoSuchElement msg), []; auto | reflexivity].
  - split.
    + exists (Answer l), ds. split; [reflexivity |]. eapply scan_lookups; eauto.
    + pose proof (scan_pass _ _ _ Hs) as Hy. destruct found as [e |].
      * destruct Hy as [pre [last [-> [H1 H2]]]].
        exists (Ev (FindElements (first_by sel) p (value_of sel)) (Answer l) :: pre), last.
        split; [reflexivity |]. split; auto.
      * simpl. exact Hy.
  - destruct (unprefixed_plan sel Hp) as [_ [Hv Hf]].
    unfold one_attempt. rewrite Hv, Hf.
    destruct (chain_quiet _ _ _ _ _ _ Hc) as [Hk Hn].
    destruct (chain_first _ _ _ _ _ _ _ Hc) as [r0 [rest ->]].
    split.
    + exists r0, (rest ++ ds)%list. split; [reflexivity |].
      simpl in Hk. rewrite forallb_app, Hk. simpl. eapply scan_lookups; eauto.
    + pose proof (scan_pass _ _ _ Hs) as Hy. destruct found as [e |].
      * destruct Hy as [pre [last [-> [H1 H2]]]].
        exists ((Ev (FindElements ByTagName p sel) r0 :: rest) ++ pre)%list, last.
        rewrite app_assoc. split; [reflexivity |]. split; auto.
        rewrite forallb_app, Hn, H2. reflexivity.
      * unfold yields. rewrite forallb_app, Hn, Hy. reflexivity.
  - destruct (unprefixed_plan sel Hp) as [_ [Hv Hf]].
    unfold one_attempt. rewrite Hv, Hf.
    destruct (chain_quiet _ _ _ _ _ _ Hc) as [Hk Hn].
    destruct (chain_first _ _ _ _ _ _ _ Hc) as [r0 [rest ->]].
    split.
    + exists r0, rest. split; [reflexivity |]. simpl in Hk. exact Hk.
    + split; [reflexivity | exact Hn].
Qed.

Lemma one_attempt_no_sleep sel p da :
  one_attempt sel p da -> forallb (fun e => negb (is_sleep e)) da = true.
Proof.
  intros [r [rest [-> Hk]]]. simpl. apply lookups_no_sleep. exact Hk.
Qed.

Lemma polling_rounds sel p deadline els d r :
  polling sel p deadline els d r ->
  rounds sel p deadline d r /\ forallb (fun e => negb (is_sleep e)) d = true.
Proof.
  induction 1 as [els t Ht | els t da els' e Ht Ha | els t da x Ht Ha
                 | els t da els' d r Ht Ha Hq IH].
  - split; [apply rounds_over; exact Ht | reflexivity].
  - destruct (attempted_outside _ _ _ _ _ Ha) as [H1 H2]. split.
    + apply rounds_found; assumption.
    + simpl. apply (one_attempt_no_sleep _ _ _ H1).
  - destruct (attempted_outside _ _ _ _ _ Ha) as [H1 [-> H2]]. split.
    + apply rounds_unbound; assumption.
    + simpl. apply (one_attempt_no_sleep _ _ _ H1).
  - destruct (attempted_outside _ _ _ _ _ Ha) as [H1 H2].
    destruct IH as [IH1 IH2]. split.
    + apply rounds_again; assumption.
    + simpl. rewrite forallb_app, (one_attempt_no_sleep _ _ _ H1), IH2. reflexivity.
Qed.

(** An attempt is the lookups its plan commands, then reads on elements. *)
Lemma attempted_split sel p els da r :
  attempted sel p els da r ->
  exists dl dc,
    da = (dl ++ dc)%list /\
    tried p (value_of sel) (plan_of sel) dl /\
    forallb is_check dc = true.
Proof.
  intros H. destruct H as [msg Hp | l ds found Hp Hs | dl l ds found Hp Hc Hs | dl Hp Hc].
  - exists [Ev (FindElements (first_by sel) p (value_of sel)) (NoSuchElement msg)], [].
    rewrite (prefixed_plan sel Hp). split; [reflexivity |]. split; [| reflexivity].
    apply tried_next; [reflexivity | constructor].
  - exists [Ev (FindElements (first_by sel) p (value_of sel)) (Answer l)], ds.
    rewrite (prefixed_plan sel Hp). split; [reflexivity |].
    split; [| eapply scan_checks; eauto].
    destruct l as [| x l].
    + apply tried_next; [reflexivity | constructor].
    + apply tried_won. reflexivity.
  - destruct (unprefixed_plan sel Hp) as [-> [-> _]].
    exists dl, ds. split; [reflexivity |].
    split; [eapply chain_tried; eauto | eapply scan_checks; eauto].
  - destruct (unprefixed_plan sel Hp) as [-> [-> _]].
    exists dl, []. rewrite app_nil_r. split; [reflexivity |].
    split; [eapply chain_tried; eauto | reflexivity].
Qed.

Lemma polling_planned sel p deadline els d r :
  polling sel p deadline els d r ->
  planned sel (plan_of sel) (value_of sel) p d r.
Proof.
  induction 1 as [els t Ht | els t da els' e Ht Ha | els t da x Ht Ha
                 | els t da els' d r Ht Ha Hq IH].
  - apply planned_over.
  - destruct (attempted_split _ _ _ _ _ Ha) as [dl [dc [-> [H1 H2]]]].
    apply planned_last; [assumption | assumption | discriminate].
  - destruct (attempted_outside _ _ _ _ _ Ha) as [_ [-> _]].
    destruct (attempted_split _ _ _ _ _ Ha) as [dl [dc [-> [H1 H2]]]].
    apply planned_last; [assumption | assumption | discriminate].
  - destruct (attempted_split _ _ _ _ _ Ha) as [dl [dc [-> [H1 H2]]]].
    rewrite <- app_assoc. apply planned_again; assumption.
Qed.

(** ** Claims about the resolver *)



(** C2.  For a selector that starts with neither [#] nor [.], every attempt
    of the resolver tries the strategies tag name, name, id, CSS selector,
    link text in this order, rooted at the scope; the first one that
    answers a non-empty list closes the attempt, so that no later strategy
    is tried, and an attempt without such an answer tries all five.  A
    selector that starts with [#] or [.] gets one lookup per attempt, by id
    or by class name, and never this chain.  Every clock reading but the
    one that ends the call with the not-found error is followed by such an
    attempt. *)
Theorem get_element_tries_strategies_in_order
    (B : Type) (handle : forall A : Type, envE A -> B -> A * B)
    (rank : Z -> B -> nat) :
  clock_progress handle rank ->
  forall sel parent wait (w : World B),
  exists fuel0, forall fuel, (fuel0 <= fuel)%nat ->
    runs (_get_element handle fuel sel parent wait) w
      (fun r d _ => follows_plan sel parent r d).
Proof.
  intros Hp sel parent wait w.
  exists (S (rank (fst (handle Z TimeTime (env w)) + wait * 1000)%Z (env w))).
  intros fuel Hf. unfold runs.
  eapply ends_weaken;
    [apply (get_element_sifts handle rank sel parent wait w Hp fuel Hf)
    | exact (fun H => H) |].
  intros r d w' _ [start [polls [-> H]]].
  pose proof (polling_planned _ _ _ _ _ _ H) as Hc.
  exists start, polls. split; [reflexivity |].
  unfold plan_of, value_of in Hc.
  split; [| split].
  - intros H1 H2. rewrite H1, H2 in Hc. exact Hc.
  - intros H1. rewrite H1 in Hc. exact Hc.
  - intros H1 H2. rewrite H1, H2 in Hc. exact Hc.
Qed.

Lemma get_element_tries_strategies_in_order_witness :
  clock_progress (Toy.handle Toy.form_page) Toy.rank /\
  exists fuel0, forall fuel, (fuel0 <= fuel)%nat ->
    runs (_get_element (Toy.handle Toy.form_page) fuel "Home" None 1) Toy.start
      (fun r d _ => follows_plan "Home" None r d).
Proof.
  split; [apply toy_progress |].
  apply (get_element_tries_strategies_in_order _ _ _ (toy_progress Toy.form_page)).
Defined.

(** ** Filtering hidden inputs *)

(** On the search form, all that the selector [csrf] matches is the hidden
    token. *)
Lemma form_page_csrf_hidden :
  only_hidden (Toy.handle Toy.form_page) Driver "csrf".
Proof.
  intros b by_ Hin. simpl. eexists. split; [reflexivity |].
  intros e He b'.
  assert (E1 : e = 1%nat).
  { simpl in Hin.
    destruct Hin as [<- | [<- | [<- | [<- | [<- | []]]]]]; simpl in He;
      rewrite ?andb_false_r in He; simpl in He; try contradiction.
    rewrite andb_true_r in He.
    destruct (Toy.present (Toy.now b) _); simpl in He;
      [destruct He as [<- | []]; reflexivity | contradiction]. }
  subst e. split; reflexivity.
Qed.

(** C3.  Under a clock that moves on, every call of [_get_element] is a
    run of [polling]: in each turn of the loop, the list the lookups leave
    to be examined (the answer of the winning lookup) is scanned in the
    provider's order; the elements passed over were each reported an
    [input] of type [hidden]; the first element not so reported is returned
    at once; and when every element is a hidden input the turn yields
    nothing and the loop goes on.  Hence, when all that matches the
    selector under the scope are hidden inputs, the call fails with the
    not-found error, after a reading at or past the deadline. *)
Theorem get_element_skips_hidden_inputs
    (B : Type) (handle : forall A : Type, envE A -> B -> A * B)
    (rank : Z -> B -> nat) :
  clock_progress handle rank ->
  forall sel parent wait (w : World B),
    (exists fuel0, forall fuel, (fuel0 <= fuel)%nat ->
       runs (_get_element handle fuel sel parent wait) w
         (fun r d _ => sifts_hidden sel parent wait r d)) /\
    (only_hidden handle (scope parent) sel ->
     exists fuel0, forall fuel, (fuel0 <= fuel)%nat ->
       runs (_get_element handle fuel sel parent wait) w
         (fun r d _ => fails_after_deadline sel wait r d)).
Proof.
  intros Hp sel parent wait w. split.
  - exists (S (rank (fst (handle Z TimeTime (env w)) + wait * 1000)%Z (env w))).
    intros fuel Hf. apply (get_element_sifts handle rank sel parent wait w Hp fuel Hf).
  - intros Hpage.
    exists (S (rank (fst (handle Z TimeTime (env w)) + wait * 1000)%Z (env w))).
    intros fuel Hf. unfold runs.
    eapply ends_weaken;
      [apply ends_and;
       [apply (get_element_runs handle rank sel parent wait w Hp fuel Hf)
       | apply (get_element_hidden handle fuel sel parent wait w Hpage)]
      | exact (fun H => H) |].
    intros r d w' _ [[_ [start [polls [-> H]]]] ->].
    destruct H as [_ [_ [_ [[t [Ht Hiff]] _]]]].
    split; [reflexivity |].
    exists start, polls, t. repeat split; auto.
    apply Hiff. reflexivity.
Qed.

Lemma get_element_skips_hidden_inputs_witness :
  clock_progress (Toy.handle Toy.form_page) Toy.rank /\
  only_hidden (Toy.handle Toy.form_page) (scope None) "csrf" /\
  (exists fuel0, forall fuel, (fuel0 <= fuel)%nat ->
     runs (_get_element (Toy.handle Toy.form_page) fuel "csrf" None 1) Toy.start
       (fun r d _ => sifts_hidden "csrf" None 1 r d)) /\
  (exists fuel0, forall fuel, (fuel0 <= fuel)%nat ->
     runs (_get_element (Toy.handle Toy.form_page) fuel "csrf" None 1) Toy.start
       (fun r d _ => fails_after_deadline "csrf" 1 r d)).
Proof.
  split; [apply toy_progress |].
  split; [apply form_page_csrf_hidden |].
  destruct (get_element_skips_hidden_inputs _ _ _ (toy_progress Toy.form_page)
              "csrf" None 1%Z Toy.start) as [H1 H2].
  split; [exact H1 | exact (H2 form_page_csrf_hidden)].
Defined.

(** C4.  The selector [#a#b] names the id [a#b], but the resolver strips
    every [#]: it looks up the id [ab], and on a page holding both ids it
    returns the element whose id is [ab] (element 1), not the one whose id
    is [a#b] (element 0). *)
Theorem hash_selector_loses_inner_hashes :
  Py.replace "#" "" "#a#b" = "ab" /\
  forall fuel,
    _get_element (Toy.handle Toy.hash_page) (S fuel) "#a#b" None 1 Toy.start
    = Return 1%nat
        (mkWorld (Toy.mkState 800 1)
           [Ev TimeTime 0%Z; Ev (ImplicitlyWait 0) tt; Ev TimeTime 400%Z;
            Ev (FindElements ById Driver "ab") (Answer [1%nat]);
            Ev (TagName 1) "div"]).
Proof.
  split; [reflexivity | intros fuel; reflexivity].
Qed.

(** C9.  [navigate] raises the invalid-option error for every argument
    other than [forward] and [back], and then leaves the world as it was:
    nothing was asked of the driver.  For the two accepted arguments it
    makes the one matching driver call, and nothing else. *)
Theorem navigate_accepts_forward_and_back
    (B : Type) (handle : forall A : Type, envE A -> B -> A * B)
    (navigation : string) (w : World B) :
  (navigation <> "forward" -> navigation <> "back" ->
   navigate handle navigation w
   = Raise (mkExn AttributeError
              "An invalid option was given to the navigation command") w) /\
  navigate handle "forward" w
  = Return tt (mkWorld (snd (handle unit Forward (env w)))
                 (trace w ++ [Ev Forward tt])%list) /\
  navigate handle "back" w
  = Return tt (mkWorld (snd (handle unit Back (env w)))
                 (trace w ++ [Ev Back tt])%list).
Proof.
  split; [| split].
  - intros Hf Hb. unfold navigate. cbn [existsb].
    apply String.eqb_neq in Hf. apply String.eqb_neq in Hb.
    rewrite Hf, Hb. reflexivity.
  - unfold navigate, getattr_driver. cbn [existsb String.eqb Ascii.eqb Bool.eqb orb negb].
    unfold bind, ret, call.
    destruct (handle unit Forward (env w)) as [[] b]. reflexivity.
  - unfold navigate, getattr_driver. cbn [existsb String.eqb Ascii.eqb Bool.eqb orb negb].
    unfold bind, ret, call.
    destruct (handle unit Back (env w)) as [[] b]. reflexivity.
Qed.

Lemma navigate_accepts_forward_and_back_witness :
  "sideways" <> "forward" /\ "sideways" <> "back" /\
  navigate (Toy.handle Toy.form_page) "sideways" Toy.start
  = Raise (mkExn AttributeError
             "An invalid option was given to the navigation command") Toy.start.
Proof.
  split; [discriminate |]. split; [discriminate |].
  apply (proj1 (navigate_accepts_forward_and_back _ (Toy.handle Toy.form_page)
                  "sideways" Toy.start)); discriminate.
Defined.

(** ** The asserts *)

(** The one-second sleep of the asserts is never refused. *)
Lemma wait_second (B : Type) (handle : forall A : Type, envE A -> B -> A * B) py :
  wait handle py (Num 1000) = call handle (TimeSleep 1000).
Proof. reflexivity. Qed.

Section Asserts.

Context {B : Type}.
Variable handle : forall A : Type, envE A -> B -> A * B.
Variable rank : Z -> B -> nat.
Variable py : Python.
Hypothesis Hprogress : clock_progress handle rank.

(** The world after the first sleep. *)
Let slept (w : World B) : B := snd (handle unit (TimeSleep 1000) (env w)).

Lemma resolve_after_sleep sel fuel (w : World B) b r :
  handle unit (TimeSleep 1000) (env w) = (r, b) ->
  (enough handle rank default_wait (slept w) <= fuel)%nat ->
  runs (_get_element handle fuel sel None default_wait)
    (mkWorld b (trace w ++ [Ev (TimeSleep 1000) r])%list)
    (fun rr dres _ => resolved sel None default_wait rr dres).
Proof.
  intros E Hf. unfold runs.
  eapply ends_weaken;
    [apply (get_element_runs handle rank sel None default_wait _ Hprogress fuel)
    | exact (fun H => H) |].
  - unfold enough, slept in Hf. rewrite E in Hf. exact Hf.
  - intros rr d w' _ [_ H]. exact H.
Qed.

Lemma assert_text_runs fuel text sel (w : World B) :
  (enough handle rank default_wait (slept w) <= fuel)%nat ->
  runs (assert_text handle py fuel text sel) w (fun r d _ => text_asserted text sel r d).
Proof.
  intros Hf. unfold runs, assert_text. rewrite wait_second.
  apply ends_bind, ends_call. intros [] b E. cbv beta iota.
  apply ends_bind.
  eapply ends_weaken; [apply (resolve_after_sleep sel fuel w b tt E Hf) | exact (fun H => H) |].
  intros rr dres w1 _ Hres. destruct rr as [e | x].
  - apply ends_bind, ends_call. intros actual b2 E2. cbv beta iota.
    destruct (Py.contains text actual) eqn:Hc; cbn [negb].
    + apply ends_ret. cbn [app]. try rewrite app_nil_r.
      exists dres, (Ok e), [Ev (Text e) actual].
      split; [reflexivity |]. split; [exact Hres |]. left. eauto.
    + apply ends_bind, ends_call. intros shown b3 E3. cbv beta iota.
      apply ends_raise. cbn [app]. try rewrite app_nil_r.
      exists dres, (Ok e), [Ev (Text e) actual; Ev (Text e) shown].
      split; [reflexivity |]. split; [exact Hres |]. right. eauto.
  - cbn [app]. exists dres, (Err x), []. rewrite app_nil_r. auto.
Qed.

Lemma assert_element_runs fuel sel (w : World B) :
  (enough handle rank default_wait (slept w) <= fuel)%nat ->
  runs (assert_element handle py fuel sel) w (fun r d _ => element_asserted sel r d).
Proof.
  intros Hf. unfold runs, assert_element. rewrite wait_second.
  apply ends_bind, ends_call. intros [] b E. cbv beta iota.
  apply ends_bind.
  eapply ends_weaken; [apply (resolve_after_sleep sel fuel w b tt E Hf) | exact (fun H => H) |].
  intros rr dres w1 _ Hres. destruct rr as [e | x].
  - cbn [truthy negb]. apply ends_ret. cbn [app]. try rewrite app_nil_r.
    exists dres, (Ok e). auto.
  - cbn [app]. exists dres, (Err x). auto.
Qed.

Lemma opt_str_eqb_false x s : opt_str_eqb x s = false -> x <> Some s.
Proof.
  intros H ->. simpl in H. rewrite String.eqb_refl in H. discriminate.
Qed.

Lemma assert_value_runs fuel sel value (w : World B) :
  (enough handle rank default_wait (slept w) <= fuel)%nat ->
  runs (assert_value handle py fuel sel value) w
    (fun r d _ => value_asserted sel value r d).
Proof.
  intros Hf. unfold runs, assert_value. rewrite wait_second.
  apply ends_bind, ends_call. intros [] b E. cbv beta iota.
  apply ends_bind.
  eapply ends_weaken; [apply (resolve_after_sleep sel fuel w b tt E Hf) | exact (fun H => H) |].
  intros rr dres w1 _ Hres. destruct rr as [e | x].
  - apply ends_bind, ends_call. intros actual b2 E2. cbv beta iota.
    destruct (opt_str_eqb actual value) eqn:Hc; cbn [negb].
    + apply ends_ret. cbn [app]. try rewrite app_nil_r.
      apply opt_str_eqb_true in Hc. subst actual.
      exists dres, (Ok e), [Ev (GetAttribute e "value") (Some value)].
      split; [reflexivity |]. split; [exact Hres |]. left. auto.
    + apply ends_bind, ends_call. intros shown b3 E3. cbv beta iota.
      apply ends_raise. cbn [app]. try rewrite app_nil_r.
      apply opt_str_eqb_false in Hc.
      exists dres, (Ok e),
        [Ev (GetAttribute e "value") actual; Ev (GetAttribute e "value") shown].
      split; [reflexivity |]. split; [exact Hres |]. right. eauto.
  - cbn [app]. exists dres, (Err x), []. rewrite app_nil_r. auto.
Qed.

End Asserts.

Lemma assert_title_runs (B : Type) (handle : forall A : Type, envE A -> B -> A * B)
    py value (w : World B) :
  runs (assert_title handle py value) w (fun r d _ => title_asserted value r d).
Proof.
  unfold runs, assert_title. rewrite wait_second.
  apply ends_bind, ends_call. intros [] b E. cbv beta iota.
  apply ends_bind, ends_call. intros actual b2 E2. cbv beta iota.
  destruct (String.eqb actual value) eqn:Hc; cbn [negb].
  - apply ends_ret. apply String.eqb_eq in Hc. subst actual. left. auto.
  - apply ends_bind, ends_call. intros shown b3 E3. cbv beta iota.
    apply ends_raise. apply String.eqb_neq in Hc. right. exists actual, shown. auto.
Qed.

Lemma assert_url_runs (B : Type) (handle : forall A : Type, envE A -> B -> A * B)
    py url (w : World B) :
  runs (assert_url handle py url) w (fun r d _ => url_asserted url r d).
Proof.
  unfold runs, assert_url. rewrite wait_second.
  apply ends_bind, ends_call. intros [] b E. cbv beta iota.
  apply ends_bind, ends_call. intros actual b2 E2. cbv beta iota.
  destruct (String.eqb actual url) eqn:Hc; cbn [negb].
  - apply ends_ret. apply String.eqb_eq in Hc. subst actual. left. auto.
  - apply ends_bind, ends_call. intros shown b3 E3. cbv beta iota.
    apply ends_raise. apply String.eqb_neq in Hc. right. exists actual, shown. auto.
Qed.

(** C8.  When nothing matches the selector, [assert_element] does not fail
    with the assertion error it has a [raise] for: the resolver raises its
    not-found error first, and that error comes through.  Here the page
    holds no element [missing]; the call sleeps its second, polls for ten
    seconds and fails with [NoSuchElementException]. *)
Theorem assert_element_fails_with_not_found :
  forall py,
    match assert_element (Toy.handle Toy.form_page) py 40 "missing" Toy.start with
    | Raise x _ => Some x
    | _ => None
    end = Some (not_found "missing") /\
    exn_class (not_found "missing") = NoSuchElementException /\
    exn_class (not_found "missing") <> GhostlyTestFailed.
Proof.
  intros py. split; [vm_compute; reflexivity |]. split; [reflexivity | discriminate].
Qed.

(** X15.  Each of the five asserts first sleeps one second (the delay is
    no argument of theirs).  [assert_text], [assert_value], [assert_title]
    and [assert_url] then read the actual value and compare, and on a
    mismatch raise [GhostlyTestFailed] with a message that carries the
    actual value, read again for the message, and the expected one.
    [assert_value] returns exactly when the [value] attribute read from the
    resolved element is the expected string.  An error of the resolver
    comes through as it is. *)
Theorem asserts_sleep_then_compare
    (B : Type) (handle : forall A : Type, envE A -> B -> A * B)
    (rank : Z -> B -> nat) (py : Python) :
  clock_progress handle rank ->
  forall w : World B,
  exists fuel0, forall fuel, (fuel0 <= fuel)%nat ->
    (forall text sel,
        runs (assert_text handle py fuel text sel) w
          (fun r d _ => text_asserted text sel r d)) /\
    (forall sel,
        runs (assert_element handle py fuel sel) w
          (fun r d _ => element_asserted sel r d)) /\
    (forall sel value,
        runs (assert_value handle py fuel sel value) w
          (fun r d _ => value_asserted sel value r d)) /\
    (forall value,
        runs (assert_title handle py value) w
          (fun r d _ => title_asserted value r d)) /\
    (forall url,
        runs (assert_url handle py url) w
          (fun r d _ => url_asserted url r d)).
Proof.
  intros Hp w.
  exists (enough handle rank default_wait
            (snd (handle unit (TimeSleep 1000) (env w)))).
  intros fuel Hf. repeat split; intros.
  - apply (assert_text_runs handle rank py Hp); exact Hf.
  - apply (assert_element_runs handle rank py Hp); exact Hf.
  - apply (assert_value_runs handle rank py Hp); exact Hf.
  - apply assert_title_runs.
  - apply assert_url_runs.
Qed.

Lemma asserts_sleep_then_compare_witness :
  clock_progress (Toy.handle Toy.form_page) Toy.rank /\
  exists fuel0, forall fuel, (fuel0 <= fuel)%nat ->
    runs (assert_value (Toy.handle Toy.form_page) Python3 fuel "input" "Hello World")
      Toy.start
      (fun r d _ => value_asserted "input" "Hello World" r d).
Proof.
  split; [apply toy_progress |].
  destruct (asserts_sleep_then_compare _ _ _ Python3 (toy_progress Toy.form_page)
              Toy.start) as [fuel0 H].
  exists fuel0. intros fuel Hf.
  exact (proj1 (proj2 (proj2 (H fuel Hf))) "input" "Hello World").
Defined.

(** The scenario of the specification: the field holds the expected text. *)
Example assert_value_hello_world :
  forall py fuel,
    assert_value (Toy.handle Toy.form_page) py (S fuel) "input" "Hello World" Toy.start
    = Return tt
        (mkWorld (Toy.mkState 1800 1)
           [Ev (TimeSleep 1000) tt; Ev TimeTime 1000%Z; Ev (ImplicitlyWait 0) tt;
            Ev TimeTime 1400%Z;
            Ev (FindElements ByTagName Driver "input") (Answer [2%nat]);
            Ev (TagName 2) "input"; Ev (GetAttribute 2 "type") (Some "text");
            Ev (GetAttribute 2 "value") (Some "Hello World")]).
Proof. intros py fuel. reflexivity. Qed.

(** ** The branch of [assert_element] that cannot be taken *)

(** All [_get_element] ever raises. *)
Lemma get_element_raises (B : Type) (handle : forall A : Type, envE A -> B -> A * B)
    fuel sel parent wait (w w' : World B) x :
  _get_element handle fuel sel parent wait w = Raise x w' ->
  x = not_found sel \/ x = unbound_elements.
Proof.
  intros E.
  pose proof (get_element_ends handle (fun _ _ => 0%nat) fuel sel parent wait w) as H.
  unfold ends in H. rewrite E in H.
  destruct H as [d [_ [_ [start [polls [_ Hq]]]]]].
  destruct Hq as [_ [_ [_ [_ [_ Hx]]]]]. exact Hx.
Qed.

(** X2.  [assert_element] never raises [GhostlyTestFailed]: an element
    handle is always true, so the test that follows the resolution cannot
    fail, whatever the environment and the fuel. *)
Lemma assert_element_never_fails_the_test
    (B : Type) (handle : forall A : Type, envE A -> B -> A * B)
    py fuel sel (w w' : World B) x :
  assert_element handle py fuel sel w = Raise x w' ->
  exn_class x <> GhostlyTestFailed.
Proof.
  unfold assert_element. rewrite wait_second. unfold bind, call.
  destruct (handle unit (TimeSleep 1000) (env w)) as [[] b].
  destruct (_get_element handle fuel sel None default_wait _) as [e w1 | y w1 |] eqn:E.
  - cbn [truthy negb ret]. discriminate.
  - intros H. inversion H; subst y w1.
    destruct (get_element_raises _ _ _ _ _ _ _ _ _ E) as [-> | ->]; discriminate.
  - discriminate.
Qed.

(** C10.  [assert_element] can fail with an error that is neither the
    assertion failure nor the resolver's not-found error: when every lookup
    of the first attempt raises, [elements] is read before it was ever
    assigned, and the [UnboundLocalError] leaves [_get_element] and
    [assert_element]. *)
Theorem assert_element_fails_unbound :
  forall py fuel,
    assert_element (Toy.handle Toy.broken_page) py (S fuel) "main" Toy.start
    = Raise unbound_elements
        (mkWorld (Toy.mkState 1800 1)
           [Ev (TimeSleep 1000) tt; Ev TimeTime 1000%Z; Ev (ImplicitlyWait 0) tt;
            Ev TimeTime 1400%Z;
            Ev (FindElements ByTagName Driver "main") (NoSuchElement "no such element");
            Ev (FindElements ByName Driver "main") (NoSuchElement "no such element");
            Ev (FindElements ById Driver "main") (NoSuchElement "no such element");
            Ev (FindElements ByCssSelector Driver "main") (NoSuchElement "no such element");
            Ev (FindElements ByLinkText Driver "main") (NoSuchElement "no such element")]).
Proof. intros py fuel. reflexivity. Qed.

(** ** The example clock reaches its deadlines *)

Lemma digits2_bound p : (Zpos p < 2 ^ Zpos (digits2_pos p))%Z.
Proof.
  induction p as [p IH | p IH |]; cbn [digits2_pos].
  - rewrite Pos2Z.inj_succ, Z.pow_succ_r by lia. lia.
  - rewrite Pos2Z.inj_succ, Z.pow_succ_r by lia. lia.
  - reflexivity.
Qed.

(** A reading of the example clock below the float [m * 2 ^ e] was made
    before tick [n], when [n / 1024] is not below that float. *)
Lemma seconds_below (now : Z) (m : positive) (e n : Z) :
  ((1 <=? e + 63) && (e + 63 <=? 53) && (0 <? n) && (2 ^ (e + 62) <=? n)
     && (Zpos m <=? n * 2 ^ (53 - (e + 63))))%Z = true ->
  Py.float_lt (Toy.seconds now) (S754_finite false m e) = true ->
  (now < n)%Z.
Proof.
  intros H Hlt.
  apply andb_true_iff in H. destruct H as [H H5].
  apply andb_true_iff in H. destruct H as [H H4].
  apply andb_true_iff in H. destruct H as [H H3].
  apply andb_true_iff in H. destruct H as [H1 H2].
  apply Z.leb_le in H1, H2, H4, H5. apply Z.ltb_lt in H3.
  destruct now as [| q | q]; try lia.
  unfold Py.float_lt, Toy.seconds in Hlt. cbv zeta in Hlt.
  pose proof (digits2_bound q) as Hq.
  assert (Hd0 : (0 < Zpos (digits2_pos q))%Z) by lia.
  remember (Zpos (digits2_pos q)) as d eqn:Ed. clear Ed.
  destruct (d <=? 53)%Z eqn:Hd; [| discriminate Hlt].
  apply Z.leb_le in Hd.
  unfold SFltb, SFcompare in Hlt.
  destruct (Z.compare_spec (d - 63) e) as [He | He | He].
  - assert (Hpos : (0 < Zpos q * 2 ^ (53 - d))%Z)
      by (apply Z.mul_pos_pos; [lia | apply Z.pow_pos_nonneg; lia]).
    destruct (Pos.compare_cont Eq (Z.to_pos (Zpos q * 2 ^ (53 - d))) m) eqn:Hc;
      try discriminate Hlt.
    change (Pos.compare_cont Eq (Z.to_pos (Zpos q * 2 ^ (53 - d))) m)
      with (Pos.compare (Z.to_pos (Zpos q * 2 ^ (53 - d))) m) in Hc.
    apply Pos.compare_lt_iff in Hc.
    assert (Hz : (Zpos q * 2 ^ (53 - d) < Zpos m)%Z).
    { rewrite <- (Z2Pos.id _ Hpos). apply Pos2Z.pos_lt_pos. exact Hc. }
    replace (53 - (e + 63))%Z with (53 - d)%Z in H5 by lia.
    assert (Hp : (0 < 2 ^ (53 - d))%Z) by (apply Z.pow_pos_nonneg; lia).
    nia.
  - assert (Hle : (2 ^ d <= 2 ^ (e + 62))%Z) by (apply Z.pow_le_mono_r; lia).
    lia.
  - discriminate Hlt.
Qed.

Lemma toy_reaches (p : Toy.Page) (m : positive) (e n : Z) :
  ((1 <=? e + 63) && (e + 63 <=? 53) && (0 <? n) && (2 ^ (e + 62) <=? n)
     && (Zpos m <=? n * 2 ^ (53 - (e + 63))))%Z = true ->
  clock_reaches (Toy.handle p) (Toy.rank n) (S754_finite false m e).
Proof.
  intros H. split.
  - intros A op b. destruct op; unfold Toy.rank; simpl; lia.
  - intros b Hlt. cbn [Toy.handle fst snd] in *.
    pose proof (seconds_below _ _ _ _ H Hlt) as Hn.
    unfold Toy.rank. cbn [Toy.now]. lia.
Qed.

(** The deadlines of the examples: 1, 1.5 and 5 seconds after tick 0. *)
Lemma toy_reaches_one (p : Toy.Page) :
  clock_reaches (Toy.handle p) (Toy.rank 1024)
    (Py.float_add (Toy.seconds 0) (Toy.seconds 1024)).
Proof. apply (toy_reaches p 4503599627370496 (-52) 1024). reflexivity. Qed.

Lemma toy_reaches_one_and_a_half (p : Toy.Page) :
  clock_reaches (Toy.handle p) (Toy.rank 1536)
    (Py.float_add (Toy.seconds 0) (Toy.seconds 1536)).
Proof. apply (toy_reaches p 6755399441055744 (-52) 1536). reflexivity. Qed.

Lemma toy_reaches_five (p : Toy.Page) :
  clock_reaches (Toy.handle p) (Toy.rank 5120)
    (Py.float_add (Toy.seconds 0) (Toy.seconds 5120)).
Proof. apply (toy_reaches p 5629499534213120 (-50) 5120). reflexivity. Qed.

(** The ints of the examples, as floats. *)
Lemma toy_ints :
  Py.to_float (Int 1) = Some (Toy.seconds 1024) /\
  Py.to_float (Int 5) = Some (Toy.seconds 5120) /\
  Py.to_float (Int 0) = Some (Toy.seconds 0).
Proof. repeat split; reflexivity. Qed.

(** ** [xpath_wait] *)

Section XpathWait.

Context {B : Type}.
Variable handle : forall A : Type, envE A -> B -> A * B.
Variable rank : B -> nat.
Variable py : Python.
Variable float_str : spec_float -> string.
Variable stop : spec_float.
Hypothesis Hreach : clock_reaches handle rank stop.

Lemma reading_below (w : World B) t b tr :
  handle spec_float Clock (env w) = (t, b) -> Py.float_lt t stop = true ->
  (rank (env (mkWorld b tr)) < rank (env w))%nat.
Proof.
  intros E Ht. pose proof (proj2 Hreach (env w)) as H.
  rewrite E in H. cbn [fst snd] in H. cbn [env]. auto.
Qed.

Lemma request_above (A : Type) (op : envE A) (b b' : B) r :
  handle A op b = (r, b') -> (rank b' <= rank b)%nat.
Proof.
  intros E. pose proof (proj1 Hreach A op b) as H. rewrite E in H. exact H.
Qed.

Lemma wait_exists_ends xp timeout sleep fuel : forall attempts w,
  ends (fuel <= rank (env w))%nat
    (wait_exists handle py float_str fuel xp timeout stop sleep attempts) w
    (fun r d w' =>
       (rank (env w') <= rank (env w))%nat /\
       exists n end1,
         exist_phase xp stop sleep d n end1 /\
         r = match end1 with
             | Reached e => Ok (e, (attempts + n)%nat)
             | Expired => Err (not_selected float_str xp timeout (attempts + n))
             | Refused => Err (negative_sleep py)
             end).
Proof.
  induction fuel as [| fuel IH]; intros attempts w; cbn [wait_exists].
  - unfold ends, out_of_fuel. lia.
  - apply ends_bind, ends_call. intros t b E. cbv beta iota.
    pose proof (request_above _ _ _ _ _ E) as Hb.
    destruct (Py.float_lt t stop) eqn:Ht.
    + pose proof (reading_below w t b (trace w ++ [Ev Clock t])%list E Ht) as Hlow.
      cbn [env] in Hlow.
      apply ends_bind, ends_try. unfold xpath, find_element_by_xpath.
      apply ends_bind, ends_bind, ends_call. intros r b2 E2.
      pose proof (request_above _ _ _ _ _ E2) as Hb2. cbn [env] in Hb2.
      destruct r as [e | msg]; cbn [reply].
      * apply ends_ret, ends_ret. cbv beta iota. apply ends_ret.
        cbn [app env]. split; [lia |].
        exists 1%nat, (Reached e). split; [constructor; exact Ht |].
        rewrite Nat.add_1_r. reflexivity.
      * apply ends_raise. cbv beta iota. cbn [exn_class class_eqb].
        unfold wait, time_sleep. destruct (sleep <? 0)%Z eqn:Hs.
        -- apply Z.ltb_lt in Hs. apply ends_bind, ends_throw.
           cbn [app env]. split; [lia |].
           exists 1%nat, Refused. split; [constructor; assumption | reflexivity].
        -- apply Z.ltb_ge in Hs. apply ends_bind, ends_call. intros [] b3 E3.
           pose proof (request_above _ _ _ _ _ E3) as Hb3. cbn [env] in Hb3.
           cbv beta iota. apply ends_ret. cbv beta iota.
           eapply ends_weaken; [apply (IH (S attempts)) | |].
           ++ cbn [env]. lia.
           ++ intros r d w' _ [Hl [n [end1 [Hph Hr]]]]. cbn [app env] in *.
              split; [lia |].
              exists (S n), end1. split; [constructor; assumption |].
              rewrite Nat.add_succ_r. exact Hr.
    + apply ends_raise. cbn [env]. split; [exact Hb |].
      exists 0%nat, Expired. split; [constructor; exact Ht |].
      rewrite Nat.add_0_r. reflexivity.
Qed.

Lemma wait_visible_ends xp e timeout sleep fuel : forall attempts w,
  ends (fuel <= rank (env w))%nat
    (wait_visible handle py float_str fuel xp e timeout stop sleep attempts) w
    (fun r d w' =>
       exists n end2,
         visible_phase e stop sleep d n end2 /\
         r = match end2 with
             | Reached _ => Ok e
             | Expired => Err (not_visible float_str xp timeout (attempts + n))
             | Refused => Err (negative_sleep py)
             end).
Proof.
  induction fuel as [| fuel IH]; intros attempts w; cbn [wait_visible].
  - unfold ends, out_of_fuel. lia.
  - apply ends_bind, ends_call. intros t b E. cbv beta iota.
    destruct (Py.float_lt t stop) eqn:Ht.
    + pose proof (reading_below w t b (trace w ++ [Ev Clock t])%list E Ht) as Hlow.
      cbn [env] in Hlow.
      apply ends_bind, ends_call. intros shown b2 E2. cbv beta iota.
      pose proof (request_above _ _ _ _ _ E2) as Hb2. cbn [env] in Hb2.
      destruct shown.
      * apply ends_ret. cbn [app].
        exists 1%nat, (Reached e). split; [constructor; exact Ht | reflexivity].
      * unfold wait, time_sleep. destruct (sleep <? 0)%Z eqn:Hs.
        -- apply Z.ltb_lt in Hs. apply ends_bind, ends_throw. cbn [app].
           exists 1%nat, Refused. split; [constructor; assumption | reflexivity].
        -- apply Z.ltb_ge in Hs. apply ends_bind, ends_call. intros [] b3 E3.
           pose proof (request_above _ _ _ _ _ E3) as Hb3. cbn [env] in Hb3.
           cbv beta iota.
           eapply ends_weaken; [apply (IH (S attempts)) | |].
           ++ cbn [env]. lia.
           ++ intros r d w' _ [n [end2 [Hph Hr]]]. cbn [app].
              exists (S n), end2. split; [constructor; assumption |].
              rewrite Nat.add_succ_r. exact Hr.
    + apply ends_raise.
      exists 0%nat, Expired. split; [constructor; exact Ht |].
      rewrite Nat.add_0_r. reflexivity.
Qed.

End XpathWait.

(** With a clock that reaches the deadline, fuel beyond its rank is
    enough. *)
Lemma xpath_wait_runs (B : Type) (handle : forall A : Type, envE A -> B -> A * B)
    (rank : B -> nat) py float_str xp visible timeout sleep (w : World B) fuel :
  (forall t, Py.to_float timeout = Some t ->
     clock_reaches handle rank
       (Py.float_add (fst (handle spec_float Clock (env w))) t)) ->
  (S (rank (env w)) <= fuel)%nat ->
  runs (xpath_wait handle py float_str fuel xp visible timeout sleep) w
    (fun r d _ => xpath_waited py float_str xp visible timeout sleep r d).
Proof.
  intros Hreach Hf. unfold runs, xpath_wait.
  apply ends_bind, ends_call. intros start b E. cbv beta iota.
  rewrite E in Hreach. cbn [fst] in Hreach.
  unfold float_plus, xpath_waited.
  destruct (Py.to_float timeout) as [t |] eqn:Et.
  - specialize (Hreach t eq_refl).
    pose proof (request_above handle rank _ Hreach _ _ _ _ _ E) as Hb.
    apply ends_bind, ends_ret. cbv beta iota. apply ends_bind.
    eapply ends_weaken; [apply (wait_exists_ends handle rank py float_str _ Hreach) | |].
    + cbn [env]. lia.
    + intros r d1 w1 _ [Hl [n1 [end1 [Hph Hr]]]]. cbn [env] in Hl.
      destruct end1 as [e | |]; subst r; cbv beta iota.
      * destruct visible; cbn [negb].
        -- eapply ends_weaken;
             [apply (wait_visible_ends handle rank py float_str _ Hreach) | |].
           ++ lia.
           ++ intros r d2 w2 _ [n2 [end2 [Hv Hr]]]. cbn [app].
              exists start, d1, n1, (Reached e). split; [exact Hph |].
              exists d2, n2, end2. split; [exact Hv |]. split; [reflexivity |].
              exact Hr.
        -- apply ends_ret. rewrite app_nil_r. cbn [app].
           exists start, d1, n1, (Reached e). split; [exact Hph |].
           split; reflexivity.
      * cbn [app]. exists start, d1, n1, Expired. split; [exact Hph |].
        split; reflexivity.
      * cbn [app]. exists start, d1, n1, Refused. split; [exact Hph |].
        split; reflexivity.
  - apply ends_bind, ends_throw. exists start. split; reflexivity.
Qed.

Lemma exist_phase_queries xp stop sleep d n end1 :
  exist_phase xp stop sleep d n end1 ->
  List.length (filter is_query d) = n /\
  match end1 with
  | Reached _ => filter is_selected d <> []
  | Expired => filter is_selected d = []
  | Refused =>
      (sleep < 0)%Z /\
      exists pre last, d = (pre ++ [last])%list /\ failed_query last = true /\
                       forallb (fun e => negb (failed_query e)) pre = true
  end.
Proof.
  induction 1 as [t Ht | t e Ht | t msg Ht Hs | t msg d n r Ht Hs Hph IH]; simpl.
  - auto.
  - split; auto. discriminate.
  - split; auto. split; auto.
    exists [Ev Clock t], (Ev (FindElementByXpath xp) (NoSuchElement msg)). auto.
  - destruct IH as [-> IH]. split; auto.
    destruct r; auto. lia.
Qed.

Lemma visible_phase_queries e stop sleep d n end2 :
  visible_phase e stop sleep d n end2 ->
  List.length (filter is_query d) = n /\ filter is_selected d = [] /\
  match end2 with
  | Refused =>
      (sleep < 0)%Z /\
      exists pre last, d = (pre ++ [last])%list /\ failed_query last = true /\
                       forallb (fun e => negb (failed_query e)) pre = true
  | _ => True
  end.
Proof.
  induction 1 as [t Ht | t Ht | t Ht Hs | t d n r Ht Hs Hph IH]; simpl.
  - auto.
  - auto.
  - split; auto. split; auto. split; auto.
    exists [Ev Clock t], (Ev (IsDisplayed e) false). auto.
  - destruct IH as [-> [-> IH]]. split; auto. split; auto.
    destruct r; auto. lia.
Qed.

Lemma not_failed_app a b :
  forallb (fun e => negb (failed_query e)) (a ++ b)%list
  = forallb (fun e => negb (failed_query e)) a
    && forallb (fun e => negb (failed_query e)) b.
Proof. apply forallb_app. Qed.

(** A phase that reached its element left no failed query behind, unless
    it slept on it; the negative interval never gets that far. *)
Lemma exist_phase_clean xp stop sleep d n e :
  exist_phase xp stop sleep d n (Reached e) ->
  (sleep < 0)%Z ->
  forallb (fun ev => negb (failed_query ev)) d = true.
Proof.
  intros H Hs. remember (Reached e) as r eqn:Er.
  induction H; try discriminate; try lia. reflexivity.
Qed.

Lemma xpath_waited_failed py float_str xp visible timeout sleep r d :
  xpath_waited py float_str xp visible timeout sleep r d ->
  xpath_failed py float_str xp timeout sleep r d.
Proof.
  intros [start H] x Hx.
  destruct (Py.to_float timeout) as [t |] eqn:Et.
  - cbv zeta in H. destruct H as [d1 [n1 [end1 [Hph H]]]].
    destruct (exist_phase_queries _ _ _ _ _ _ Hph) as [Hn1 Hs1].
    destruct end1 as [e | |].
    + destruct visible.
      * destruct H as [d2 [n2 [end2 [Hv [-> Hr]]]]].
        destruct (visible_phase_queries _ _ _ _ _ _ Hv) as [Hn2 [Hs2 Hf2]].
        destruct end2 as [e2 | |]; rewrite Hr in Hx;
          [discriminate | |]; inversion Hx; subst x.
        -- right. left.
           cbn [filter is_query is_xpath_query is_displayed_query orb is_selected].
           rewrite !filter_app, length_app, Hn1, Hn2, Hs2, app_nil_r. auto.
        -- right. right. left. destruct Hf2 as [Hneg [pre [last [-> [Hl Hpre]]]]].
           split; [reflexivity |]. split; [exact Hneg |].
           exists (Ev Clock start :: d1 ++ pre)%list, last.
           split; [cbn [app]; rewrite app_assoc; reflexivity |]. split; [exact Hl |].
           cbn [forallb failed_query negb andb].
           rewrite not_failed_app, (exist_phase_clean _ _ _ _ _ _ Hph Hneg), Hpre.
           reflexivity.
      * destruct H as [_ ->]. discriminate.
    + destruct H as [-> Hr]. rewrite Hr in Hx. inversion Hx; subst x.
      left.
      cbn [filter is_query is_xpath_query is_displayed_query orb is_selected].
      rewrite Hn1. auto.
    + destruct H as [-> Hr]. rewrite Hr in Hx. inversion Hx; subst x.
      right. right. left. destruct Hs1 as [Hneg [pre [last [-> [Hl Hpre]]]]].
      split; [reflexivity |]. split; [exact Hneg |].
      exists (Ev Clock start :: pre), last.
      split; [reflexivity |]. split; [exact Hl |].
      cbn [forallb failed_query negb andb]. exact Hpre.
  - destruct H as [-> Hr]. rewrite Hr in Hx. inversion Hx; subst x.
    right. right. right. split; [reflexivity |]. split; [reflexivity |].
    exists start. reflexivity.
Qed.



(** The run of the witness: the button is not there at the first
    selection; after the default sleep of 250 ms it is, and it is returned
    without a look at its visibility. *)
Example xpath_wait_default_sleep :
  xpath_wait_call (Toy.handle Toy.form_page) Python3 Toy.float_str 9
    "//button" (Some false) None None Toy.start
  = Return 4%nat
      (mkWorld (Toy.mkState 1450 1)
         [Ev Clock (Toy.seconds 0); Ev Clock (Toy.seconds 400);
          Ev (FindElementByXpath "//button") (NoSuchElement "Unable to locate element");
          Ev (TimeSleep 250) tt; Ev Clock (Toy.seconds 1050);
          Ev (FindElementByXpath "//button") (Answer 4%nat)]).
Proof. vm_compute. reflexivity. Qed.




(** The other ways to fail: a negative interval, under each interpreter,
    and a timeout no float can hold. *)
Example xpath_wait_negative_sleep :
  xpath_wait (Toy.handle Toy.form_page) Python3 Toy.float_str 9
    "//nothing" true (Int 1) (-250) Toy.start
  = Raise (mkExn ValueError "sleep length must be non-negative")
      (mkWorld (Toy.mkState 800 1)
         [Ev Clock (Toy.seconds 0); Ev Clock (Toy.seconds 400);
          Ev (FindElementByXpath "//nothing") (NoSuchElement "Unable to locate element")]) /\
  xpath_wait (Toy.handle Toy.form_page) Python2 Toy.float_str 9
    "//nothing" true (Int 1) (-250) Toy.start
  = Raise (mkExn IOError "[Errno 22] Invalid argument")
      (mkWorld (Toy.mkState 800 1)
         [Ev Clock (Toy.seconds 0); Ev Clock (Toy.seconds 400);
          Ev (FindElementByXpath "//nothing") (NoSuchElement "Unable to locate element")]).
Proof. split; vm_compute; reflexivity. Qed.

Example xpath_wait_huge_timeout :
  xpath_wait (Toy.handle Toy.form_page) Python3 Toy.float_str 9
    "//button" true (Int (2 ^ 1024)) 250 Toy.start
  = Raise (mkExn OverflowError "int too large to convert to float")
      (mkWorld (Toy.mkState 400 1) [Ev Clock (Toy.seconds 0)]).
Proof. vm_compute. reflexivity. Qed.

(** The deadline is a float sum.  With the start at 0.2, a timeout of 0.1
    and a reading of 0.3, the reading is below [0.2 + 0.1], which is the
    float above 0.3: the selection is made. *)
Example float_deadline_rounds :
  let start := S754_finite false 7205759403792794 (-55) in
  let timeout := S754_finite false 7205759403792794 (-56) in
  let reading := S754_finite false 5404319552844595 (-54) in
  Py.float_add start timeout = S754_finite false 5404319552844596 (-54) /\
  Py.float_lt reading (Py.float_add start timeout) = true.
Proof. split; reflexivity. Qed.

(** ** [fill] *)

(** *** [str.replace] puts the token where the placeholder stood *)

Lemma replace_from_skip old new s : forall k,
  Py.replace_from old new k s = Py.replace_from old new 0 (Py.drop k s).
Proof.
  induction s as [| c s IH]; intros k.
  - destruct k; reflexivity.
  - destruct k as [| k]; [reflexivity |]. cbn [Py.replace_from Py.drop]. apply IH.
Qed.

Lemma drop_length s : forall k, (String.length (Py.drop k s) <= String.length s)%nat.
Proof.
  induction s as [| c s IH]; intros k.
  - destruct k; simpl; lia.
  - destruct k as [| k]; simpl; [lia |]. specialize (IH k). lia.
Qed.

Lemma prefix_drop old : forall s,
  String.prefix old s = true -> s = old ++ Py.drop (String.length old) s.
Proof.
  induction old as [| a old IH]; intros s H.
  - reflexivity.
  - destruct s as [| b s]; [discriminate H |]. simpl in H.
    destruct (ascii_dec a b) as [-> |]; [| discriminate H].
    simpl. f_equal. apply IH. exact H.
Qed.

Lemma prefix_more x : forall a y,
  String.prefix a x = true -> String.prefix a (x ++ y) = true.
Proof.
  induction x as [| b x IH]; intros a y H.
  - destruct a; [destruct y; reflexivity | discriminate H].
  - destruct a as [| a0 a]; [reflexivity |]. simpl in *.
    destruct (ascii_dec a0 b); [apply IH; exact H | discriminate H].
Qed.

Lemma join_head sep p rest : exists tail, Py.join sep (p :: rest) = p ++ tail.
Proof.
  destruct rest as [| q rest].
  - exists EmptyString. simpl. induction p; simpl; congruence.
  - eexists. reflexivity.
Qed.

Lemma join_cons_char sep c p rest :
  Py.join sep (String c p :: rest) = String c (Py.join sep (p :: rest)).
Proof. destruct rest; reflexivity. Qed.

(** The scan of [str.replace] cuts the string at the occurrences of [old]
    it finds, from the left; the pieces hold no occurrence. *)
Lemma replace_pieces a old' new : forall n s,
  (String.length s <= n)%nat ->
  exists p rest,
    Forall (fun x => Py.contains (String a old') x = false) (p :: rest) /\
    s = Py.join (String a old') (p :: rest) /\
    Py.replace_from (String a old') new 0 s = Py.join new (p :: rest).
Proof.
  induction n as [| n IH]; intros s Hlen.
  - destruct s; [| simpl in Hlen; lia].
    exists EmptyString, []. split; [| split; reflexivity].
    constructor; [reflexivity | constructor].
  - destruct s as [| c s].
    + exists EmptyString, []. split; [| split; reflexivity].
      constructor; [reflexivity | constructor].
    + simpl in Hlen. cbn [Py.replace_from].
      destruct (String.prefix (String a old') (String c s)) eqn:Hpre.
      * rewrite replace_from_skip.
        pose proof (prefix_drop _ _ Hpre) as Hs.
        cbn [String.length Py.drop] in Hs.
        replace (String.length (String a old') - 1)%nat with (String.length old')
          by (simpl; lia).
        destruct (IH (Py.drop (String.length old') s)) as [p [rest [Hf [Hj Hr]]]].
        { pose proof (drop_length s (String.length old')). lia. }
        exists EmptyString, (p :: rest). split; [| split].
        -- constructor; [reflexivity | exact Hf].
        -- change (Py.join (String a old') (EmptyString :: p :: rest))
             with (String a old' ++ Py.join (String a old') (p :: rest)).
           rewrite <- Hj. exact Hs.
        -- rewrite Hr. reflexivity.
      * destruct (IH s ltac:(lia)) as [p [rest [Hf [Hj Hr]]]].
        exists (String c p), rest. split; [| split].
        -- pose proof (Forall_inv Hf) as Hp. pose proof (Forall_inv_tail Hf) as Hrest.
           cbv beta in Hp. constructor; [| exact Hrest].
           cbn [Py.contains]. rewrite Hp, orb_false_r.
           destruct (String.prefix (String a old') (String c p)) eqn:Hcp; [| reflexivity].
           destruct (join_head (String a old') p rest) as [tail Ht].
           rewrite Hj, Ht in Hpre.
           change (String c (p ++ tail)) with (String c p ++ tail) in Hpre.
           rewrite (prefix_more _ _ tail Hcp) in Hpre. discriminate Hpre.
        -- rewrite join_cons_char, <- Hj. reflexivity.
        -- rewrite join_cons_char, Hr. reflexivity.
Qed.

Lemma replace_substituted token v :
  substituted token v (Py.replace "<random>" token v).
Proof.
  destruct (replace_pieces "<"%char "random>" token (String.length v) v (Nat.le_refl _))
    as [p [rest [Hf [Hj Hr]]]].
  exists (p :: rest). split; [exact Hf |]. split; [exact Hj | exact Hr].
Qed.

(** *** The token *)

Lemma picked_alnum i : Py.is_alnum (picked i) = true.
Proof.
  unfold picked.
  assert (H : (i mod String.length alphabet < 62)%nat)
    by (apply Nat.mod_upper_bound; discriminate).
  remember (i mod String.length alphabet)%nat as k eqn:Ek. clear Ek.
  do 62 (destruct k as [| k]; [reflexivity |]). lia.
Qed.

Lemma picked_get i :
  String.get (i mod String.length alphabet) alphabet = Some (picked i).
Proof.
  unfold picked.
  assert (H : (i mod String.length alphabet < 62)%nat)
    by (apply Nat.mod_upper_bound; discriminate).
  remember (i mod String.length alphabet)%nat as k eqn:Ek. clear Ek.
  do 62 (destruct k as [| k]; [reflexivity |]). lia.
Qed.

Lemma token_length picks : String.length (token_of picks) = List.length picks.
Proof. induction picks; simpl; auto. Qed.

Lemma token_alnum picks :
  forallb Py.is_alnum (list_ascii_of_string (token_of picks)) = true.
Proof.
  induction picks as [| i picks IH]; simpl; auto.
  rewrite picked_alnum. exact IH.
Qed.

Lemma keys_sent_app a b : keys_sent (a ++ b)%list = (keys_sent a ++ keys_sent b)%list.
Proof.
  induction a as [| e a IH]; simpl; auto.
  destruct (ev_keys e) as [[? k] |]; simpl; rewrite IH; reflexivity.
Qed.

Lemma loop_quiet d :
  forallb loop_event d = true ->
  forallb (fun e => negb (is_choice e)) d = true /\ keys_sent d = [].
Proof.
  induction d as [| e d IH]; simpl; auto.
  intros H. apply andb_true_iff in H. destruct H as [He Hd].
  destruct (loop_event_quiet e He) as [_ [-> ->]]. simpl. auto.
Qed.

Lemma resolved_quiet sel parent wait r d :
  resolved sel parent wait r d ->
  forallb (fun e => negb (is_choice e)) d = true /\ keys_sent d = [].
Proof.
  intros [start [polls [-> [Hl _]]]].
  destruct (loop_quiet polls Hl) as [H1 H2]. simpl. auto.
Qed.

Lemma draws_keys picks : keys_sent (draws picks) = [].
Proof. induction picks; simpl; auto. Qed.

Lemma fields_quiet token form items d r :
  fields (replaced token) form items d r ->
  forallb (fun e => negb (is_choice e)) d = true /\
  exists n,
    keys_sent d
    = map (fun kv => Py.replace "<random>" token (snd kv)) (firstn n items) /\
    (r = Ok tt -> n = List.length items).
Proof.
  induction 1 as [| k v rest dres x Hres | k v out rest dres e d r Hres Hout Hf IH].
  - split; [reflexivity |]. exists 0%nat. auto.
  - destruct (resolved_quiet _ _ _ _ _ Hres) as [H1 H2].
    split; [exact H1 |]. exists 0%nat. split; [exact H2 | discriminate].
  - destruct (resolved_quiet _ _ _ _ _ Hres) as [H1 H2].
    destruct IH as [H3 [n [H4 H5]]]. unfold replaced in Hout. subst out. split.
    + rewrite forallb_app, H1. simpl. exact H3.
    + exists (S n). split.
      * rewrite keys_sent_app, H2. simpl. rewrite H4. reflexivity.
      * intros Hr. simpl. rewrite (H5 Hr). reflexivity.
Qed.

Lemma fields_app typed form items1 items2 d1 d2 r :
  fields typed form items1 d1 (Ok tt) ->
  fields typed form items2 d2 r ->
  fields typed form (items1 ++ items2) (d1 ++ d2)%list r.
Proof.
  intros H1 H2. remember (Ok tt) as r1 eqn:Er.
  induction H1; simpl.
  - exact H2.
  - discriminate.
  - rewrite <- app_assoc. simpl. eapply fields_next; eauto.
Qed.

Lemma fields_stop typed form items1 items2 d1 x :
  fields typed form items1 d1 (Err x) ->
  fields typed form (items1 ++ items2) d1 (Err x).
Proof.
  intros H1. remember (Err x) as r1 eqn:Er.
  induction H1; simpl.
  - discriminate.
  - inversion Er; subst. apply fields_fail; auto.
  - eapply fields_next; eauto.
Qed.

Lemma fields_as_asked token form items d r :
  fields (replaced token) form items d r ->
  fields (substituted token) form items d r.
Proof.
  induction 1 as [| k v rest dres x Hres | k v out rest dres e d r Hres Hout Hf IH].
  - constructor.
  - apply fields_fail. exact Hres.
  - eapply fields_next; eauto. unfold replaced in Hout. subst out.
    apply replace_substituted.
Qed.

Lemma filled_as_asked sel contents r d :
  filled_with replaced sel contents r d -> filled sel contents r d.
Proof.
  intros [picks [dform [rform [dfields [Hl [-> [Hres H]]]]]]].
  exists picks, dform, rform, dfields.
  split; [exact Hl |]. split; [reflexivity |]. split; [exact Hres |].
  destruct rform as [form | x]; [| exact H].
  destruct H as [rf [Hf Hr]]. exists rf. split; [| exact Hr].
  apply fields_as_asked. exact Hf.
Qed.

Section Fill.

Context {B : Type}.
Variable handle : forall A : Type, envE A -> B -> A * B.
Variable rank : Z -> B -> nat.
Hypothesis Hprogress : clock_progress handle rank.

(** More fuel does not change a run that came to an end. *)
Lemma poll_mono sel p deadline fuel : forall els (w : World B),
  poll handle fuel sel p deadline els w <> OutOfFuel ->
  forall fuel', (fuel <= fuel')%nat ->
    poll handle fuel' sel p deadline els w = poll handle fuel sel p deadline els w.
Proof.
  induction fuel as [| fuel IH]; intros els w Hne fuel' Hf.
  - exfalso. apply Hne. reflexivity.
  - destruct fuel' as [| fuel']; [lia |].
    cbn [poll] in *. unfold bind, milli_now, call in *.
    destruct (handle Z TimeTime (env w)) as [t b].
    destruct (t <? deadline)%Z; [| reflexivity].
    destruct (attempt handle sel p els _) as [[els' [e |]] w2 | x w2 |];
      try reflexivity.
    apply IH; [exact Hne | lia].
Qed.

Lemma get_element_mono sel parent wait fuel (w : World B) :
  _get_element handle fuel sel parent wait w <> OutOfFuel ->
  forall fuel', (fuel <= fuel')%nat ->
    _get_element handle fuel' sel parent wait w
    = _get_element handle fuel sel parent wait w.
Proof.
  unfold _get_element, bind, milli_now, call.
  destruct (handle Z TimeTime (env w)) as [t b]. cbn [env trace].
  destruct (handle unit (ImplicitlyWait 0) b) as [[] b2].
  apply poll_mono.
Qed.

(** From some fuel on, a resolution comes to an end, always the same. *)
Lemma get_element_settles sel parent wait (w : World B) :
  settles (fun fuel => _get_element handle fuel sel parent wait) w
    (fun r d _ => resolved sel parent wait r d).
Proof.
  exists (enough handle rank wait (env w)).
  assert (H : ends False (_get_element handle (enough handle rank wait (env w))
                            sel parent wait) w
                (fun r d _ => resolved sel parent wait r d)).
  { eapply ends_weaken;
      [apply (get_element_runs handle rank sel parent wait w Hprogress);
       unfold enough; lia
      | exact (fun H => H) |].
    intros r d w' _ [_ Hr]. exact Hr. }
  split; [| exact H].
  intros fuel Hf. apply get_element_mono; [| exact Hf].
  intros E. unfold ends in H. rewrite E in H. exact H.
Qed.

Lemma settles_const (A : Type) (m : World B -> Outcome B A) w Q :
  ends False m w Q -> settles (fun _ => m) w Q.
Proof.
  intros H. exists 0%nat. split; [reflexivity | exact H].
Qed.

Lemma settles_weaken (A : Type) (m : nat -> World B -> Outcome B A) w
    (Q Q' : Result A -> list Event -> World B -> Prop) :
  settles m w Q ->
  (forall r d w', Q r d w' -> Q' r d w') ->
  settles m w Q'.
Proof.
  intros [fuel0 [Hs Hr]] HQ. exists fuel0. split; [exact Hs |].
  eapply ends_weaken; [exact Hr | exact (fun H => H) |].
  intros r d w' _. apply HQ.
Qed.

Lemma settles_bind (A C : Type) (m : nat -> World B -> Outcome B A)
    (k : nat -> A -> World B -> Outcome B C) w Q :
  settles m w
    (fun r d1 w1 =>
       match r with
       | Ok a =>
           settles (fun fuel => k fuel a) w1
             (fun r2 d2 w2 => Q r2 (d1 ++ d2)%list w2)
       | Err e => Q (Err e) d1 w1
       end) ->
  settles (fun fuel => bind (m fuel) (k fuel)) w Q.
Proof.
  intros [f1 [Hs1 Hr1]]. unfold ends in Hr1.
  destruct (m f1 w) as [a w1 | e w1 |] eqn:E1; [| | contradiction].
  - destruct Hr1 as [d1 [Et1 [f2 [Hs2 Hr2]]]].
    assert (Hk : forall fuel, (Nat.max f1 f2 <= fuel)%nat ->
                   bind (m fuel) (k fuel) w = k f2 a w1).
    { intros fuel Hf. unfold bind. rewrite (Hs1 fuel ltac:(lia)).
      apply Hs2. lia. }
    exists (Nat.max f1 f2). split.
    + intros fuel Hf. rewrite (Hk fuel Hf), (Hk _ (Nat.le_refl _)). reflexivity.
    + unfold ends. rewrite (Hk _ (Nat.le_refl _)). unfold ends in Hr2.
      destruct (k f2 a w1) as [c w2 | e w2 |]; [| | contradiction];
        destruct Hr2 as [d2 [Et2 H2]]; exists (d1 ++ d2)%list;
        rewrite Et2, Et1, app_assoc; auto.
  - destruct Hr1 as [d1 [Et1 H1]].
    assert (Hk : forall fuel, (f1 <= fuel)%nat ->
                   bind (m fuel) (k fuel) w = Raise e w1).
    { intros fuel Hf. unfold bind. rewrite (Hs1 fuel Hf). reflexivity. }
    exists f1. split.
    + intros fuel Hf. rewrite (Hk fuel Hf), (Hk _ (Nat.le_refl _)). reflexivity.
    + unfold ends. rewrite (Hk _ (Nat.le_refl _)). exists d1. auto.
Qed.

Lemma settles_runs (A : Type) (m : nat -> World B -> Outcome B A) w Q :
  settles m w Q ->
  exists fuel0, forall fuel, (fuel0 <= fuel)%nat -> runs (m fuel) w Q.
Proof.
  intros [fuel0 [Hs Hr]]. exists fuel0. intros fuel Hf.
  unfold runs, ends. rewrite (Hs fuel Hf). exact Hr.
Qed.

Lemma fill_items_settles token form items : forall w : World B,
  settles (fun fuel => fill_items handle fuel token form items) w
    (fun r d _ => fields (replaced token) form items d r).
Proof.
  induction items as [| [k v] rest IH]; intros w; cbn [fill_items].
  - apply settles_const, ends_ret. constructor.
  - apply (settles_bind _ _
             (fun fuel => _get_element handle fuel k (Some form) default_wait)
             (fun fuel element =>
                bind (call handle (SendKeys element (Py.replace "<random>" token v)))
                  (fun _ => fill_items handle fuel token form rest))).
    eapply settles_weaken; [apply get_element_settles |].
    intros r dres w1 Hres. destruct r as [e | x].
    + apply (settles_bind _ _
               (fun _ => call handle (SendKeys e (Py.replace "<random>" token v)))
               (fun fuel _ => fill_items handle fuel token form rest)).
      apply settles_const, ends_call. intros [] b E.
      eapply settles_weaken; [apply IH |].
      intros r d w' Hf. cbn [app].
      eapply fields_next; [exact Hres | reflexivity | exact Hf].
    + apply fields_fail. exact Hres.
Qed.

Lemma fill_contents_settles token form contents : forall w : World B,
  settles (fun fuel => fill_contents handle fuel token form contents) w
    (fun r d _ => fields (replaced token) form (List.concat contents) d r).
Proof.
  induction contents as [| c rest IH]; intros w; cbn [fill_contents List.concat].
  - apply settles_const, ends_ret. constructor.
  - apply (settles_bind _ _
             (fun fuel => fill_items handle fuel token form c)
             (fun fuel _ => fill_contents handle fuel token form rest)).
    eapply settles_weaken; [apply fill_items_settles |].
    intros r d1 w1 Hf. destruct r as [[] | x].
    + eapply settles_weaken; [apply IH |].
      intros r d2 w2 Hf2. apply fields_app; assumption.
    + apply fields_stop. exact Hf.
Qed.

Lemma random_choice_ends (w : World B) :
  ends False (random_choice handle alphabet) w
    (fun r d _ => exists i, d = draws [i] /\ r = Ok (picked i)).
Proof.
  unfold random_choice. apply ends_bind, ends_call. intros i b E.
  cbv beta iota. rewrite picked_get. apply ends_ret.
  exists i. split; reflexivity.
Qed.

(** Where [string.letters] exists, the generator expression draws [n]
    characters. *)
Lemma random_string_ends n : forall w : World B,
  ends False (random_string handle Python2 n) w
    (fun r d _ =>
       exists picks, List.length picks = n /\ d = draws picks
                     /\ r = Ok (token_of picks)).
Proof.
  induction n as [| n IH]; intros w; cbn [random_string].
  - apply ends_ret. exists []. auto.
  - unfold string_letters. apply ends_bind, ends_ret. cbv beta iota.
    apply ends_bind.
    eapply ends_weaken; [apply random_choice_ends | exact (fun H => H) |].
    intros r d w1 _ [i [-> ->]]. cbv beta iota.
    apply ends_bind.
    eapply ends_weaken; [apply IH | exact (fun H => H) |].
    intros r d2 w2 _ [picks [Hl [-> ->]]]. cbv beta iota.
    apply ends_ret. exists (i :: picks). rewrite app_nil_r.
    split; [simpl; congruence |]. split; reflexivity.
Qed.

Lemma fill_settles sel contents (w : World B) :
  settles (fun fuel => fill handle Python2 fuel sel contents) w
    (fun r d _ => filled_with replaced sel contents r d).
Proof.
  unfold fill.
  apply (settles_bind _ _
           (fun _ => random_string handle Python2 12)
           (fun fuel r =>
              bind (_get_element handle fuel sel None default_wait)
                (fun form =>
                   bind (fill_contents handle fuel r form contents)
                     (fun _ => ret form)))).
  apply settles_const.
  eapply ends_weaken; [apply (random_string_ends 12) | exact (fun H => H) |].
  intros r d0 w0 _ [picks [Hl [-> ->]]].
  apply (settles_bind _ _
           (fun fuel => _get_element handle fuel sel None default_wait)
           (fun fuel form =>
              bind (fill_contents handle fuel (token_of picks) form contents)
                (fun _ => ret form))).
  eapply settles_weaken; [apply get_element_settles |].
  intros rform dform w1 Hres. destruct rform as [form | x].
  - apply (settles_bind _ _
             (fun fuel => fill_contents handle fuel (token_of picks) form contents)
             (fun _ _ => ret form)).
    eapply settles_weaken; [apply fill_contents_settles |].
    intros rf dfields w2 Hf. destruct rf as [[] | y].
    + apply settles_const, ends_ret. rewrite app_nil_r.
      exists picks, dform, (Ok form), dfields.
      split; [exact Hl |]. split; [reflexivity |]. split; [exact Hres |].
      exists (Ok tt). auto.
    + exists picks, dform, (Ok form), dfields.
      split; [exact Hl |]. split; [reflexivity |]. split; [exact Hres |].
      exists (Err y). auto.
  - exists picks, dform, (Err x), [].
    split; [exact Hl |]. rewrite app_nil_r.
    split; [reflexivity |]. split; [exact Hres |]. auto.
Qed.

End Fill.

(** The texts sent, as the program computes them. *)
Lemma filled_keys sel contents r d :
  filled_with replaced sel contents r d ->
  exists picks rest n,
    d = (draws picks ++ rest)%list /\
    forallb (fun e => negb (is_choice e)) rest = true /\
    String.length (token_of picks) = 12%nat /\
    forallb Py.is_alnum (list_ascii_of_string (token_of picks)) = true /\
    keys_sent rest
    = map (fun kv => Py.replace "<random>" (token_of picks) (snd kv))
        (firstn n (List.concat contents)) /\
    (forall form, r = Ok form -> n = List.length (List.concat contents)).
Proof.
  intros [picks [dform [rform [dfields [Hl [-> [Hres H]]]]]]].
  destruct (resolved_quiet _ _ _ _ _ Hres) as [Hq Hk].
  destruct rform as [form | x].
  - destruct H as [rf [Hf Hr]].
    destruct (fields_quiet _ _ _ _ _ Hf) as [Hq2 [n [Hk2 Hn]]].
    exists picks, (dform ++ dfields)%list, n.
    split; [reflexivity |].
    split; [rewrite forallb_app, Hq, Hq2; reflexivity |].
    split; [rewrite token_length; exact Hl |].
    split; [apply token_alnum |].
    split; [rewrite keys_sent_app, Hk; exact Hk2 |].
    intros form' Hok. apply Hn.
    destruct rf as [[] | y]; [reflexivity | rewrite Hr in Hok; discriminate].
  - destruct H as [-> Hr].
    exists picks, (dform ++ [])%list, 0%nat.
    split; [reflexivity |].
    split; [rewrite app_nil_r; exact Hq |].
    split; [rewrite token_length; exact Hl |].
    split; [apply token_alnum |].
    split; [rewrite app_nil_r; exact Hk |].
    intros form Hok. rewrite Hr in Hok. discriminate.
Qed.

Lemma substituted_all token (items : list (string * string)) :
  Forall2 (fun kv out => substituted token (snd kv) out) items
    (map (fun kv => Py.replace "<random>" token (snd kv)) items).
Proof.
  induction items as [| kv items IH]; simpl; constructor; auto.
  apply replace_substituted.
Qed.

Lemma filled_one_token sel contents r d :
  filled_with replaced sel contents r d -> one_token contents r d.
Proof.
  intros H. destruct (filled_keys _ _ _ _ H) as [picks [rest [n [-> [H1 [H2 [H3 [H4 H5]]]]]]]].
  exists picks, rest, n. repeat (split; [assumption || reflexivity |]).
  split; [| exact H5]. rewrite H4. apply substituted_all.
Qed.

(** C7.  Under Python 3, where the [string] module has no attribute
    [letters], every call of [fill] raises [AttributeError] before it asks
    for anything: no character is drawn, no form is resolved, nothing is
    typed.  The token the claim describes is never made. *)
Theorem fill_needs_string_letters
    (B : Type) (handle : forall A : Type, envE A -> B -> A * B)
    fuel sel contents (w : World B) :
  fill handle Python3 fuel sel contents w = Raise no_letters w /\
  exn_class no_letters = AttributeError.
Proof. split; reflexivity. Qed.

(** X16.  Under Python 2, every call of [fill] draws twelve characters
    among the letters and digits, once, before anything else: they make
    one token.  It then resolves the form, and for each field in order
    resolves the field within the form and sends it the value in which
    that same token stands for every [<random>]. *)
Theorem fill_types_one_random_token
    (B : Type) (handle : forall A : Type, envE A -> B -> A * B)
    (rank : Z -> B -> nat) :
  clock_progress handle rank ->
  forall sel contents (w : World B),
  exists fuel0, forall fuel, (fuel0 <= fuel)%nat ->
    runs (fill handle Python2 fuel sel contents) w
      (fun r d _ => filled sel contents r d /\ one_token contents r d).
Proof.
  intros Hp sel contents w.
  apply settles_runs.
  eapply settles_weaken; [apply (fill_settles handle rank Hp) |].
  intros r d w' H.
  split; [apply (filled_as_asked _ _ _ _ H) | apply (filled_one_token _ _ _ _ H)].
Qed.

Lemma fill_types_one_random_token_witness :
  clock_progress (Toy.handle Toy.form_page) Toy.rank /\
  exists fuel0, forall fuel, (fuel0 <= fuel)%nat ->
    runs (fill (Toy.handle Toy.form_page) Python2 fuel "form"
            [[("q", "<random>@x.org"); ("#q", "id-<random>-<random>")]]) Toy.start
      (fun r d _ =>
         filled "form" [[("q", "<random>@x.org"); ("#q", "id-<random>-<random>")]] r d /\
         one_token [[("q", "<random>@x.org"); ("#q", "id-<random>-<random>")]] r d).
Proof.
  split; [apply toy_progress |].
  apply (fill_types_one_random_token _ _ _ (toy_progress Toy.form_page)).
Defined.

(** Two fields, three placeholders, one token; and the same call under
    Python 3. *)
Example fill_two_fields :
  match fill (Toy.handle Toy.form_page) Python2 9 "form"
          [[("q", "<random>@x.org"); ("#q", "id-<random>-<random>")]] Toy.start with
  | Return form w => Some (form, keys_sent (trace w))
  | _ => None
  end
  = Some (0%nat, ["bklje9AwyMJo@x.org"; "id-bklje9AwyMJo-bklje9AwyMJo"]) /\
  fill (Toy.handle Toy.form_page) Python3 9 "form"
    [[("q", "<random>@x.org"); ("#q", "id-<random>-<random>")]] Toy.start
  = Raise (mkExn AttributeError "module 'string' has no attribute 'letters'")
      Toy.start.
Proof. split; vm_compute; reflexivity. Qed.

(** What the specification asks of the text typed is not met by the value
    left as it is, nor by a text where one placeholder stays. *)
Example substituted_refuses :
  ~ substituted "tok" "a<random>b" "a<random>b" /\
  substituted "tok" "a<random>b" "atokb".
Proof.
  split.
  - intros [pieces [Hf [Hv Ho]]].
    destruct pieces as [| p [| q rest]]; simpl in Hv, Ho.
    + discriminate Hv.
    + subst p. inversion Hf as [| x l Hp _]; subst. discriminate Hp.
    + rewrite Hv in Ho. clear Hv Hf.
      revert Ho. generalize (Py.join "<random>" (q :: rest)) as x.
      generalize (Py.join "tok" (q :: rest)) as y. intros y x.
      induction p as [| c p IH]; simpl; intros Ho.
      * discriminate Ho.
      * inversion Ho. auto.
  - exists ["a"; "b"]. repeat split; repeat constructor.
Qed.

(** ** The trace checks at work *)

(** A lookup after a reading past the deadline is refused. *)
Example deadline_step_refuses_late_lookup :
  steps (deadline_step 1000)
    [Ev TimeTime 400%Z; Ev (FindElements ById Driver "q") (Answer []);
     Ev TimeTime 1200%Z; Ev (FindElements ById Driver "q") (Answer [])]
    false = None.
Proof. reflexivity. Qed.

(** A chain that starts with the name lookup, or goes on after a win, is
    refused; the chain as the resolver runs it is accepted. *)
Example chain_step_refuses_wrong_order :
  steps (chain_step funcs "q" Driver)
    [Ev TimeTime 0%Z; Ev (FindElements ByName Driver "q") (Answer [])]
    ([], []) = None.
Proof. reflexivity. Qed.

Example chain_step_refuses_lookup_after_win :
  steps (chain_step funcs "q" Driver)
    [Ev TimeTime 0%Z; Ev (FindElements ByTagName Driver "q") (Answer [1%nat]);
     Ev (FindElements ByName Driver "q") (Answer [])]
    ([], []) = None.
Proof. reflexivity. Qed.

Example chain_step_refuses_short_attempt :
  steps (chain_step funcs "q" Driver)
    [Ev TimeTime 0%Z; Ev (FindElements ByTagName Driver "q") (Answer []);
     Ev TimeTime 1%Z]
    ([], []) = None.
Proof. reflexivity. Qed.

(** A clock reading is no lookup. *)
Lemma reading_is_no_lookup t l f p v r l' :
  Ev TimeTime t :: l = Ev (FindElements f p v) r :: l' -> False.
Proof.
  intros H.
  apply (f_equal (fun l => match l with e :: _ => ev_time e | [] => None end)) in H.
  discriminate.
Qed.

Ltac no_lookup :=
  cbn [app] in *;
  match goal with
  | H : Ev TimeTime _ :: _ = Ev (FindElements _ _ _) _ :: _ |- _ =>
      exact (reading_is_no_lookup _ _ _ _ _ _ _ H)
  | H : Ev (FindElements _ _ _) _ :: _ = Ev TimeTime _ :: _ |- _ =>
      symmetry in H; exact (reading_is_no_lookup _ _ _ _ _ _ _ H)
  end.

(** A loop that reads the clock and never looks anything up is refused by
    the reading of C1: the reading 400 is below the deadline 1000, and no
    attempt follows it. *)
Example within_deadline_refuses_idle_loop :
  ~ within_deadline "q" None 1 (Err (not_found "q"))
      [Ev TimeTime 0%Z; Ev (ImplicitlyWait 0) tt; Ev TimeTime 400%Z;
       Ev TimeTime 1200%Z].
Proof.
  intros [start [polls [E [H _]]]].
  injection E as _ <-.
  inversion H as [t Ht | t da e Ht [r [rest [Ea _]]] _
                 | t da Ht [r [rest [Ea _]]] _
                 | t da d r0 Ht [r [rest [Ea _]]] _ _]; subst; no_lookup.
Qed.

(** It is refused by the reading of C2 as well: after the reading 400 none
    of the five strategies was tried. *)
Example follows_plan_refuses_idle_loop :
  ~ follows_plan "q" None (Err (not_found "q"))
      [Ev TimeTime 0%Z; Ev (ImplicitlyWait 0) tt; Ev TimeTime 400%Z;
       Ev TimeTime 1200%Z].
Proof.
  intros [start [polls [E [H _]]]].
  injection E as _ <-.
  specialize (H eq_refl eq_refl).
  inversion H as [t | t dl dc r Ht Hc Hr | t dl dc d r Ht Hc Hd]; subst.
  - apply Hr. reflexivity.
  - inversion Ht; subst; no_lookup.
Qed.

(** The link [Home] is found by the fifth strategy, after the first four
    answered nothing. *)
Example get_element_finds_link :
  forall fuel,
    _get_element (Toy.handle Toy.form_page) (S fuel) "Home" None 1 Toy.start
    = Return 3%nat
        (mkWorld (Toy.mkState 800 1)
           [Ev TimeTime 0%Z; Ev (ImplicitlyWait 0) tt; Ev TimeTime 400%Z;
            Ev (FindElements ByTagName Driver "Home") (Answer []);
            Ev (FindElements ByName Driver "Home") (Answer []);
            Ev (FindElements ById Driver "Home") (Answer []);
            Ev (FindElements ByCssSelector Driver "Home") (Answer []);
            Ev (FindElements ByLinkText Driver "Home") (Answer [3%nat]);
            Ev (TagName 3) "a"]).
Proof. intros fuel. reflexivity. Qed.

(** The name [q] matches the hidden token and the text field, in this
    order; the hidden one is skipped. *)
Example get_element_skips_hidden_token :
  forall fuel,
    _get_element (Toy.handle Toy.form_page) (S fuel) "q" None 1 Toy.start
    = Return 2%nat
        (mkWorld (Toy.mkState 800 1)
           [Ev TimeTime 0%Z; Ev (ImplicitlyWait 0) tt; Ev TimeTime 400%Z;
            Ev (FindElements ByTagName Driver "q") (Answer []);
            Ev (FindElements ByName Driver "q") (Answer [1%nat; 2%nat]);
            Ev (TagName 1) "INPUT"; Ev (GetAttribute 1 "type") (Some "hidden");
            Ev (TagName 2) "input"; Ev (GetAttribute 2 "type") (Some "text")]).
Proof. intros fuel. reflexivity. Qed.

(** With a timeout of one second and a clock that steps by 400 ms, a page
    of hidden inputs is polled twice and given up at the reading 1200. *)
Example get_element_gives_up :
  _get_element (Toy.handle Toy.hidden_page) 4 "input" None 1 Toy.start
  = Raise (not_found "input")
      (mkWorld (Toy.mkState 1600 1)
         [Ev TimeTime 0%Z; Ev (ImplicitlyWait 0) tt; Ev TimeTime 400%Z;
          Ev (FindElements ByTagName Driver "input") (Answer [0%nat]);
          Ev (TagName 0) "input"; Ev (GetAttribute 0 "type") (Some "hidden");
          Ev TimeTime 800%Z;
          Ev (FindElements ByTagName Driver "input") (Answer [0%nat]);
          Ev (TagName 0) "input"; Ev (GetAttribute 0 "type") (Some "hidden");
          Ev TimeTime 1200%Z]).
Proof. reflexivity. Qed.

(** [str.replace] as Python has it. *)
Example replace_examples :
  Py.replace "#" "" "#main" = "main" /\
  Py.replace "<random>" "tok" "a<random>b<random>" = "atokbtok" /\
  Py.replace "aa" "b" "aaa" = "ba" /\
  Py.replace "" "-" "ab" = "-a-b-".
Proof. repeat split; reflexivity. Qed.

(** * Beyond the claims: the commands and the edges of the resolver *)

(** ** What the resolver asks and raises *)

Lemma loop_resolver d :
  forallb loop_event d = true -> forallb resolver_event d = true.
Proof.
  induction d as [| e d IH]; simpl; auto.
  intros H. apply andb_true_iff in H. destruct H as [He Hd].
  unfold resolver_event at 1. rewrite He. simpl. auto.
Qed.

(** X1.  Under a clock that moves on, a call of [_get_element] asks
    nothing but the time, the implicit wait, lookups, tag names and
    attributes: it never clicks, types, sleeps or navigates; and if it
    raises, the error is the not-found error naming the selector or the
    [UnboundLocalError] on [elements]. *)
Theorem get_element_only_reads
    (B : Type) (handle : forall A : Type, envE A -> B -> A * B)
    (rank : Z -> B -> nat) :
  clock_progress handle rank ->
  forall sel parent wait (w : World B),
  exists fuel0, forall fuel, (fuel0 <= fuel)%nat ->
    runs (_get_element handle fuel sel parent wait) w
      (fun r d _ =>
         forallb resolver_event d = true /\
         forall x, r = Err x -> x = not_found sel \/ x = unbound_elements).
Proof.
  intros Hp sel parent wait w.
  exists (S (rank (fst (handle Z TimeTime (env w)) + wait * 1000)%Z (env w))).
  intros fuel Hf. unfold runs.
  eapply ends_weaken;
    [apply (get_element_runs handle rank sel parent wait w Hp fuel Hf)
    | exact (fun H => H) |].
  intros r d w' _ [_ [start [polls [-> Hq]]]].
  destruct Hq as [Hl [_ [_ [_ Hr]]]]. split.
  - cbn [forallb]. rewrite (loop_resolver polls Hl). reflexivity.
  - intros x ->. exact (proj2 Hr).
Qed.

Lemma get_element_only_reads_witness :
  clock_progress (Toy.handle Toy.form_page) Toy.rank /\
  exists fuel0, forall fuel, (fuel0 <= fuel)%nat ->
    runs (_get_element (Toy.handle Toy.form_page) fuel ".field" None 1) Toy.start
      (fun r d _ =>
         forallb resolver_event d = true /\
         forall x, r = Err x -> x = not_found ".field" \/ x = unbound_elements).
Proof.
  split; [apply toy_progress |].
  apply (get_element_only_reads _ _ _ (toy_progress Toy.form_page)).
Defined.

(** On the page where every lookup raises, the error of [assert_element]
    is the [UnboundLocalError], not the assertion failure. *)
Lemma assert_element_never_fails_the_test_witness :
  assert_element (Toy.handle Toy.broken_page) Python3 1 "main" Toy.start
  = Raise unbound_elements
      (mkWorld (Toy.mkState 1800 1)
         [Ev (TimeSleep 1000) tt; Ev TimeTime 1000%Z; Ev (ImplicitlyWait 0) tt;
          Ev TimeTime 1400%Z;
          Ev (FindElements ByTagName Driver "main") (NoSuchElement "no such element");
          Ev (FindElements ByName Driver "main") (NoSuchElement "no such element");
          Ev (FindElements ById Driver "main") (NoSuchElement "no such element");
          Ev (FindElements ByCssSelector Driver "main") (NoSuchElement "no such element");
          Ev (FindElements ByLinkText Driver "main") (NoSuchElement "no such element")]) /\
  exn_class unbound_elements <> GhostlyTestFailed.
Proof.
  split; [reflexivity |].
  eapply (assert_element_never_fails_the_test _ (Toy.handle Toy.broken_page)
            Python3 1 "main" Toy.start).
  reflexivity.
Defined.

(** ** Waiting for no time *)

(** X3.  With [wait] at or below zero, and a clock that does not run
    backwards between the two readings, [_get_element] makes no lookup at
    all: it raises the not-found error at once, whether or not the page
    holds the element. *)
Theorem get_element_without_wait_never_looks
    (B : Type) (handle : forall A : Type, envE A -> B -> A * B)
    fuel sel parent wait (w : World B) :
  let start := fst (handle Z TimeTime (env w)) in
  let b1 := snd (handle Z TimeTime (env w)) in
  let b2 := snd (handle unit (ImplicitlyWait 0) b1) in
  let t := fst (handle Z TimeTime b2) in
  (wait <= 0)%Z ->
  (start <= t)%Z ->
  _get_element handle (S fuel) sel parent wait w
  = Raise (not_found sel)
      (mkWorld (snd (handle Z TimeTime b2))
         (trace w ++ [Ev TimeTime start; Ev (ImplicitlyWait 0) tt; Ev TimeTime t])%list).
Proof.
  cbv zeta. intros Hw Ht.
  unfold _get_element, bind, milli_now, call. cbn [poll].
  unfold bind, milli_now, call.
  destruct (handle Z TimeTime (env w)) as [start b1]. cbn [env trace fst snd] in *.
  destruct (handle unit (ImplicitlyWait 0) b1) as [[] b2]. cbn [env trace fst snd] in *.
  destruct (handle Z TimeTime b2) as [t b3]. cbn [env trace fst snd] in *.
  assert (E : (t <? start + wait * 1000)%Z = false) by (apply Z.ltb_ge; lia).
  rewrite E. unfold raise, not_found. rewrite <- !app_assoc. reflexivity.
Qed.

Lemma get_element_without_wait_never_looks_witness :
  (0 <= 0)%Z /\ (0 <= 400)%Z /\
  _get_element (Toy.handle Toy.form_page) 1 "input" None 0 Toy.start
  = Raise (not_found "input")
      (mkWorld (Toy.mkState 800 1)
         [Ev TimeTime 0%Z; Ev (ImplicitlyWait 0) tt; Ev TimeTime 400%Z]).
Proof.
  split; [lia |]. split; [lia |].
  apply (get_element_without_wait_never_looks _ (Toy.handle Toy.form_page)
           0 "input" None 0%Z Toy.start); simpl; lia.
Defined.

(** Adding a zero to [start] leaves every comparison with it as it was:
    with a timeout of zero the deadline is the first reading. *)
Lemma float_lt_add_zero t start s :
  Py.float_lt t (Py.float_add start (S754_zero s)) = Py.float_lt t start.
Proof.
  unfold Py.float_lt, Py.float_add, SFltb.
  destruct start as [s0 | s0 | | s0 m e]; try reflexivity.
  destruct s0, s; destruct t as [? | [] | | [] ? ?]; reflexivity.
Qed.

(** X4.  When the reading at the first loop test is not below
    [start + timeout], as with a timeout of zero and a clock that does not
    run backwards, [xpath_wait] never selects: it raises the timeout error
    that reports zero attempts. *)
Theorem xpath_wait_without_timeout_never_selects
    (B : Type) (handle : forall A : Type, envE A -> B -> A * B)
    py float_str fuel xp visible timeout tf sleep (w : World B) :
  let start := fst (handle spec_float Clock (env w)) in
  let b1 := snd (handle spec_float Clock (env w)) in
  let t := fst (handle spec_float Clock b1) in
  Py.to_float timeout = Some tf ->
  Py.float_lt t (Py.float_add start tf) = false ->
  xpath_wait handle py float_str (S fuel) xp visible timeout sleep w
  = Raise (not_selected float_str xp timeout 0)
      (mkWorld (snd (handle spec_float Clock b1))
         (trace w ++ [Ev Clock start; Ev Clock t])%list).
Proof.
  cbv zeta. intros Hw Ht.
  unfold xpath_wait, bind, call, float_plus. rewrite Hw. unfold ret.
  cbn [wait_exists]. unfold bind, call.
  destruct (handle spec_float Clock (env w)) as [start b1].
  cbn [env trace fst snd] in *.
  destruct (handle spec_float Clock b1) as [t b2]. cbn [env trace fst snd] in *.
  rewrite Ht. unfold raise, not_selected. rewrite <- !app_assoc. reflexivity.
Qed.

Lemma xpath_wait_without_timeout_never_selects_witness :
  Py.to_float (Int 0) = Some (S754_zero false) /\
  Py.float_lt (Toy.seconds 400)
    (Py.float_add (Toy.seconds 0) (S754_zero false)) = false /\
  xpath_wait (Toy.handle Toy.form_page) Python3 Toy.float_str 1 "//form" true
    (Int 0) 250 Toy.start
  = Raise (not_selected Toy.float_str "//form" (Int 0) 0)
      (mkWorld (Toy.mkState 800 1)
         [Ev Clock (Toy.seconds 0); Ev Clock (Toy.seconds 400)]).
Proof.
  split; [reflexivity |]. split; [rewrite float_lt_add_zero; reflexivity |].
  apply (xpath_wait_without_timeout_never_selects _ (Toy.handle Toy.form_page)
           Python3 Toy.float_str 0 "//form" true (Int 0) (S754_zero false)
           250%Z Toy.start).
  - reflexivity.
  - rewrite float_lt_add_zero. reflexivity.
Defined.

(** ** The commands built on the resolver *)

Lemma loop_event_idle e :
  loop_event e = true -> is_submit e = false /\ is_click e = false.
Proof.
  destruct e as [A op r]. destruct op; simpl; try discriminate; auto.
Qed.

Lemma resolved_idle sel parent wait r d :
  resolved sel parent wait r d ->
  forallb (fun e => negb (is_submit e)) d = true.
Proof.
  intros [start [polls [-> [Hl _]]]]. cbn [forallb is_submit negb andb].
  induction polls as [| e polls IH]; simpl; auto.
  simpl in Hl. apply andb_true_iff in Hl. destruct Hl as [He Hp].
  destruct (loop_event_idle e He) as [-> _]. simpl. auto.
Qed.

Lemma draws_idle picks :
  forallb (fun e => negb (is_submit e)) (draws picks) = true.
Proof. induction picks; simpl; auto. Qed.

Lemma fields_idle typed form items d r :
  fields typed form items d r ->
  forallb (fun e => negb (is_submit e)) d = true.
Proof.
  induction 1.
  - reflexivity.
  - eapply resolved_idle; eauto.
  - rewrite forallb_app, (resolved_idle _ _ _ _ _ H). simpl. exact IHfields.
Qed.

Lemma filled_idle typed sel contents r d :
  filled_with typed sel contents r d ->
  forallb (fun e => negb (is_submit e)) d = true.
Proof.
  intros [picks [dform [rform [dfields [_ [-> [Hres H]]]]]]].
  rewrite !forallb_app, draws_idle, (resolved_idle _ _ _ _ _ Hres). simpl.
  destruct rform as [form | x].
  - destruct H as [rf [Hf _]]. eapply fields_idle; eauto.
  - destruct H as [-> _]. reflexivity.
Qed.

Lemma contains_empty s : Py.contains "" s = true.
Proof. destruct s; reflexivity. Qed.

Section Commands.

Context {B : Type}.
Variable handle : forall A : Type, envE A -> B -> A * B.
Variable rank : Z -> B -> nat.
Hypothesis Hprogress : clock_progress handle rank.

Lemma click_settles sel (w : World B) :
  settles (fun fuel => click handle fuel sel) w (fun r d _ => clicked sel r d).
Proof.
  unfold click.
  apply (settles_bind _ _
           (fun fuel => _get_element handle fuel sel None default_wait)
           (fun _ element => call handle (Click element))).
  eapply settles_weaken; [apply (get_element_settles handle rank Hprogress) |].
  intros rr dres w1 Hres. destruct rr as [e | x].
  - apply settles_const, ends_call. intros [] b E.
    exists dres, (Ok e). auto.
  - exists dres, (Err x). auto.
Qed.

Lemma submit_settles sel contents (w : World B) :
  settles (fun fuel => submit handle Python2 fuel sel contents) w
    (fun r d _ => submitted Python2 sel contents r d).
Proof.
  unfold submit.
  apply (settles_bind _ _
           (fun fuel => fill handle Python2 fuel sel contents)
           (fun _ form => call handle (Submit form))).
  eapply settles_weaken; [apply (fill_settles handle rank Hprogress) |].
  intros rfill dfill w1 Hf. apply filled_as_asked in Hf.
  destruct rfill as [form | x].
  - apply settles_const, ends_call. intros [] b E.
    exists dfill, (Ok form). auto.
  - exists dfill, (Err x). split; [exact Hf |].
    split; [reflexivity |]. split; [reflexivity |].
    eapply filled_idle; eauto.
Qed.

End Commands.

(** X5.  [click] resolves the element with the default wait and then
    clicks it, once, as its last request; when the resolution fails, the
    resolver's error comes through and nothing is clicked. *)
Theorem click_clicks_what_it_resolved
    (B : Type) (handle : forall A : Type, envE A -> B -> A * B)
    (rank : Z -> B -> nat) :
  clock_progress handle rank ->
  forall sel (w : World B),
  exists fuel0, forall fuel, (fuel0 <= fuel)%nat ->
    runs (click handle fuel sel) w (fun r d _ => clicked sel r d).
Proof.
  intros Hp sel w. apply settles_runs. apply (click_settles handle rank Hp).
Qed.

Lemma click_clicks_what_it_resolved_witness :
  clock_progress (Toy.handle Toy.form_page) Toy.rank /\
  exists fuel0, forall fuel, (fuel0 <= fuel)%nat ->
    runs (click (Toy.handle Toy.form_page) fuel "Home") Toy.start
      (fun r d _ => clicked "Home" r d).
Proof.
  split; [apply toy_progress |].
  apply (click_clicks_what_it_resolved _ _ _ (toy_progress Toy.form_page)).
Defined.

(** X6.  Where [string.letters] exists, [submit] fills the form and then
    submits it, once, as its last request, on the element [fill] returned;
    when filling fails, at the form or at any field, the error comes
    through and the form is not submitted.  Where it does not exist,
    [submit] raises the [AttributeError] of [fill] before any request. *)
Theorem submit_submits_only_a_filled_form
    (B : Type) (handle : forall A : Type, envE A -> B -> A * B)
    (rank : Z -> B -> nat) :
  clock_progress handle rank ->
  forall py sel contents (w : World B),
  exists fuel0, forall fuel, (fuel0 <= fuel)%nat ->
    runs (submit handle py fuel sel contents) w
      (fun r d _ => submitted py sel contents r d).
Proof.
  intros Hp py sel contents w. destruct py.
  - apply settles_runs. apply (submit_settles handle rank Hp).
  - exists 0%nat. intros fuel _. unfold runs, ends.
    change (submit handle Python3 fuel sel contents w) with (Raise (A := unit) no_letters w).
    exists []. rewrite app_nil_r. repeat split.
Qed.

Lemma submit_submits_only_a_filled_form_witness :
  clock_progress (Toy.handle Toy.form_page) Toy.rank /\
  exists fuel0, forall fuel, (fuel0 <= fuel)%nat ->
    runs (submit (Toy.handle Toy.form_page) Python2 fuel "form"
            [[("q", "x"); ("nowhere", "y")]])
      Toy.start
      (fun r d _ => submitted Python2 "form" [[("q", "x"); ("nowhere", "y")]] r d).
Proof.
  split; [apply toy_progress |].
  apply (submit_submits_only_a_filled_form _ _ _ (toy_progress Toy.form_page)).
Defined.


(** X8.  [assert_text] with the empty text never fails the test: the empty
    string is in every text, so the only errors it can raise are the
    resolver's. *)
Theorem assert_text_empty_only_resolves
    (B : Type) (handle : forall A : Type, envE A -> B -> A * B)
    (rank : Z -> B -> nat) :
  clock_progress handle rank ->
  forall py sel (w : World B),
  exists fuel0, forall fuel, (fuel0 <= fuel)%nat ->
    runs (assert_text handle py fuel "" sel) w
      (fun r d _ =>
         forall x, r = Err x -> x = not_found sel \/ x = unbound_elements).
Proof.
  intros Hp py sel w.
  exists (enough handle rank default_wait
            (snd (handle unit (TimeSleep 1000) (env w)))).
  intros fuel Hf. unfold runs.
  eapply ends_weaken;
    [apply (assert_text_runs handle rank py Hp fuel "" sel w Hf) | exact (fun H => H) |].
  intros r d w' _ [dres [rr [tail [_ [Hres H]]]]] x Hx.
  destruct rr as [e | y].
  - destruct H as [[actual [_ [_ Hr]]] | [actual [shown [Hc _]]]].
    + rewrite Hr in Hx. discriminate.
    + rewrite contains_empty in Hc. discriminate.
  - destruct H as [_ Hr]. rewrite Hr in Hx. inversion Hx; subst y.
    destruct Hres as [start [polls [_ Hq]]].
    exact (proj2 (proj2 (proj2 (proj2 (proj2 Hq))))).
Qed.

Lemma assert_text_empty_only_resolves_witness :
  clock_progress (Toy.handle Toy.form_page) Toy.rank /\
  exists fuel0, forall fuel, (fuel0 <= fuel)%nat ->
    runs (assert_text (Toy.handle Toy.form_page) Python3 fuel "" "form") Toy.start
      (fun r d _ =>
         forall x, r = Err x -> x = not_found "form" \/ x = unbound_elements).
Proof.
  split; [apply toy_progress |].
  apply (assert_text_empty_only_resolves _ _ _ (toy_progress Toy.form_page)).
Defined.

(** ** The prefixed branches strip every prefix character *)

Lemma replace_char_gone c s :
  Py.contains (String c "") (Py.replace (String c "") "" s) = false.
Proof.
  unfold Py.replace.
  induction s as [| a s IH]; [reflexivity |].
  cbn [Py.replace_from String.prefix].
  destruct (ascii_dec c a) as [E | E].
  - destruct s; exact IH.
  - cbn [Py.contains String.prefix].
    destruct (ascii_dec c a); [contradiction |]. exact IH.
Qed.

Lemma chain_by_hashless_id v p d : forall st st',
  Py.contains "#" v = false ->
  (fst st = [] \/ fst st = [ById]) ->
  steps (chain_step [ById] v p) d st = Some st' ->
  forallb by_hashless_id d = true.
Proof.
  induction d as [| e d IH]; intros [fs c] st' Hv Hfs H; [reflexivity |].
  cbn [steps] in H.
  destruct (chain_step [ById] v p (fs, c) e) as [[fs1 c1] |] eqn:E;
    [| discriminate].
  cbn [forallb]. rewrite (IH (fs1, c1) st' Hv); [| | exact H].
  - rewrite andb_true_r. clear IH H.
    unfold chain_step in E. unfold by_hashless_id.
    destruct (ev_time e) as [t |] eqn:Et.
    + destruct e as [A op r]; destruct op; simpl in Et; try discriminate.
      reflexivity.
    + destruct (ev_find e) as [[[[b p'] v'] r'] |]; [| reflexivity].
      cbn [fst] in Hfs. destruct Hfs as [-> | ->]; [discriminate |].
      destruct (by_eqb b ById) eqn:Eb; [| discriminate]. cbn [andb] in *.
      destruct (parent_eqb p' p); [| discriminate]. cbn [andb] in *.
      destruct (String.eqb v' v) eqn:Ev; [| discriminate].
      apply String.eqb_eq in Ev. subst v'. rewrite Hv. reflexivity.
  - clear IH H. unfold chain_step in E. cbn [fst] in *.
    destruct (ev_time e).
    + destruct fs; [| discriminate]. inversion E; subst. auto.
    + destruct (ev_find e) as [[[[b p'] v'] r'] |].
      * destruct Hfs as [-> | ->]; [discriminate |].
        destruct (by_eqb b ById && parent_eqb p' p && String.eqb v' v);
          [| discriminate].
        inversion E; subst. left. destruct (won r'); reflexivity.
      * destruct (ev_checked e).
        -- destruct (existsb (Nat.eqb e0) c); [| discriminate].
           inversion E; subst. exact Hfs.
        -- inversion E; subst. exact Hfs.
Qed.

(** X9.  For a selector that starts with [#], every lookup the resolver
    makes is by id, on a value that holds no [#] at all: an element whose
    id contains a [#] cannot be reached through this branch. *)
Theorem hash_selector_never_looks_up_a_hash
    (B : Type) (handle : forall A : Type, envE A -> B -> A * B)
    (rank : Z -> B -> nat) :
  clock_progress handle rank ->
  forall sel parent wait (w : World B),
    Py.startswith "#" sel = true ->
    exists fuel0, forall fuel, (fuel0 <= fuel)%nat ->
      runs (_get_element handle fuel sel parent wait) w
        (fun _ d _ => forallb by_hashless_id d = true).
Proof.
  intros Hp sel parent wait w Hsel.
  exists (S (rank (fst (handle Z TimeTime (env w)) + wait * 1000)%Z (env w))).
  intros fuel Hf. unfold runs.
  eapply ends_weaken;
    [apply (get_element_runs handle rank sel parent wait w Hp fuel Hf)
    | exact (fun H => H) |].
  intros r d w' _ [_ [start [polls [-> Hq]]]].
  destruct Hq as [_ [_ [[st Hc] _]]].
  unfold plan_of, value_of in Hc. rewrite Hsel in Hc.
  cbn [forallb]. change (by_hashless_id (Ev TimeTime start)) with true.
  change (by_hashless_id (Ev (ImplicitlyWait 0) tt)) with true. cbn [andb].
  eapply (chain_by_hashless_id _ _ polls ([], cand None) st); [| left; reflexivity | exact Hc].
  apply (replace_char_gone "#"%char sel).
Qed.

Lemma hash_selector_never_looks_up_a_hash_witness :
  clock_progress (Toy.handle Toy.hash_page) Toy.rank /\
  Py.startswith "#" "#a#b" = true /\
  exists fuel0, forall fuel, (fuel0 <= fuel)%nat ->
    runs (_get_element (Toy.handle Toy.hash_page) fuel "#a#b" None 1) Toy.start
      (fun _ d _ => forallb by_hashless_id d = true).
Proof.
  split; [apply toy_progress |]. split; [reflexivity |].
  apply (hash_selector_never_looks_up_a_hash _ _ _ (toy_progress Toy.hash_page)).
  reflexivity.
Defined.

(** ** Values without a placeholder *)

Lemma replace_absent old new s :
  old <> EmptyString ->
  Py.contains old s = false ->
  Py.replace old new s = s.
Proof.
  intros Hold. unfold Py.replace.
  destruct old as [| a o]; [congruence |]. clear Hold.
  induction s as [| c s IH]; intros H; [reflexivity |].
  cbn [Py.contains] in H. apply orb_false_iff in H. destruct H as [Hp Hc].
  cbn [Py.replace_from]. rewrite Hp. rewrite (IH Hc). reflexivity.
Qed.

Lemma firstn_in (A : Type) n (l : list A) x : In x (firstn n l) -> In x l.
Proof.
  revert l. induction n as [| n IH]; intros l; simpl.
  - intros [].
  - destruct l as [| a l]; simpl; [intros [] |].
    intros [-> | H]; auto.
Qed.

(** X10.  When no value holds the placeholder [<random>], [fill] types the
    values exactly as they were given, in the order of the fields, and all
    of them when it returns; this where [string.letters] exists.  Where it
    does not, nothing is typed: the call raises before any request. *)
Theorem fill_types_plain_values_unchanged
    (B : Type) (handle : forall A : Type, envE A -> B -> A * B)
    (rank : Z -> B -> nat) :
  clock_progress handle rank ->
  forall py sel contents (w : World B),
    (forall kv, In kv (List.concat contents) ->
                Py.contains "<random>" (snd kv) = false) ->
    exists fuel0, forall fuel, (fuel0 <= fuel)%nat ->
      runs (fill handle py fuel sel contents) w
        (fun r d _ => typed_plain py contents r d).
Proof.
  intros Hp py sel contents w Hplain. destruct py.
  - apply settles_runs.
    eapply settles_weaken; [apply (fill_settles handle rank Hp) |].
    intros r d w' H.
    destruct (filled_keys _ _ _ _ H)
      as [picks [rest [n [-> [_ [_ [_ [Hk Hn]]]]]]]].
    exists n. split; [| exact Hn].
    rewrite keys_sent_app, draws_keys, Hk. cbn [app].
    apply map_ext_in. intros kv Hin.
    apply replace_absent; [discriminate |].
    apply Hplain. eapply firstn_in. exact Hin.
  - exists 0%nat. intros fuel _. unfold runs, ends.
    change (fill handle Python3 fuel sel contents w)
      with (Raise (A := Element) no_letters w).
    exists []. rewrite app_nil_r. repeat split.
Qed.

Lemma fill_types_plain_values_unchanged_witness :
  clock_progress (Toy.handle Toy.form_page) Toy.rank /\
  (forall kv, In kv (List.concat [[("q", "Hello"); ("#q", " World")]]) ->
              Py.contains "<random>" (snd kv) = false) /\
  exists fuel0, forall fuel, (fuel0 <= fuel)%nat ->
    runs (fill (Toy.handle Toy.form_page) Python2 fuel "form"
            [[("q", "Hello"); ("#q", " World")]]) Toy.start
      (fun r d _ => typed_plain Python2 [[("q", "Hello"); ("#q", " World")]] r d).
Proof.
  assert (H : forall kv, In kv (List.concat [[("q", "Hello"); ("#q", " World")]]) ->
                         Py.contains "<random>" (snd kv) = false).
  { simpl. intros kv [<- | [<- | []]]; reflexivity. }
  split; [apply toy_progress |]. split; [exact H |].
  apply (fill_types_plain_values_unchanged _ _ _ (toy_progress Toy.form_page)
           Python2 "form" [[("q", "Hello"); ("#q", " World")]] Toy.start H).
Defined.

(** ** Where the [UnboundLocalError] can come from *)

Section Unbound.

Context {B : Type}.
Variable handle : forall A : Type, envE A -> B -> A * B.

Lemma try_funcs_bound (cut : Prop) sel p fs : forall els (w : World B),
  ends cut (try_funcs handle fs p sel els) w
    (fun r d _ =>
       exists els', r = Ok els' /\
         (els' = None -> els = None /\ forallb raised_find d = true)).
Proof.
  induction fs as [| f fs' IH]; intros els w; cbn [try_funcs].
  - apply ends_ret. exists els. auto.
  - apply ends_bind, ends_try. unfold find_elements.
    apply ends_bind, ends_bind, ends_call. intros r b E.
    destruct r as [l | msg]; cbn [reply].
    + apply ends_ret, ends_ret. cbv beta iota.
      destruct l as [| x l]; cbn [nonempty].
      * eapply ends_weaken; [apply (IH (Some [])) | exact (fun H => H) |].
        intros r d w' _ [els' [-> H]]. exists els'. split; [reflexivity |].
        intros He. destruct (H He) as [Hn _]. discriminate.
      * apply ends_ret. exists (Some (x :: l)). split; [reflexivity |].
        discriminate.
    + apply ends_raise. cbv beta iota. cbn [exn_class class_eqb].
      apply ends_ret. cbv beta iota.
      eapply ends_weaken; [apply (IH els) | exact (fun H => H) |].
      intros r d w' _ [els' [-> H]]. exists els'. split; [reflexivity |].
      intros He. destruct (H He) as [Hn Hr]. split; [exact Hn |].
      cbn [app forallb]. rewrite Hr. reflexivity.
Qed.

Lemma attempt_unbound (cut : Prop) sel p els (w : World B) :
  ends cut (attempt handle sel p els) w
    (fun r d _ =>
       match r with
       | Ok (els', _) => prefixed sel = false -> els' <> None
       | Err x =>
           x = unbound_elements /\ prefixed sel = false /\ els = None /\
           forallb raised_find d = true
       end).
Proof.
  unfold attempt, prefixed.
  apply ends_try, ends_bind.
  destruct (Py.startswith "#" sel) eqn:Hhash;
    [| destruct (Py.startswith "." sel) eqn:Hdot].
  - unfold find_elements. apply ends_bind, ends_bind, ends_call. intros r b E.
    destruct r as [l | msg]; cbn [reply].
    + apply ends_ret, ends_ret. cbv beta iota.
      eapply ends_weaken; [apply (scan_tail_scans handle) | exact (fun H => H) |].
      intros r d w' _ [found [-> Hs]]. cbv beta iota. discriminate.
    + apply ends_raise. cbv beta iota. cbn [exn_class class_eqb].
      apply ends_ret. discriminate.
  - unfold find_elements. apply ends_bind, ends_bind, ends_call. intros r b E.
    destruct r as [l | msg]; cbn [reply].
    + apply ends_ret, ends_ret. cbv beta iota.
      eapply ends_weaken; [apply (scan_tail_scans handle) | exact (fun H => H) |].
      intros r d w' _ [found [-> Hs]]. cbv beta iota. discriminate.
    + apply ends_raise. cbv beta iota. cbn [exn_class class_eqb].
      apply ends_ret. discriminate.
  - eapply ends_weaken; [apply (try_funcs_bound cut sel p funcs els) | exact (fun H => H) |].
    intros r d w1 _ [els' [-> H]]. cbv beta iota.
    eapply ends_weaken; [apply (scan_tail_scans handle) | exact (fun H => H) |].
    intros r d2 w' _ Hr. destruct els' as [l |].
    + destruct Hr as [found [-> Hs]]. cbv beta iota. discriminate.
    + destruct Hr as [-> ->]. cbv beta iota.
      cbn [exn_class unbound_elements class_eqb].
      destruct (H eq_refl) as [Hn Hf]. rewrite app_nil_r. auto.
Qed.

Lemma poll_unbound sel p deadline fuel : forall els (w : World B),
  ends True (poll handle fuel sel p deadline els) w
    (fun r d _ =>
       r = Err unbound_elements ->
       prefixed sel = false /\ els = None /\
       exists t da, d = Ev TimeTime t :: da /\ forallb raised_find da = true).
Proof.
  induction fuel as [| fuel IH]; intros els w; cbn [poll].
  - exact I.
  - apply ends_bind. unfold milli_now. apply ends_call. intros t b E.
    cbv beta iota. destruct (t <? deadline)%Z.
    + apply ends_bind.
      eapply ends_weaken; [apply (attempt_unbound True) | exact (fun H => H) |].
      intros r d w1 _ Hr. destruct r as [[els' [e |]] | x]; cbv beta iota.
      * apply ends_ret. discriminate.
      * eapply ends_weaken; [apply (IH els') | exact (fun H => H) |].
        intros r d2 w2 _ H2 Hx. destruct (H2 Hx) as [Hp [He _]].
        exfalso. exact (Hr Hp He).
      * destruct Hr as [-> [Hp [He Hf]]]. intros _.
        split; [exact Hp |]. split; [exact He |].
        exists t, d. auto.
    + apply ends_raise. discriminate.
Qed.

End Unbound.

(** X11.  Whatever the environment and the fuel, when a call of
    [_get_element] raises the [UnboundLocalError], the selector starts
    with neither [#] nor [.], the loop read the clock once only, and every
    lookup made raised: the error belongs to the first attempt of the
    chain of strategies, and to no other place. *)
Theorem unbound_error_only_in_first_attempt
    (B : Type) (handle : forall A : Type, envE A -> B -> A * B)
    fuel sel parent wait (w : World B) :
  ends True (_get_element handle fuel sel parent wait) w
    (fun r d _ => unbound_in_first_attempt sel r d).
Proof.
  unfold _get_element. apply ends_bind. unfold milli_now.
  apply ends_call. intros start b E. cbv beta iota.
  apply ends_bind, ends_call. intros [] b2 E2. cbv beta iota.
  eapply ends_weaken; [apply (poll_unbound handle) | exact (fun H => H) |].
  intros r d w' _ H Hx. destruct (H Hx) as [Hp [_ [t [da [-> Hf]]]]].
  split; [exact Hp |]. exists start, t, da. auto.
Qed.

Section UnboundTrigger.

Context {B : Type}.
Variable handle : forall A : Type, envE A -> B -> A * B.

Lemma try_funcs_all_raise (cut : Prop) sel p fs :
  lookups_raise handle p ->
  forall els (w : World B),
    ends cut (try_funcs handle fs p sel els) w (fun r _ _ => r = Ok els).
Proof.
  intros Hraise. induction fs as [| f fs' IH]; intros els w; cbn [try_funcs].
  - apply ends_ret. reflexivity.
  - apply ends_bind, ends_try. unfold find_elements.
    apply ends_bind, ends_bind, ends_call. intros r b E.
    destruct (Hraise (env w) f sel) as [msg Hm]. rewrite E in Hm.
    cbn [fst] in Hm. subst r. cbn [reply].
    apply ends_raise. cbv beta iota. cbn [exn_class class_eqb].
    apply ends_ret. cbv beta iota.
    eapply ends_weaken; [apply (IH els) | exact (fun H => H) |].
    intros r d w' _ Hr. exact Hr.
Qed.

Lemma attempt_all_raise (cut : Prop) sel p (w : World B) :
  lookups_raise handle p ->
  prefixed sel = false ->
  ends cut (attempt handle sel p None) w (fun r _ _ => r = Err unbound_elements).
Proof.
  intros Hraise Hp. unfold prefixed in Hp. apply orb_false_iff in Hp.
  destruct Hp as [Hhash Hdot]. unfold attempt. rewrite Hhash, Hdot.
  apply ends_try, ends_bind.
  eapply ends_weaken;
    [apply (try_funcs_all_raise cut sel p funcs Hraise None) | exact (fun H => H) |].
  intros r d w1 _ ->. cbv beta iota.
  apply ends_bind. cbn [read_local]. apply ends_raise.
  cbv beta iota. cbn [exn_class class_eqb]. reflexivity.
Qed.

End UnboundTrigger.

(** X12.  When every lookup under the scope raises, the selector starts
    with neither [#] nor [.], and the first reading of the loop is still
    before the deadline, [_get_element] raises the [UnboundLocalError] in
    its first attempt, whatever the rest of the environment. *)
Theorem unbound_error_when_all_lookups_raise
    (B : Type) (handle : forall A : Type, envE A -> B -> A * B)
    fuel sel parent wait (w : World B) :
  let start := fst (handle Z TimeTime (env w)) in
  let b1 := snd (handle Z TimeTime (env w)) in
  let b2 := snd (handle unit (ImplicitlyWait 0) b1) in
  let t := fst (handle Z TimeTime b2) in
  lookups_raise handle (scope parent) ->
  prefixed sel = false ->
  (t < start + wait * 1000)%Z ->
  runs (_get_element handle (S fuel) sel parent wait) w
    (fun r _ _ => r = Err unbound_elements).
Proof.
  cbv zeta. intros Hraise Hp Ht.
  unfold runs, _get_element. apply ends_bind. unfold milli_now.
  apply ends_call. intros start b1 E1. rewrite E1 in Ht. cbn [fst snd] in Ht.
  cbv beta iota. apply ends_bind, ends_call. intros [] b2 E2.
  cbn [env] in E2. rewrite E2 in Ht. cbn [snd] in Ht. cbv beta iota.
  cbn [poll]. apply ends_bind. unfold milli_now. apply ends_call.
  intros t b3 E3. cbn [env] in E3. rewrite E3 in Ht. cbn [fst] in Ht.
  cbv beta iota. apply Z.ltb_lt in Ht. rewrite Ht.
  apply ends_bind.
  eapply ends_weaken;
    [apply (attempt_all_raise handle False sel (scope parent) _ Hraise Hp)
    | exact (fun H => H) |].
  intros r d w' _ ->. reflexivity.
Qed.

Lemma broken_page_lookups_raise :
  lookups_raise (Toy.handle Toy.broken_page) Driver.
Proof.
  intros b by_ v. exists "no such element". reflexivity.
Qed.

Lemma unbound_error_when_all_lookups_raise_witness :
  lookups_raise (Toy.handle Toy.broken_page) (scope None) /\
  prefixed "main" = false /\
  (400 < 0 + 1 * 1000)%Z /\
  runs (_get_element (Toy.handle Toy.broken_page) 1 "main" None 1) Toy.start
    (fun r _ _ => r = Err unbound_elements).
Proof.
  split; [apply broken_page_lookups_raise |].
  split; [reflexivity |]. split; [lia |].
  apply (unbound_error_when_all_lookups_raise _ (Toy.handle Toy.broken_page)
           0 "main" None 1%Z Toy.start);
    [apply broken_page_lookups_raise | reflexivity | simpl; lia].
Defined.

(** ** The asserts only look *)

Lemma resolved_observed sel parent wait r d :
  resolved sel parent wait r d -> forallb observer_event d = true.
Proof.
  intros [start [polls [-> [Hl _]]]]. cbn [forallb].
  change (observer_event (Ev TimeTime start)) with true.
  change (observer_event (Ev (ImplicitlyWait 0) tt)) with true. cbn [andb].
  induction polls as [| e polls IH]; simpl; auto.
  simpl in Hl. apply andb_true_iff in Hl. destruct Hl as [He Hp].
  unfold observer_event at 1. unfold resolver_event. rewrite He. simpl. auto.
Qed.

(** X13.  The five asserts only look at the page: besides the sleep and
    what the resolver asks, they read a text, an attribute, the title or
    the address; they never click, type, submit or navigate. *)
Theorem asserts_only_look
    (B : Type) (handle : forall A : Type, envE A -> B -> A * B)
    (rank : Z -> B -> nat) :
  clock_progress handle rank ->
  forall py (w : World B),
  exists fuel0, forall fuel, (fuel0 <= fuel)%nat ->
    (forall text sel,
        runs (assert_text handle py fuel text sel) w
          (fun _ d _ => forallb observer_event d = true)) /\
    (forall sel,
        runs (assert_element handle py fuel sel) w
          (fun _ d _ => forallb observer_event d = true)) /\
    (forall sel value,
        runs (assert_value handle py fuel sel value) w
          (fun _ d _ => forallb observer_event d = true)) /\
    (forall value,
        runs (assert_title handle py value) w
          (fun _ d _ => forallb observer_event d = true)) /\
    (forall url,
        runs (assert_url handle py url) w
          (fun _ d _ => forallb observer_event d = true)).
Proof.
  intros Hp py w.
  exists (enough handle rank default_wait
            (snd (handle unit (TimeSleep 1000) (env w)))).
  intros fuel Hf. repeat split; intros; unfold runs.
  - eapply ends_weaken;
      [apply (assert_text_runs handle rank py Hp fuel text sel w Hf) | exact (fun H => H) |].
    intros r d w' _ [dres [rr [tail [-> [Hres H]]]]].
    cbn [forallb]. rewrite forallb_app, (resolved_observed _ _ _ _ _ Hres).
    destruct rr as [e | x].
    + destruct H as [[actual [_ [-> _]]] | [actual [shown [_ [-> _]]]]]; reflexivity.
    + destruct H as [-> _]. reflexivity.
  - eapply ends_weaken;
      [apply (assert_element_runs handle rank py Hp fuel sel w Hf) | exact (fun H => H) |].
    intros r d w' _ [dres [rr [-> [Hres H]]]].
    cbn [forallb]. rewrite (resolved_observed _ _ _ _ _ Hres). reflexivity.
  - eapply ends_weaken;
      [apply (assert_value_runs handle rank py Hp fuel sel value w Hf) | exact (fun H => H) |].
    intros r d w' _ [dres [rr [tail [-> [Hres H]]]]].
    cbn [forallb]. rewrite forallb_app, (resolved_observed _ _ _ _ _ Hres).
    destruct rr as [e | x].
    + destruct H as [[-> _] | [actual [shown [_ [-> _]]]]]; reflexivity.
    + destruct H as [-> _]. reflexivity.
  - eapply ends_weaken; [apply assert_title_runs | exact (fun H => H) |].
    intros r d w' _ [[-> _] | [actual [shown [_ [-> _]]]]]; reflexivity.
  - eapply ends_weaken; [apply assert_url_runs | exact (fun H => H) |].
    intros r d w' _ [[-> _] | [actual [shown [_ [-> _]]]]]; reflexivity.
Qed.

Lemma asserts_only_look_witness :
  clock_progress (Toy.handle Toy.form_page) Toy.rank /\
  exists fuel0, forall fuel, (fuel0 <= fuel)%nat ->
    runs (assert_text (Toy.handle Toy.form_page) Python3 fuel "Home" "a") Toy.start
      (fun _ d _ => forallb observer_event d = true).
Proof.
  split; [apply toy_progress |].
  destruct (asserts_only_look _ _ _ (toy_progress Toy.form_page) Python3 Toy.start)
    as [fuel0 H].
  exists fuel0. intros fuel Hf. exact (proj1 (H fuel Hf) "Home" "a").
Defined.

(** ** How [xpath_wait] sleeps *)

Lemma exist_phase_sleeps xp stop sleep d n end1 :
  exist_phase xp stop sleep d n end1 ->
  (0 <= sleep)%Z ->
  steps (sleep_step sleep) d false = Some false.
Proof.
  induction 1; intros Hs; try reflexivity; try lia.
  cbn [steps sleep_step ev_sleep failed_query andb negb].
  rewrite Z.eqb_refl. cbn [andb]. auto.
Qed.

Lemma visible_phase_sleeps e stop sleep d n end2 :
  visible_phase e stop sleep d n end2 ->
  (0 <= sleep)%Z ->
  steps (sleep_step sleep) d false = Some false.
Proof.
  induction 1; intros Hs; try reflexivity; try lia.
  cbn [steps sleep_step ev_sleep failed_query andb negb].
  rewrite Z.eqb_refl. cbn [andb]. auto.
Qed.

(** With a negative interval a phase is one round. *)
Lemma exist_phase_refuses xp stop sleep d n end1 :
  exist_phase xp stop sleep d n end1 ->
  (sleep < 0)%Z ->
  forallb (fun e => negb (is_sleep e)) d = true /\
  match end1 with
  | Refused =>
      exists pre last, d = (pre ++ [last])%list /\ failed_query last = true /\
                       forallb (fun e => negb (failed_query e)) pre = true
  | _ => forallb (fun e => negb (failed_query e)) d = true
  end.
Proof.
  induction 1; intros Hs; try lia.
  - split; reflexivity.
  - split; reflexivity.
  - split; [reflexivity |].
    exists [Ev Clock t], (Ev (FindElementByXpath xp) (NoSuchElement msg)).
    repeat split.
Qed.

Lemma visible_phase_refuses e stop sleep d n end2 :
  visible_phase e stop sleep d n end2 ->
  (sleep < 0)%Z ->
  forallb (fun e => negb (is_sleep e)) d = true /\
  match end2 with
  | Refused =>
      exists pre last, d = (pre ++ [last])%list /\ failed_query last = true /\
                       forallb (fun e => negb (failed_query e)) pre = true
  | _ => forallb (fun e => negb (failed_query e)) d = true
  end.
Proof.
  induction 1; intros Hs; try lia.
  - split; reflexivity.
  - split; reflexivity.
  - split; [reflexivity |].
    exists [Ev Clock t], (Ev (IsDisplayed e) false).
    repeat split.
Qed.

Lemma xpath_waited_sleeps py float_str xp visible timeout sleep r d :
  xpath_waited py float_str xp visible timeout sleep r d ->
  sleeps_between py sleep r d.
Proof.
  intros [start H]. destruct (Py.to_float timeout) as [tf |].
  - cbv zeta in H. destruct H as [d1 [n1 [end1 [Hph H]]]]. split.
    + intros Hs. pose proof (exist_phase_sleeps _ _ _ _ _ _ Hph Hs) as S1.
      destruct end1 as [e | |].
      * destruct visible.
        -- destruct H as [d2 [n2 [end2 [Hv [-> _]]]]].
           change (Ev Clock start :: d1 ++ d2)%list
             with ((Ev Clock start :: d1) ++ d2)%list.
           rewrite steps_app. cbn [steps sleep_step ev_sleep failed_query].
           cbn. rewrite S1. exact (visible_phase_sleeps _ _ _ _ _ _ Hv Hs).
        -- destruct H as [-> _]. cbn. exact S1.
      * destruct H as [-> _]. cbn. exact S1.
      * destruct H as [-> _]. cbn. exact S1.
    + intros Hs. destruct (exist_phase_refuses _ _ _ _ _ _ Hph Hs) as [N1 F1].
      destruct end1 as [e | |].
      * destruct visible.
        -- destruct H as [d2 [n2 [end2 [Hv [-> Hr]]]]].
           destruct (visible_phase_refuses _ _ _ _ _ _ Hv Hs) as [N2 F2].
           split.
           ++ cbn [forallb]. rewrite forallb_app, N1, N2. reflexivity.
           ++ destruct end2 as [e2 | |].
              ** left. cbn [forallb]. rewrite forallb_app, F1, F2. reflexivity.
              ** left. cbn [forallb]. rewrite forallb_app, F1, F2. reflexivity.
              ** right. split; [exact Hr |].
                 destruct F2 as [pre [last [-> [Hl Hpre]]]].
                 exists (Ev Clock start :: d1 ++ pre)%list, last.
                 split; [cbn [app]; rewrite app_assoc; reflexivity |].
                 split; [exact Hl |].
                 cbn [forallb]. rewrite forallb_app, F1, Hpre. reflexivity.
        -- destruct H as [-> _]. split; [exact N1 | left; exact F1].
      * destruct H as [-> _]. split; [exact N1 | left; exact F1].
      * destruct H as [-> Hr]. split; [exact N1 |]. right. split; [exact Hr |].
        destruct F1 as [pre [last [-> [Hl Hpre]]]].
        exists (Ev Clock start :: pre), last. repeat split; assumption.
  - destruct H as [-> _]. split; intros _; [reflexivity |].
    split; [reflexivity | left; reflexivity].
Qed.


